(** * OpenMP test-pattern extraction: a shallow embedding of the per-file
      analysis pipeline

    The development follows the Python sources
    [src/database/models.py], [src/core/ast_extractor.py] and
    [src/core/file_processor.py].

    Modelling conventions.
    - A Python [str] is a [string]; a character is a code point below 256,
      so every statement quantifying over texts ranges over Latin-1 texts.
      The character tables ([isspace], [lower], [\w], line boundaries) are
      those of CPython for that range.
    - A Python [int] is a [Z]; [len] is [Z.of_nat (length _)].
    - [Optional[T]] is [option T]; a function that can raise returns an
      [option] and the enclosing [try/except] is written out.
    - A [set] of strings is the list of its distinct elements in insertion
      order; turning it into a list goes through the iteration order of the
      interpreter, which is a parameter of a run ([SetOrder]).
    - The [re] module is a small backtracking matcher over the constructs
      the sources use. *)

From Stdlib Require Import String Ascii List ZArith Bool Lia Arith.
From Stdlib Require Import Permutation Sorted DecimalString.
Import ListNotations.

Set Warnings "-register-all".

Local Open Scope string_scope.
Local Open Scope list_scope.
Local Open Scope Z_scope.

(* ================================================================== *)
(** * Python strings *)
(* ================================================================== *)

Module PyStr.

Definition chr (n : nat) : ascii := ascii_of_nat n.
Definition ord (c : ascii) : nat := nat_of_ascii c.

Definition between (lo hi n : nat) : bool :=
  (Nat.leb lo n && Nat.leb n hi)%bool.

(** [str.isspace] on one character; also the class [\s] of [re] and the
    separators of [str.split()] and [str.strip()]. *)
Definition isspace (c : ascii) : bool :=
  let n := ord c in
  (between 9 13 n || between 28 32 n || Nat.eqb n 133 || Nat.eqb n 160)%bool.

(** The line boundaries of [str.splitlines]. *)
Definition is_linebreak (c : ascii) : bool :=
  let n := ord c in
  (between 10 13 n || between 28 30 n || Nat.eqb n 133)%bool.

Definition isdigit (c : ascii) : bool := between 48 57 (ord c).

Definition isupper_ascii (c : ascii) : bool := between 65 90 (ord c).
Definition islower_ascii (c : ascii) : bool := between 97 122 (ord c).

(** The class [\w] of [re] on [str] patterns. *)
Definition isword (c : ascii) : bool :=
  let n := ord c in
  (isupper_ascii c || islower_ascii c || isdigit c || Nat.eqb n 95
   || Nat.eqb n 170 || Nat.eqb n 178 || Nat.eqb n 179 || Nat.eqb n 181
   || Nat.eqb n 185 || Nat.eqb n 186 || between 188 190 n
   || between 192 214 n || between 216 246 n || between 248 255 n)%bool.

(** [str.lower] on one character. *)
Definition lower_char (c : ascii) : ascii :=
  let n := ord c in
  if (between 65 90 n || (between 192 222 n && negb (Nat.eqb n 215)))%bool
  then chr (n + 32) else c.

Fixpoint lower (s : string) : string :=
  match s with
  | EmptyString => EmptyString
  | String c s' => String (lower_char c) (lower s')
  end.

Definition is_empty (s : string) : bool :=
  match s with EmptyString => true | _ => false end.

(** [s.startswith(p)]. *)
Fixpoint startswith (p s : string) : bool :=
  match p, s with
  | EmptyString, _ => true
  | String a p', String b s' => (Ascii.eqb a b && startswith p' s')%bool
  | String _ _, EmptyString => false
  end.

(** [sub in s]. *)
Fixpoint str_in (sub s : string) : bool :=
  (startswith sub s
   || match s with
      | EmptyString => false
      | String _ s' => str_in sub s'
      end)%bool.

Fixpoint find_from (sub s : string) (i : Z) : Z :=
  if startswith sub s then i
  else match s with
       | EmptyString => -1
       | String _ s' => find_from sub s' (i + 1)
       end.

(** [s.find(sub)]: the lowest index where [sub] occurs, [-1] if none. *)
Definition find (sub s : string) : Z := find_from sub s 0.

Fixpoint lstrip (s : string) : string :=
  match s with
  | EmptyString => EmptyString
  | String c s' => if isspace c then lstrip s' else s
  end.

Fixpoint rstrip (s : string) : string :=
  match s with
  | EmptyString => EmptyString
  | String c s' =>
      let r := rstrip s' in
      if (isspace c && is_empty r)%bool then EmptyString else String c r
  end.

(** [s.strip()]. *)
Definition strip (s : string) : string := rstrip (lstrip s).

(** [s.split()]: the maximal runs of non-whitespace characters. *)
Fixpoint split (s : string) : list string :=
  match s with
  | EmptyString => []
  | String c s' =>
      if isspace c then split s'
      else match s' with
           | EmptyString => [String c EmptyString]
           | String c' _ =>
               if isspace c' then String c EmptyString :: split s'
               else match split s' with
                    | w :: ws => String c w :: ws
                    | [] => [String c EmptyString]
                    end
           end
  end.

(** [s.splitlines()].  [after_cr] records that the previous character was
    a carriage return, whose following line feed belongs to the same
    boundary. *)
Fixpoint splitlines_go (after_cr : bool) (s : string) : list string :=
  match s with
  | EmptyString => []
  | String c s' =>
      if (after_cr && Nat.eqb (ord c) 10)%bool then splitlines_go false s'
      else if is_linebreak c
           then EmptyString :: splitlines_go (Nat.eqb (ord c) 13) s'
           else match splitlines_go false s' with
                | l :: ls => String c l :: ls
                | [] => [String c EmptyString]
                end
  end.

Definition splitlines (s : string) : list string := splitlines_go false s.

(** [sep.join(l)]. *)
Definition join (sep : string) (l : list string) : string :=
  String.concat sep l.

(** [s[:n]]. *)
Fixpoint take (n : nat) (s : string) : string :=
  match n, s with
  | S n', String c s' => String c (take n' s')
  | _, _ => EmptyString
  end.

(** [str(n)] for an integer. *)
Definition str_of_int (z : Z) : string :=
  NilZero.string_of_int (Z.to_int z).

(** [len(l)]. *)
Definition len {A : Type} (l : list A) : Z := Z.of_nat (List.length l).

(** [enumerate(l, start)]. *)
Fixpoint enumerate {A : Type} (start : Z) (l : list A) : list (Z * A) :=
  match l with
  | [] => []
  | x :: l' => (start, x) :: enumerate (start + 1) l'
  end.

Definition nl : string := String (chr 10) EmptyString.

End PyStr.

(* ================================================================== *)
(** * The fragment of [re] the sources use *)
(* ================================================================== *)

Module Re.
Import PyStr.

(** Character classes. *)
Inductive cclass : Type :=
| CSpace                                  (* \s *)
| CDigit                                  (* \d *)
| CWord                                   (* \w *)
| CAny                                    (* .  (no DOTALL) *)
| CNot (c : ascii)                        (* [^c] *)
| CRanges (rs : list (ascii * ascii)).    (* [a-zA-Z...] *)

Definition cmatch (cl : cclass) (a : ascii) : bool :=
  match cl with
  | CSpace => isspace a
  | CDigit => isdigit a
  | CWord => isword a
  | CAny => negb (Nat.eqb (ord a) 10)
  | CNot c => negb (Ascii.eqb a c)
  | CRanges rs =>
      existsb (fun r => between (ord (fst r)) (ord (snd r)) (ord a)) rs
  end.

Inductive regex : Type :=
| Lit (s : string)                               (* literal text *)
| Rep (cl : cclass) (min : nat) (greedy : bool)  (* cl*  cl+  cl*? *)
| Cat (r1 r2 : regex)
| Alt (r1 r2 : regex)                            (* r1|r2 *)
| Grp (r : regex)                                (* ( r ), group 1 *)
| Ahead (r : regex).                             (* (?= r ) *)

Definition star (cl : cclass) : regex := Rep cl 0 true.
Definition plus (cl : cclass) : regex := Rep cl 1 true.
Definition star_lazy (cl : cclass) : regex := Rep cl 0 false.
Definition seq (rs : list regex) : regex := fold_right Cat (Lit "") rs.

(** The state of a match attempt: the input still to read and the text
    captured by group 1 so far. *)
Definition mstate : Type := (string * option string)%type.

Definition char_eq (icase : bool) (a b : ascii) : bool :=
  if icase then Ascii.eqb (lower_char a) (lower_char b) else Ascii.eqb a b.

Fixpoint lit_match (icase : bool) (p s : string) : option string :=
  match p, s with
  | EmptyString, _ => Some s
  | String a p', String b s' =>
      if char_eq icase a b then lit_match icase p' s' else None
  | String _ _, EmptyString => None
  end.

(** Greedy and lazy repetition of a class, at least [min] times, with
    backtracking into the continuation [k]. *)
Fixpoint rep_match (cl : cclass) (greedy : bool) (min : nat) (s : string)
         (k : string -> option mstate) : option mstate :=
  let stop := match min with O => k s | S _ => None end in
  match s with
  | EmptyString => stop
  | String a s' =>
      if cmatch cl a then
        if greedy then
          match rep_match cl greedy (Nat.pred min) s' k with
          | Some r => Some r
          | None => stop
          end
        else
          match stop with
          | Some r => Some r
          | None => rep_match cl greedy (Nat.pred min) s' k
          end
      else stop
  end.

Fixpoint run (icase : bool) (r : regex) (s : string) (g : option string)
         (k : string -> option string -> option mstate) : option mstate :=
  match r with
  | Lit p =>
      match lit_match icase p s with
      | Some s' => k s' g
      | None => None
      end
  | Rep cl min greedy => rep_match cl greedy min s (fun s' => k s' g)
  | Cat r1 r2 => run icase r1 s g (fun s' g' => run icase r2 s' g' k)
  | Alt r1 r2 =>
      match run icase r1 s g k with
      | Some x => Some x
      | None => run icase r2 s g k
      end
  | Grp r1 =>
      run icase r1 s g
          (fun s' _ =>
             k s' (Some (take (String.length s - String.length s') s)))
  | Ahead r1 =>
      match run icase r1 s g (fun s' g' => Some (s', g')) with
      | Some (_, g') => k s g'
      | None => None
      end
  end.

(** A match object: the text matched ([group(0)]), group 1 when it took
    part in the match, and the input after the match. *)
Record match_obj : Type := mk_match
  { group0 : string; group1 : option string; rest : string }.

(** [re.match(r, s)]. *)
Definition re_match (icase : bool) (r : regex) (s : string)
  : option match_obj :=
  match run icase r s None (fun s' g => Some (s', g)) with
  | Some (s', g) =>
      Some (mk_match (take (String.length s - String.length s') s) g s')
  | None => None
  end.

(** [re.search(r, s)]: the leftmost position with a match. *)
Fixpoint re_search (icase : bool) (r : regex) (s : string)
  : option match_obj :=
  match re_match icase r s with
  | Some m => Some m
  | None =>
      match s with
      | EmptyString => None
      | String _ s' => re_search icase r s'
      end
  end.

Fixpoint has_group (r : regex) : bool :=
  match r with
  | Grp _ => true
  | Cat r1 r2 | Alt r1 r2 => (has_group r1 || has_group r2)%bool
  | Ahead r1 => has_group r1
  | _ => false
  end.

(** What [findall] reports for one match: group 1 when the pattern has a
    group, the whole match otherwise. *)
Definition findall_item (r : regex) (m : match_obj) : string :=
  if has_group r
  then match group1 m with Some g => g | None => EmptyString end
  else group0 m.

(** [re.findall(r, s)]: the non-overlapping matches from left to right.
    [skip] counts the characters of the last match still to step over. *)
Fixpoint findall_go (icase : bool) (r : regex) (skip : nat) (s : string)
  : list string :=
  let next k :=
    match s with
    | EmptyString => []
    | String _ s' => findall_go icase r k s'
    end in
  match skip with
  | S n => next n
  | O =>
      match re_match icase r s with
      | Some m =>
          findall_item r m
            :: next (Nat.pred (String.length (group0 m)))
      | None => next O
      end
  end.

Definition findall (icase : bool) (r : regex) (s : string) : list string :=
  findall_go icase r O s.

End Re.

(* ================================================================== *)
(** * [src/database/models.py] *)
(* ================================================================== *)

Inductive CompilerStage : Type := PARSE | SEMA | CODEGEN | AST_PRINT | UNKNOWN.

Inductive TestCategory : Type :=
  PARALLEL | WORKSHARING | TARGET | SYNCHRONIZATION | SIMD | TASK | GENERAL.

Module OpenMPDirective.
Record t : Type := mk
  { name : string;
    clauses : list string;
    line_number : Z;
    column_number : Z;
    full_text : string }.
End OpenMPDirective.

Module ASTNode.
Record t : Type := mk
  { node_type : string;
    spelling : string;
    location : string;
    children_count : Z;
    has_openmp : bool }.
End ASTNode.

Module ParseError.
Record t : Type := mk
  { error_type : string;
    message : string;
    line_number : Z;
    column_number : Z;
    severity : string }.
End ParseError.

Module ExpectedErrorPattern.
Record t : Type := mk
  { pattern : string;
    error_category : string;
    regex_pattern : option string;
    line_number : Z }.
End ExpectedErrorPattern.

(** Plain Python values: what [dataclasses.asdict] produces and what the
    untyped [Dict] field of [NegativeTestCharacteristics] holds.  A [PDict]
    lists its items in insertion order. *)
Inductive pyval : Type :=
| PNone
| PBool (b : bool)
| PInt (z : Z)
| PStr (s : string)
| PList (l : list pyval)
| PDict (items : list (string * pyval)).

Module NegativeTestCharacteristics.
Record t : Type := mk
  { is_negative_test : bool;
    error_testing_strategy : option string;
    expected_vs_actual_errors : pyval;
    error_coverage_areas : list string;
    error_trigger_count : Z }.
End NegativeTestCharacteristics.

Module TestPattern.
Record t : Type := mk
  { file_path : string;
    file_name : string;
    file_size : Z;
    compiler_stage : CompilerStage;
    run_commands : list string;
    compiler_flags : list string;
    openmp_directives : list OpenMPDirective.t;
    openmp_version : option string;
    test_category : TestCategory;
    check_patterns : list string;
    expected_errors : list string;
    expected_warnings : list string;
    ast_nodes : list ASTNode.t;
    function_declarations : list string;
    variable_declarations : list string;
    ir_patterns : list string;
    runtime_calls : list string;
    parse_errors : list ParseError.t;
    expected_error_patterns : list ExpectedErrorPattern.t;
    negative_test_characteristics : NegativeTestCharacteristics.t;
    error_trigger_mechanisms : list string;
    error_types : list string;
    complexity_score : Z;
    line_count : Z;
    created_timestamp : string }.
End TestPattern.

(** ** Serialisation *)

Module Serial.

(** [CompilerStage.X.value] and [CompilerStage(v)]. *)
Definition stage_value (c : CompilerStage) : string :=
  match c with
  | PARSE => "parse" | SEMA => "sema" | CODEGEN => "codegen"
  | AST_PRINT => "ast_print" | UNKNOWN => "unknown"
  end.

Definition stage_of_value (v : pyval) : option CompilerStage :=
  match v with
  | PStr s =>
      if String.eqb s "parse" then Some PARSE
      else if String.eqb s "sema" then Some SEMA
      else if String.eqb s "codegen" then Some CODEGEN
      else if String.eqb s "ast_print" then Some AST_PRINT
      else if String.eqb s "unknown" then Some UNKNOWN
      else None
  | _ => None
  end.

Definition category_value (c : TestCategory) : string :=
  match c with
  | PARALLEL => "parallel" | WORKSHARING => "worksharing"
  | TARGET => "target" | SYNCHRONIZATION => "synchronization"
  | SIMD => "simd" | TASK => "task" | GENERAL => "general"
  end.

Definition category_of_value (v : pyval) : option TestCategory :=
  match v with
  | PStr s =>
      if String.eqb s "parallel" then Some PARALLEL
      else if String.eqb s "worksharing" then Some WORKSHARING
      else if String.eqb s "target" then Some TARGET
      else if String.eqb s "synchronization" then Some SYNCHRONIZATION
      else if String.eqb s "simd" then Some SIMD
      else if String.eqb s "task" then Some TASK
      else if String.eqb s "general" then Some GENERAL
      else None
  | _ => None
  end.

(** *** Encoding, as [dataclasses.asdict] does it *)

Definition of_str_list (l : list string) : pyval := PList (map PStr l).

Definition of_opt_str (o : option string) : pyval :=
  match o with Some s => PStr s | None => PNone end.

Definition directive_asdict (d : OpenMPDirective.t) : pyval :=
  PDict [ ("name", PStr (OpenMPDirective.name d));
          ("clauses", of_str_list (OpenMPDirective.clauses d));
          ("line_number", PInt (OpenMPDirective.line_number d));
          ("column_number", PInt (OpenMPDirective.column_number d));
          ("full_text", PStr (OpenMPDirective.full_text d)) ].

Definition ast_node_asdict (n : ASTNode.t) : pyval :=
  PDict [ ("node_type", PStr (ASTNode.node_type n));
          ("spelling", PStr (ASTNode.spelling n));
          ("location", PStr (ASTNode.location n));
          ("children_count", PInt (ASTNode.children_count n));
          ("has_openmp", PBool (ASTNode.has_openmp n)) ].

Definition parse_error_asdict (e : ParseError.t) : pyval :=
  PDict [ ("error_type", PStr (ParseError.error_type e));
          ("message", PStr (ParseError.message e));
          ("line_number", PInt (ParseError.line_number e));
          ("column_number", PInt (ParseError.column_number e));
          ("severity", PStr (ParseError.severity e)) ].

Definition expected_pattern_asdict (p : ExpectedErrorPattern.t) : pyval :=
  PDict [ ("pattern", PStr (ExpectedErrorPattern.pattern p));
          ("error_category", PStr (ExpectedErrorPattern.error_category p));
          ("regex_pattern", of_opt_str (ExpectedErrorPattern.regex_pattern p));
          ("line_number", PInt (ExpectedErrorPattern.line_number p)) ].

Definition negative_asdict (c : NegativeTestCharacteristics.t) : pyval :=
  PDict
    [ ("is_negative_test",
        PBool (NegativeTestCharacteristics.is_negative_test c));
      ("error_testing_strategy",
        of_opt_str (NegativeTestCharacteristics.error_testing_strategy c));
      ("expected_vs_actual_errors",
        NegativeTestCharacteristics.expected_vs_actual_errors c);
      ("error_coverage_areas",
        of_str_list (NegativeTestCharacteristics.error_coverage_areas c));
      ("error_trigger_count",
        PInt (NegativeTestCharacteristics.error_trigger_count c)) ].

(** [TestPattern.to_dict]: [asdict(self)] with the two enum entries
    replaced by their values. *)
Definition to_dict (p : TestPattern.t) : pyval :=
  PDict
    [ ("file_path", PStr (TestPattern.file_path p));
      ("file_name", PStr (TestPattern.file_name p));
      ("file_size", PInt (TestPattern.file_size p));
      ("compiler_stage", PStr (stage_value (TestPattern.compiler_stage p)));
      ("run_commands", of_str_list (TestPattern.run_commands p));
      ("compiler_flags", of_str_list (TestPattern.compiler_flags p));
      ("openmp_directives",
        PList (map directive_asdict (TestPattern.openmp_directives p)));
      ("openmp_version", of_opt_str (TestPattern.openmp_version p));
      ("test_category", PStr (category_value (TestPattern.test_category p)));
      ("check_patterns", of_str_list (TestPattern.check_patterns p));
      ("expected_errors", of_str_list (TestPattern.expected_errors p));
      ("expected_warnings", of_str_list (TestPattern.expected_warnings p));
      ("ast_nodes", PList (map ast_node_asdict (TestPattern.ast_nodes p)));
      ("function_declarations",
        of_str_list (TestPattern.function_declarations p));
      ("variable_declarations",
        of_str_list (TestPattern.variable_declarations p));
      ("ir_patterns", of_str_list (TestPattern.ir_patterns p));
      ("runtime_calls", of_str_list (TestPattern.runtime_calls p));
      ("parse_errors",
        PList (map parse_error_asdict (TestPattern.parse_errors p)));
      ("expected_error_patterns",
        PList (map expected_pattern_asdict
                   (TestPattern.expected_error_patterns p)));
      ("negative_test_characteristics",
        negative_asdict (TestPattern.negative_test_characteristics p));
      ("error_trigger_mechanisms",
        of_str_list (TestPattern.error_trigger_mechanisms p));
      ("error_types", of_str_list (TestPattern.error_types p));
      ("complexity_score", PInt (TestPattern.complexity_score p));
      ("line_count", PInt (TestPattern.line_count p));
      ("created_timestamp", PStr (TestPattern.created_timestamp p)) ].

(** *** Decoding *)

(** A failure of [from_dict]: a missing key ([KeyError]), a value that is
    no member of the enum ([ValueError]), keyword arguments that do not
    fit the constructor ([TypeError]).  Python does not check the type of
    a field value; a value that does not have the declared type of its
    field has no counterpart in the typed record and is a failure too. *)
Definition bind {A B : Type} (o : option A) (f : A -> option B)
  : option B :=
  match o with Some a => f a | None => None end.

Notation "x <- e ;; k" := (bind e (fun x => k))
  (at level 61, e at next level, right associativity).

(** [d[key]]. *)
Fixpoint lookup (key : string) (d : list (string * pyval)) : option pyval :=
  match d with
  | [] => None
  | (k, v) :: d' => if String.eqb k key then Some v else lookup key d'
  end.

Definition mem (key : string) (ks : list string) : bool :=
  existsb (String.eqb key) ks.

(** Keyword-argument construction [C( **d )] accepts [d] when its keys are
    exactly the fields of [C]. *)
Definition kwargs_fit (fields : list string) (d : list (string * pyval))
  : bool :=
  (forallb (fun k => mem k fields) (map fst d)
   && forallb (fun f => mem f (map fst d)) fields)%bool.

Definition as_str (v : pyval) : option string :=
  match v with PStr s => Some s | _ => None end.
Definition as_int (v : pyval) : option Z :=
  match v with PInt z => Some z | _ => None end.
Definition as_bool (v : pyval) : option bool :=
  match v with PBool b => Some b | _ => None end.
Definition as_opt_str (v : pyval) : option (option string) :=
  match v with PStr s => Some (Some s) | PNone => Some None | _ => None end.

Fixpoint traverse {A B : Type} (f : A -> option B) (l : list A)
  : option (list B) :=
  match l with
  | [] => Some []
  | x :: l' => y <- f x ;; ys <- traverse f l' ;; Some (y :: ys)
  end.

Definition as_list {A : Type} (f : pyval -> option A) (v : pyval)
  : option (list A) :=
  match v with PList l => traverse f l | _ => None end.

Definition get {A : Type} (d : list (string * pyval)) (key : string)
           (f : pyval -> option A) : option A :=
  v <- lookup key d ;; f v.

Definition directive_fields : list string :=
  ["name"; "clauses"; "line_number"; "column_number"; "full_text"].

(** One element of [data['openmp_directives']]: rebuilt from its keyword
    arguments when it is a dict. *)
Definition directive_of (v : pyval) : option OpenMPDirective.t :=
  match v with
  | PDict d =>
      if kwargs_fit directive_fields d then
        a <- get d "name" as_str ;;
        b <- get d "clauses" (as_list as_str) ;;
        c <- get d "line_number" as_int ;;
        e <- get d "column_number" as_int ;;
        f <- get d "full_text" as_str ;;
        Some (OpenMPDirective.mk a b c e f)
      else None
  | _ => None
  end.

Definition ast_node_fields : list string :=
  ["node_type"; "spelling"; "location"; "children_count"; "has_openmp"].

Definition ast_node_of (v : pyval) : option ASTNode.t :=
  match v with
  | PDict d =>
      if kwargs_fit ast_node_fields d then
        a <- get d "node_type" as_str ;;
        b <- get d "spelling" as_str ;;
        c <- get d "location" as_str ;;
        e <- get d "children_count" as_int ;;
        f <- get d "has_openmp" as_bool ;;
        Some (ASTNode.mk a b c e f)
      else None
  | _ => None
  end.

Definition parse_error_fields : list string :=
  ["error_type"; "message"; "line_number"; "column_number"; "severity"].

Definition parse_error_of (v : pyval) : option ParseError.t :=
  match v with
  | PDict d =>
      if kwargs_fit parse_error_fields d then
        a <- get d "error_type" as_str ;;
        b <- get d "message" as_str ;;
        c <- get d "line_number" as_int ;;
        e <- get d "column_number" as_int ;;
        f <- get d "severity" as_str ;;
        Some (ParseError.mk a b c e f)
      else None
  | _ => None
  end.

Definition expected_pattern_fields : list string :=
  ["pattern"; "error_category"; "regex_pattern"; "line_number"].

Definition expected_pattern_of (v : pyval)
  : option ExpectedErrorPattern.t :=
  match v with
  | PDict d =>
      if kwargs_fit expected_pattern_fields d then
        a <- get d "pattern" as_str ;;
        b <- get d "error_category" as_str ;;
        c <- get d "regex_pattern" as_opt_str ;;
        e <- get d "line_number" as_int ;;
        Some (ExpectedErrorPattern.mk a b c e)
      else None
  | _ => None
  end.

Definition negative_fields : list string :=
  ["is_negative_test"; "error_testing_strategy";
   "expected_vs_actual_errors"; "error_coverage_areas";
   "error_trigger_count"].

Definition negative_of (v : pyval)
  : option NegativeTestCharacteristics.t :=
  match v with
  | PDict d =>
      if kwargs_fit negative_fields d then
        a <- get d "is_negative_test" as_bool ;;
        b <- get d "error_testing_strategy" as_opt_str ;;
        c <- get d "expected_vs_actual_errors" Some ;;
        e <- get d "error_coverage_areas" (as_list as_str) ;;
        f <- get d "error_trigger_count" as_int ;;
        Some (NegativeTestCharacteristics.mk a b c e f)
      else None
  | _ => None
  end.

Definition test_pattern_fields : list string :=
  ["file_path"; "file_name"; "file_size"; "compiler_stage";
   "run_commands"; "compiler_flags"; "openmp_directives";
   "openmp_version"; "test_category"; "check_patterns";
   "expected_errors"; "expected_warnings"; "ast_nodes";
   "function_declarations"; "variable_declarations"; "ir_patterns";
   "runtime_calls"; "parse_errors"; "expected_error_patterns";
   "negative_test_characteristics"; "error_trigger_mechanisms";
   "error_types"; "complexity_score"; "line_count"; "created_timestamp"].

(** [TestPattern.from_dict]. *)
Definition from_dict (data : pyval) : option TestPattern.t :=
  match data with
  | PDict d =>
      compiler_stage <- get d "compiler_stage" stage_of_value ;;
      test_category <- get d "test_category" category_of_value ;;
      openmp_directives <-
        get d "openmp_directives" (as_list directive_of) ;;
      ast_nodes <- get d "ast_nodes" (as_list ast_node_of) ;;
      parse_errors <- get d "parse_errors" (as_list parse_error_of) ;;
      expected_error_patterns <-
        get d "expected_error_patterns" (as_list expected_pattern_of) ;;
      negative_test_characteristics <-
        get d "negative_test_characteristics" negative_of ;;
      if kwargs_fit test_pattern_fields d then
        file_path <- get d "file_path" as_str ;;
        file_name <- get d "file_name" as_str ;;
        file_size <- get d "file_size" as_int ;;
        run_commands <- get d "run_commands" (as_list as_str) ;;
        compiler_flags <- get d "compiler_flags" (as_list as_str) ;;
        openmp_version <- get d "openmp_version" as_opt_str ;;
        check_patterns <- get d "check_patterns" (as_list as_str) ;;
        expected_errors <- get d "expected_errors" (as_list as_str) ;;
        expected_warnings <- get d "expected_warnings" (as_list as_str) ;;
        function_declarations <-
          get d "function_declarations" (as_list as_str) ;;
        variable_declarations <-
          get d "variable_declarations" (as_list as_str) ;;
        ir_patterns <- get d "ir_patterns" (as_list as_str) ;;
        runtime_calls <- get d "runtime_calls" (as_list as_str) ;;
        error_trigger_mechanisms <-
          get d "error_trigger_mechanisms" (as_list as_str) ;;
        error_types <- get d "error_types" (as_list as_str) ;;
        complexity_score <- get d "complexity_score" as_int ;;
        line_count <- get d "line_count" as_int ;;
        created_timestamp <- get d "created_timestamp" as_str ;;
        Some (TestPattern.mk
                file_path file_name file_size compiler_stage run_commands
                compiler_flags openmp_directives openmp_version
                test_category check_patterns expected_errors
                expected_warnings ast_nodes function_declarations
                variable_declarations ir_patterns runtime_calls
                parse_errors expected_error_patterns
                negative_test_characteristics error_trigger_mechanisms
                error_types complexity_score line_count created_timestamp)
      else None
  | _ => None
  end.

End Serial.

(* ================================================================== *)
(** * The parser collaborator (libclang), as the sources consume it *)
(* ================================================================== *)

Module Clang.

Record SourceLocation : Type := mk_location
  { line : Z;
    column : Z;
    file : option string }.           (* [location.file.name], if any *)

Record Token : Type := mk_token
  { token_spelling : string;
    token_location : SourceLocation }.

Inductive CursorKind : Type :=
| FUNCTION_DECL | VAR_DECL | INCLUSION_DIRECTIVE | PARM_DECL
| TRANSLATION_UNIT
| OTHER_KIND (kind_name : string).

(** [str(kind)]. *)
Definition kind_str (k : CursorKind) : string :=
  "CursorKind." ++
  match k with
  | FUNCTION_DECL => "FUNCTION_DECL"
  | VAR_DECL => "VAR_DECL"
  | INCLUSION_DIRECTIVE => "INCLUSION_DIRECTIVE"
  | PARM_DECL => "PARM_DECL"
  | TRANSLATION_UNIT => "TRANSLATION_UNIT"
  | OTHER_KIND n => n
  end.

(** The attributes of a cursor the extractor reads.  [kind = None] is a
    cursor whose [kind] cannot be read (reading it raises);
    [semantic_parent = None] is a cursor without semantic parent (reading
    the parent's kind raises). *)
Record CursorData : Type := mk_cursor
  { kind : option CursorKind;
    spelling : string;
    location : SourceLocation;
    tokens : list Token;
    result_type : option string;       (* [result_type.spelling] *)
    type_spelling : string;            (* [type.spelling] *)
    semantic_parent : option CursorKind }.

Inductive Cursor : Type :=
| Node (data : CursorData) (children : list Cursor).

Definition data_of (c : Cursor) : CursorData :=
  match c with Node d _ => d end.
Definition get_children (c : Cursor) : list Cursor :=
  match c with Node _ cs => cs end.

Record Diagnostic : Type := mk_diagnostic
  { diag_spelling : string;
    diag_location : option SourceLocation;
    diag_severity : Z }.

(** The outcome of [index.parse(path, args)]: it raises, or it returns a
    translation unit. *)
Inductive ParseResult : Type :=
| ParseRaises
| TranslationUnit (diagnostics : list Diagnostic) (cursor : Cursor).

End Clang.

(* ================================================================== *)
(** * [src/core/ast_extractor.py] *)
(* ================================================================== *)

Module ASTExtractor.
Import PyStr.

Module ParamInfo.
Record t : Type := mk { name : string; type : string }.
End ParamInfo.

Module FuncInfo.
Record t : Type := mk
  { name : string;
    location : string;
    return_type : string;
    parameters : list ParamInfo.t;
    has_openmp : bool }.
End FuncInfo.

Module VarInfo.
Record t : Type := mk
  { name : string;
    type : string;
    location : string;
    is_global : bool }.
End VarInfo.

Module IncludeInfo.
Record t : Type := mk
  { file : string;
    location : string;
    is_system : bool }.
End IncludeInfo.

(** The [patterns] dictionary of [extract_patterns]; no code path fills
    ['macros']. *)
Record Patterns : Type := mk_patterns
  { ast_nodes : list ASTNode.t;
    openmp_directives : list OpenMPDirective.t;
    function_declarations : list FuncInfo.t;
    variable_declarations : list VarInfo.t;
    includes : list IncludeInfo.t;
    macros : list string;
    parse_errors : list ParseError.t }.

Definition empty_patterns : Patterns := mk_patterns [] [] [] [] [] [] [].

Definition append_ast_node (n : ASTNode.t) (p : Patterns) : Patterns :=
  mk_patterns (ast_nodes p ++ [n]) (openmp_directives p)
    (function_declarations p) (variable_declarations p) (includes p)
    (macros p) (parse_errors p).

Definition extend_openmp_directives (ds : list OpenMPDirective.t)
           (p : Patterns) : Patterns :=
  mk_patterns (ast_nodes p) (openmp_directives p ++ ds)
    (function_declarations p) (variable_declarations p) (includes p)
    (macros p) (parse_errors p).

Definition append_function_declaration (f : FuncInfo.t) (p : Patterns)
  : Patterns :=
  mk_patterns (ast_nodes p) (openmp_directives p)
    (function_declarations p ++ [f]) (variable_declarations p) (includes p)
    (macros p) (parse_errors p).

Definition append_variable_declaration (v : VarInfo.t) (p : Patterns)
  : Patterns :=
  mk_patterns (ast_nodes p) (openmp_directives p)
    (function_declarations p) (variable_declarations p ++ [v]) (includes p)
    (macros p) (parse_errors p).

Definition append_include (i : IncludeInfo.t) (p : Patterns) : Patterns :=
  mk_patterns (ast_nodes p) (openmp_directives p)
    (function_declarations p) (variable_declarations p) (includes p ++ [i])
    (macros p) (parse_errors p).

Definition append_parse_error (e : ParseError.t) (p : Patterns) : Patterns :=
  mk_patterns (ast_nodes p) (openmp_directives p)
    (function_declarations p) (variable_declarations p) (includes p)
    (macros p) (parse_errors p ++ [e]).

Definition _classify_diagnostic_type (message : string) : string :=
  let message_lower := lower message in
  if (str_in "expected" message_lower
      && (str_in "(" message_lower || str_in ")" message_lower))%bool
  then "syntax_error"
  else if (str_in "openmp" message_lower
           && str_in "clause" message_lower)%bool
  then "openmp_clause_error"
  else if (str_in "directive" message_lower
           && str_in "cannot contain" message_lower)%bool
  then "directive_constraint_error"
  else if str_in "does not refer to a value" message_lower
  then "reference_error"
  else if (str_in "undeclared" message_lower
           || str_in "not declared" message_lower)%bool
  then "declaration_error"
  else if (str_in "semantic" message_lower
           || str_in "type" message_lower)%bool
  then "semantic_error"
  else "other_error".

(** The f-string [line:column] of a location. *)
Definition location_str (l : Clang.SourceLocation) : string :=
  str_of_int (Clang.line l) ++ ":" ++ str_of_int (Clang.column l).

Definition _contains_openmp (node : Clang.CursorData) : bool :=
  if (negb (is_empty (Clang.spelling node))
      && str_in "omp" (lower (Clang.spelling node)))%bool
  then true
  else existsb (fun token => str_in "omp" (lower (Clang.token_spelling token)))
               (Clang.tokens node).

(** [_parse_openmp_directive]: the directive of a pragma text rebuilt
    from tokens, located at [location]. *)
Definition _parse_openmp_directive (pragma_text : string)
           (location : Clang.SourceLocation) : option OpenMPDirective.t :=
  let parts := split pragma_text in
  if ((len parts <? 3)
      || negb (String.eqb (nth 1 parts "") "pragma")
      || negb (String.eqb (nth 2 parts "") "omp"))%bool
  then None
  else
    let directive_name := if 3 <? len parts then nth 3 parts "" else "" in
    let clauses := if 4 <? len parts then skipn 4 parts else [] in
    Some (OpenMPDirective.mk directive_name clauses
            (Clang.line location) (Clang.column location) pragma_text).

(** The spellings of the tokens from [token] on that share its line. *)
Fixpoint same_line_spellings (line : Z) (tokens : list Clang.Token)
  : list string :=
  match tokens with
  | [] => []
  | t :: ts =>
      if Clang.line (Clang.token_location t) =? line
      then Clang.token_spelling t :: same_line_spellings line ts
      else []
  end.

(** The loop of [_extract_openmp_pragmas] over the token positions. *)
Fixpoint pragmas_of_tokens (tokens : list Clang.Token)
  : list OpenMPDirective.t :=
  match tokens with
  | [] => []
  | token :: later =>
      let found :=
        match later with
        | t1 :: t2 :: _ =>
            if (String.eqb (Clang.token_spelling token) "#"
                && String.eqb (Clang.token_spelling t1) "pragma"
                && String.eqb (Clang.token_spelling t2) "omp")%bool
            then
              let pragma_tokens :=
                same_line_spellings
                  (Clang.line (Clang.token_location token)) tokens in
              let pragma_text := join " " pragma_tokens in
              match _parse_openmp_directive
                      pragma_text (Clang.token_location token) with
              | Some directive => [directive]
              | None => []
              end
            else []
        | _ => []
        end in
      found ++ pragmas_of_tokens later
  end.

Definition _extract_openmp_pragmas (node : Clang.CursorData)
           (patterns : Patterns) : Patterns :=
  extend_openmp_directives (pragmas_of_tokens (Clang.tokens node)) patterns.

(** The parameter loop of [_extract_function_declaration]; [None] when
    reading the kind of a child raises. *)
Fixpoint parameters_of (children : list Clang.Cursor)
  : option (list ParamInfo.t) :=
  match children with
  | [] => Some []
  | child :: more =>
      match Clang.kind (Clang.data_of child) with
      | None => None
      | Some k =>
          match parameters_of more with
          | None => None
          | Some ps =>
              match k with
              | Clang.PARM_DECL =>
                  Some (ParamInfo.mk
                          (Clang.spelling (Clang.data_of child))
                          (Clang.type_spelling (Clang.data_of child)) :: ps)
              | _ => Some ps
              end
          end
      end
  end.

Definition _extract_function_declaration (node : Clang.Cursor)
           (patterns : Patterns) : option Patterns :=
  let d := Clang.data_of node in
  match parameters_of (Clang.get_children node) with
  | None => None
  | Some parameters =>
      Some (append_function_declaration
              (FuncInfo.mk
                 (Clang.spelling d)
                 (location_str (Clang.location d))
                 (match Clang.result_type d with
                  | Some t => t | None => "" end)
                 parameters
                 (_contains_openmp d))
              patterns)
  end.

Definition _extract_variable_declaration (node : Clang.CursorData)
           (patterns : Patterns) : option Patterns :=
  match Clang.semantic_parent node with
  | None => None
  | Some parent_kind =>
      Some (append_variable_declaration
              (VarInfo.mk
                 (Clang.spelling node)
                 (Clang.type_spelling node)
                 (location_str (Clang.location node))
                 (match parent_kind with
                  | Clang.TRANSLATION_UNIT => true | _ => false end))
              patterns)
  end.

Definition _extract_include (node : Clang.CursorData) (patterns : Patterns)
  : Patterns :=
  append_include
    (IncludeInfo.mk
       (Clang.spelling node)
       (location_str (Clang.location node))
       (match Clang.file (Clang.location node) with
        | Some file_name => startswith "/usr/" file_name
        | None => false
        end))
    patterns.

(** [_traverse_ast].  An exception raised while a node is inspected ends
    the work on that node: what was appended before stays, its children
    are not visited, and the caller goes on with the next sibling. *)
Fixpoint _traverse_ast (node : Clang.Cursor) (patterns : Patterns)
         (depth : Z) {struct node} : Patterns :=
  if 100 <? depth then patterns
  else
    match node with
    | Clang.Node d children =>
        match Clang.kind d with
        | None => patterns
        | Some k =>
            let node_info :=
              ASTNode.mk (Clang.kind_str k) (Clang.spelling d)
                (location_str (Clang.location d))
                (len children) (_contains_openmp d) in
            let patterns := append_ast_node node_info patterns in
            let specific :=
              match k with
              | Clang.FUNCTION_DECL =>
                  _extract_function_declaration node patterns
              | Clang.VAR_DECL => _extract_variable_declaration d patterns
              | Clang.INCLUSION_DIRECTIVE =>
                  Some (_extract_include d patterns)
              | _ => Some patterns
              end in
            match specific with
            | None => patterns
            | Some patterns =>
                let patterns := _extract_openmp_pragmas d patterns in
                (fix visit (cs : list Clang.Cursor) (p : Patterns)
                   : Patterns :=
                   match cs with
                   | [] => p
                   | child :: cs' =>
                       visit cs' (_traverse_ast child p (depth + 1))
                   end) children patterns
            end
        end
    end.

Definition parse_error_of_diagnostic (diag : Clang.Diagnostic)
  : ParseError.t :=
  ParseError.mk
    (_classify_diagnostic_type (Clang.diag_spelling diag))
    (Clang.diag_spelling diag)
    (match Clang.diag_location diag with
     | Some l => Clang.line l | None => 0 end)
    (match Clang.diag_location diag with
     | Some l => Clang.column l | None => 0 end)
    (str_of_int (Clang.diag_severity diag)).

(** [extract_patterns], given the outcome of the parse; [None] is the
    empty dictionary the method returns when the parse fails. *)
Definition extract_patterns (tu : Clang.ParseResult) : option Patterns :=
  match tu with
  | Clang.ParseRaises => None
  | Clang.TranslationUnit diagnostics cursor =>
      let patterns :=
        fold_left
          (fun p diag => append_parse_error (parse_error_of_diagnostic diag) p)
          diagnostics empty_patterns in
      Some (_traverse_ast cursor patterns 0)
  end.

End ASTExtractor.

(* ================================================================== *)
(** * The interpreter and the file system, as far as a run depends on them *)
(* ================================================================== *)

(** The order in which the interpreter iterates over a [set] of strings.
    It depends on the string hashes of the process; all the language
    promises is that every element comes once.  The argument is the list of
    the distinct elements in insertion order. *)
Record SetOrder : Type := mk_set_order
  { set_to_list : list string -> list string;
    set_to_list_perm : forall l, Permutation (set_to_list l) l }.

(** A [set] under construction. *)
Module PySet.
Definition mem (x : string) (s : list string) : bool :=
  existsb (String.eqb x) s.
Definition add (x : string) (s : list string) : list string :=
  if mem x s then s else s ++ [x].
Definition update (s : list string) (xs : list string) : list string :=
  fold_left (fun acc x => add x acc) xs s.
Definition of_list (xs : list string) : list string := update [] xs.
End PySet.

(** A [dict] with integer keys, in insertion order. *)
Module PyDict.
Fixpoint get {V : Type} (k : Z) (d : list (Z * V)) : option V :=
  match d with
  | [] => None
  | (k', v) :: d' => if k' =? k then Some v else get k d'
  end.
Definition contains {V : Type} (k : Z) (d : list (Z * V)) : bool :=
  match get k d with Some _ => true | None => false end.
(** [d[k] = v]: a present key keeps its place. *)
Fixpoint set {V : Type} (k : Z) (v : V) (d : list (Z * V))
  : list (Z * V) :=
  match d with
  | [] => [(k, v)]
  | (k', v') :: d' =>
      if k' =? k then (k', v) :: d' else (k', v') :: set k v d'
  end.
End PyDict.

Module Path.
(** A [pathlib.Path]: [str(path)], [path.name] and [path.suffix]. *)
Record t : Type := mk { str : string; name : string; suffix : string }.
End Path.

(** What the file system holds at a path when the file is analysed:
    nothing, a file that cannot be read, or a file with its decoded text
    and its size in bytes. *)
Inductive FileState : Type :=
| Missing
| Unreadable
| Readable (content : string) (st_size : Z).

(* ================================================================== *)
(** * [src/core/file_processor.py] *)
(* ================================================================== *)

Module FileProcessor.
Import PyStr Re.

(** ** The patterns *)

Definition letters : list (ascii * ascii) :=
  [("a", "z"); ("A", "Z")]%char.

(* \s*#pragma\s+omp\s+(.+) *)
Definition pragma_re : regex :=
  seq [star CSpace; Lit "#pragma"; plus CSpace; Lit "omp"; plus CSpace;
       Grp (plus CAny)].

(* \{\{.*?\}\} *)
Definition regex_fragment_re : regex :=
  seq [Lit "{{"; star_lazy CAny; Lit "}}"].

(* #pragma\s+omp\s+\w+.*?(?=\n) *)
Definition trigger_directive_re : regex :=
  seq [Lit "#pragma"; plus CSpace; Lit "omp"; plus CSpace; plus CWord;
       star_lazy CAny; Ahead (Lit nl)].

Definition dquote : ascii := chr 34.
Definition dquote_str : string := String dquote EmptyString.

(* expected-error.*?Q([^Q]+)Q   where Q is the double quote *)
Definition trigger_expected_error_re : regex :=
  seq [Lit "expected-error"; star_lazy CAny; Lit dquote_str;
       Grp (plus (CNot dquote)); Lit dquote_str].

(* expected-warning.*?Q([^Q]+)Q *)
Definition trigger_expected_warning_re : regex :=
  seq [Lit "expected-warning"; star_lazy CAny; Lit dquote_str;
       Grp (plus (CNot dquote)); Lit dquote_str].

(* // ERROR:.* *)
Definition trigger_error_comment_re : regex :=
  seq [Lit "// ERROR:"; star CAny].

(* // FIXME:.* *)
Definition trigger_fixme_comment_re : regex :=
  seq [Lit "// FIXME:"; star CAny].

(* //\s*RUN:\s*(.+) *)
Definition run_pattern : regex :=
  seq [Lit "//"; star CSpace; Lit "RUN:"; star CSpace; Grp (plus CAny)].

(* (-[a-zA-Z0-9-]+) *)
Definition flag_re : regex :=
  Grp (seq [Lit "-";
            plus (CRanges (letters ++ [("0", "9"); ("-", "-")]%char))]).

(* -fopenmp-version=(\d+) *)
Definition version_flag_re : regex :=
  seq [Lit "-fopenmp-version="; Grp (plus CDigit)].

(* OpenMP\s+(\d+\.\d+) *)
Definition version_comment_re : regex :=
  seq [Lit "OpenMP"; plus CSpace;
       Grp (seq [plus CDigit; Lit "."; plus CDigit])].

(* //\s*CHECK[^:]*:\s*(.+) *)
Definition check_pattern : regex :=
  seq [Lit "//"; star CSpace; Lit "CHECK"; star (CNot ":"%char); Lit ":";
       star CSpace; Grp (plus CAny)].

(* //\s*expected-error[^:]*:\s*(.+) *)
Definition error_pattern : regex :=
  seq [Lit "//"; star CSpace; Lit "expected-error"; star (CNot ":"%char);
       Lit ":"; star CSpace; Grp (plus CAny)].

(* //\s*expected-warning[^:]*:\s*(.+) *)
Definition warning_pattern : regex :=
  seq [Lit "//"; star CSpace; Lit "expected-warning"; star (CNot ":"%char);
       Lit ":"; star CSpace; Grp (plus CAny)].

(* @(__kmpc_[a-zA-Z_]+|omp_[a-zA-Z_]+) *)
Definition runtime_re : regex :=
  let ident := plus (CRanges (letters ++ [("_", "_")]%char)) in
  seq [Lit "@";
       Grp (Alt (seq [Lit "__kmpc_"; ident]) (seq [Lit "omp_"; ident]))].

(** [m.group(1)]. *)
Definition group_1 (m : match_obj) : string :=
  match group1 m with Some g => g | None => EmptyString end.

(** ** Error patterns *)

Definition _classify_expected_error (expected_error : string) : string :=
  let error_lower := lower expected_error in
  if str_in "clause" error_lower then "clause_error"
  else if str_in "directive" error_lower then "directive_error"
  else if (str_in "syntax" error_lower
           || str_in "expected" error_lower)%bool then "syntax_error"
  else if (str_in "semantic" error_lower
           || str_in "type" error_lower)%bool then "semantic_error"
  else if (str_in "undeclared" error_lower
           || str_in "undefined" error_lower)%bool then "declaration_error"
  else "general_error".

Definition _extract_regex_pattern (expected_error : string)
  : option string :=
  match re_search false regex_fragment_re expected_error with
  | Some regex_match => Some (group0 regex_match)
  | None => None
  end.

Definition trigger_patterns : list (regex * string) :=
  [ (trigger_directive_re, "openmp_directive");
    (trigger_expected_error_re, "expected_error");
    (trigger_expected_warning_re, "expected_warning");
    (trigger_error_comment_re, "error_comment");
    (trigger_fixme_comment_re, "fixme_comment") ].

Definition _extract_error_triggers (content : string) : list string :=
  flat_map
    (fun pt : regex * string =>
       let (pattern, trigger_type) := pt in
       map (fun m => (trigger_type ++ ": " ++ m)%string)
           (findall true pattern content))
    trigger_patterns.

(** The [error_patterns] dictionary; ['error_types'] is a set. *)
Module ErrorPatterns.
Record t : Type := mk
  { parse_errors : list ParseError.t;
    expected_patterns : list ExpectedErrorPattern.t;
    trigger_mechanisms : list string;
    error_types : list string }.
End ErrorPatterns.

Definition _categorize_error_patterns (parse_errors : list ParseError.t)
           (expected_errors : list string) (content : string)
  : ErrorPatterns.t :=
  let error_types :=
    fold_left (fun s error => PySet.add (ParseError.error_type error) s)
              parse_errors [] in
  let lines := splitlines content in
  let expected_patterns :=
    flat_map
      (fun il : Z * string =>
         let (i, line) := il in
         flat_map
           (fun expected =>
              if str_in expected line
              then [ExpectedErrorPattern.mk
                      expected
                      (_classify_expected_error expected)
                      (_extract_regex_pattern expected)
                      i]
              else [])
           expected_errors)
      (enumerate 1 lines) in
  ErrorPatterns.mk parse_errors expected_patterns
    (_extract_error_triggers content) error_types.

(** ** Expected against actual errors *)

Module MatchedError.
Record t : Type := mk
  { line : Z; expected : string; actual : list string }.
End MatchedError.

(** The [mapping] dictionary of [_map_expected_to_actual_errors]. *)
Module ErrorMapping.
Record t : Type := mk
  { total_expected : Z;
    total_actual : Z;
    matched_errors : list MatchedError.t;
    unmatched_expected : list string;
    unexpected_errors : list string }.
End ErrorMapping.

(** The dict comprehension [{p.line_number: p for p in expected_patterns}]. *)
Definition expected_by_line_of (expected_patterns : list ExpectedErrorPattern.t)
  : list (Z * ExpectedErrorPattern.t) :=
  fold_left
    (fun d p => PyDict.set (ExpectedErrorPattern.line_number p) p d)
    expected_patterns [].

(** The body of the loop that groups the parse errors by line. *)
Definition group_error (actual_by_line : list (Z * list ParseError.t))
           (error : ParseError.t) : list (Z * list ParseError.t) :=
  let line := ParseError.line_number error in
  let actual_by_line :=
    if PyDict.contains line actual_by_line then actual_by_line
    else PyDict.set line [] actual_by_line in
  match PyDict.get line actual_by_line with
  | Some errors => PyDict.set line (errors ++ [error]) actual_by_line
  | None => actual_by_line
  end.

Definition actual_by_line_of (parse_errors : list ParseError.t)
  : list (Z * list ParseError.t) :=
  fold_left group_error parse_errors [].

(** The body of the loop "Find matches": the lists [matched_errors] and
    [unmatched_expected] after one more item of [expected_by_line]. *)
Definition find_match (actual_by_line : list (Z * list ParseError.t))
           (lists : list MatchedError.t * list string)
           (item : Z * ExpectedErrorPattern.t)
  : list MatchedError.t * list string :=
  let (matched_errors, unmatched_expected) := lists in
  let (line, expected) := item in
  match PyDict.get line actual_by_line with
  | Some errors =>
      (matched_errors ++
         [MatchedError.mk line (ExpectedErrorPattern.pattern expected)
            (map ParseError.message errors)],
       unmatched_expected)
  | None =>
      (matched_errors,
       unmatched_expected ++ [ExpectedErrorPattern.pattern expected])
  end.

(** The body of the loop "Find unexpected errors". *)
Definition find_unexpected
           (expected_by_line : list (Z * ExpectedErrorPattern.t))
           (unexpected_errors : list string)
           (item : Z * list ParseError.t) : list string :=
  let (line, errors) := item in
  if PyDict.contains line expected_by_line then unexpected_errors
  else unexpected_errors ++ map ParseError.message errors.

Definition _map_expected_to_actual_errors
           (expected_patterns : list ExpectedErrorPattern.t)
           (parse_errors : list ParseError.t) : ErrorMapping.t :=
  let expected_by_line := expected_by_line_of expected_patterns in
  let actual_by_line := actual_by_line_of parse_errors in
  let lists :=
    fold_left (find_match actual_by_line) expected_by_line ([], []) in
  let unexpected_errors :=
    fold_left (find_unexpected expected_by_line) actual_by_line [] in
  ErrorMapping.mk (len expected_patterns) (len parse_errors)
    (fst lists) (snd lists) unexpected_errors.

(** The [mapping] as the plain dictionary it is. *)
Definition mapping_dict (m : ErrorMapping.t) : pyval :=
  PDict
    [ ("total_expected", PInt (ErrorMapping.total_expected m));
      ("total_actual", PInt (ErrorMapping.total_actual m));
      ("matched_errors",
        PList (map (fun e =>
                      PDict [ ("line", PInt (MatchedError.line e));
                              ("expected", PStr (MatchedError.expected e));
                              ("actual",
                                PList (map PStr (MatchedError.actual e))) ])
                   (ErrorMapping.matched_errors m)));
      ("unmatched_expected",
        PList (map PStr (ErrorMapping.unmatched_expected m)));
      ("unexpected_errors",
        PList (map PStr (ErrorMapping.unexpected_errors m))) ].

Definition openmp_constructs : list string :=
  ["parallel"; "for"; "sections"; "single"; "task"; "target";
   "teams"; "distribute"; "simd"; "atomic"; "critical"; "barrier"].

Definition openmp_clauses : list string :=
  ["private"; "shared"; "reduction"; "schedule"; "collapse";
   "nowait"; "ordered"; "default"; "copyin"; "copyprivate"].

Definition _identify_error_coverage_areas (rt : SetOrder) (content : string)
  : list string :=
  let content_lower := lower content in
  let coverage_areas :=
    fold_left
      (fun s construct =>
         if str_in construct content_lower then PySet.add construct s else s)
      openmp_constructs [] in
  let coverage_areas :=
    fold_left
      (fun s clause =>
         if str_in clause content_lower
         then PySet.add (clause ++ "_clause")%string s else s)
      openmp_clauses coverage_areas in
  set_to_list rt coverage_areas.

Definition negative_indicators : list string :=
  ["messages"; "error"; "warn"; "diag"; "negative";
   "invalid"; "bad"; "fail"; "wrong"].

Definition _is_negative_test_case (file_path : Path.t) (content : string)
  : bool :=
  let filename := lower (Path.name file_path) in
  if existsb (fun indicator => str_in indicator filename) negative_indicators
  then true
  else if (str_in "expected-error" content
           || str_in "expected-warning" content)%bool
  then true
  else false.

Definition _extract_negative_test_characteristics (rt : SetOrder)
           (file_path : Path.t) (content : string)
           (error_patterns : ErrorPatterns.t)
  : NegativeTestCharacteristics.t :=
  let is_negative := _is_negative_test_case file_path content in
  let error_trigger_count :=
    len (ErrorPatterns.trigger_mechanisms error_patterns) in
  if is_negative then
    let filename := lower (Path.name file_path) in
    let error_testing_strategy :=
      if str_in "messages" filename then "error_message_validation"
      else if str_in "syntax" filename then "syntax_validation"
      else if str_in "semantic" filename then "semantic_validation"
      else "general_error_testing" in
    NegativeTestCharacteristics.mk
      is_negative
      (Some error_testing_strategy)
      (mapping_dict
         (_map_expected_to_actual_errors
            (ErrorPatterns.expected_patterns error_patterns)
            (ErrorPatterns.parse_errors error_patterns)))
      (_identify_error_coverage_areas rt content)
      error_trigger_count
  else
    NegativeTestCharacteristics.mk
      is_negative None (PDict []) [] error_trigger_count.

(** ** Reading the file *)

(** [_read_file_content]: [None] when reading raises. *)
Definition _read_file_content (st : FileState) : option string :=
  match st with
  | Readable content _ => Some content
  | _ => None
  end.

Module FileInfo.
Record t : Type := mk { size : Z; line_count : Z; extension : string }.
End FileInfo.

(** [_extract_file_info]; [None] when [stat()] raises. *)
Definition _extract_file_info (file_path : Path.t) (st : FileState)
           (content : string) : option FileInfo.t :=
  match st with
  | Readable _ st_size =>
      Some (FileInfo.mk st_size (len (splitlines content))
              (Path.suffix file_path))
  | _ => None
  end.

(** ** Test structure *)

Definition _extract_run_commands (content : string) : list string :=
  let matches := findall false run_pattern content in
  map strip matches.

Definition _extract_compiler_flags (rt : SetOrder)
           (run_commands : list string) : list string :=
  let flags :=
    fold_left
      (fun flags cmd =>
         let flag_matches := findall false flag_re cmd in
         PySet.update flags flag_matches)
      run_commands [] in
  set_to_list rt flags.

Definition _determine_compiler_stage (run_commands : list string)
           (content : string) : CompilerStage :=
  let run_text := lower (join " " run_commands) in
  if (str_in "-fsyntax-only" run_text || str_in "-verify" run_text)%bool
  then SEMA
  else if (str_in "-ast-print" run_text || str_in "-ast-dump" run_text)%bool
  then AST_PRINT
  else if (str_in "-emit-llvm" run_text || str_in "filecheck" run_text)%bool
  then CODEGEN
  else if existsb (fun cmd => str_in "parse" (lower cmd)) run_commands
  then PARSE
  else UNKNOWN.

(** The body of the loop of [_extract_openmp_directives] for one line:
    the directive appended for it, if any. *)
Definition directive_of_line (line_num : Z) (line : string)
  : option OpenMPDirective.t :=
  match re_match false pragma_re line with
  | Some pragma_match =>
      let directive_text := strip (group_1 pragma_match) in
      let parts := split directive_text in
      let directive_name :=
        match parts with [] => "" | _ => nth 0 parts "" end in
      let clauses := if 1 <? len parts then skipn 1 parts else [] in
      Some (OpenMPDirective.mk directive_name clauses line_num
              (find "#pragma" line) (strip line))
  | None => None
  end.

Definition append_directive (directives : list OpenMPDirective.t)
           (numbered_line : Z * string) : list OpenMPDirective.t :=
  let (line_num, line) := numbered_line in
  match directive_of_line line_num line with
  | Some directive => directives ++ [directive]
  | None => directives
  end.

Definition _extract_openmp_directives (content : string)
  : list OpenMPDirective.t :=
  let lines := splitlines content in
  fold_left append_directive (enumerate 1 lines) [].

Fixpoint first_version_flag (run_commands : list string) : option string :=
  match run_commands with
  | [] => None
  | cmd :: more =>
      match re_search false version_flag_re cmd with
      | Some version_match => Some (group_1 version_match)
      | None => first_version_flag more
      end
  end.

Definition _extract_openmp_version (content : string)
           (run_commands : list string) : option string :=
  match first_version_flag run_commands with
  | Some v => Some v
  | None =>
      match re_search true version_comment_re content with
      | Some version_match => Some (group_1 version_match)
      | None => None
      end
  end.

Definition _extract_check_patterns (content : string) : list string :=
  map strip (findall false check_pattern content).

Definition _extract_expected_errors (content : string) : list string :=
  map strip (findall false error_pattern content).

Definition _extract_expected_warnings (content : string) : list string :=
  map strip (findall false warning_pattern content).

Definition ir_keywords : list string :=
  ["call"; "invoke"; "alloca"; "load"; "store"; "br"; "ret";
   "define"; "declare"; "getelementptr"; "bitcast"; "icmp"].

Definition _extract_ir_patterns (check_patterns : list string)
  : list string :=
  filter
    (fun pattern =>
       existsb (fun keyword => str_in keyword (lower pattern)) ir_keywords)
    check_patterns.

Definition _extract_runtime_calls (rt : SetOrder)
           (check_patterns : list string) : list string :=
  let runtime_calls :=
    flat_map
      (fun pattern =>
         match re_search false runtime_re pattern with
         | Some runtime_match => [group_1 runtime_match]
         | None => []
         end)
      check_patterns in
  set_to_list rt (PySet.of_list runtime_calls).

(** ** Category and score *)

Definition _categorize_test (filename : string)
           (directives : list OpenMPDirective.t) (content : string)
  : TestCategory :=
  let filename_lower := lower filename in
  let content_lower := lower content in
  let directive_names :=
    map (fun d => lower (OpenMPDirective.name d)) directives in
  let name_among (names : list string) (name : string) : bool :=
    existsb (String.eqb name) names in
  if (str_in "parallel" filename_lower
      || existsb (fun name => str_in "parallel" name) directive_names
      || str_in "parallel" content_lower)%bool
  then PARALLEL
  else if (str_in "for" filename_lower || str_in "sections" filename_lower
           || existsb (name_among ["for"; "sections"; "single"])
                      directive_names)%bool
  then WORKSHARING
  else if (str_in "target" filename_lower
           || existsb (fun name => str_in "target" name) directive_names)%bool
  then TARGET
  else if (str_in "atomic" filename_lower || str_in "critical" filename_lower
           || existsb (name_among ["atomic"; "critical"; "barrier"])
                      directive_names)%bool
  then SYNCHRONIZATION
  else if (str_in "simd" filename_lower
           || existsb (fun name => str_in "simd" name) directive_names)%bool
  then SIMD
  else if (str_in "task" filename_lower
           || existsb (fun name => str_in "task" name) directive_names)%bool
  then TASK
  else GENERAL.

(** [sum(len(d.clauses) for d in directives)]. *)
Definition sum_clauses (directives : list OpenMPDirective.t) : Z :=
  fold_left (fun acc d => acc + len (OpenMPDirective.clauses d))
            directives 0.

(** [ast_patterns.get('function_declarations', [])] and its siblings, on
    the result of [extract_patterns]. *)
Definition get_function_declarations (ast_patterns : option ASTExtractor.Patterns)
  : list ASTExtractor.FuncInfo.t :=
  match ast_patterns with
  | Some p => ASTExtractor.function_declarations p | None => [] end.
Definition get_variable_declarations (ast_patterns : option ASTExtractor.Patterns)
  : list ASTExtractor.VarInfo.t :=
  match ast_patterns with
  | Some p => ASTExtractor.variable_declarations p | None => [] end.
Definition get_ast_nodes (ast_patterns : option ASTExtractor.Patterns)
  : list ASTNode.t :=
  match ast_patterns with
  | Some p => ASTExtractor.ast_nodes p | None => [] end.
Definition get_parse_errors (ast_patterns : option ASTExtractor.Patterns)
  : list ParseError.t :=
  match ast_patterns with
  | Some p => ASTExtractor.parse_errors p | None => [] end.

Definition _calculate_complexity_score
           (directives : list OpenMPDirective.t)
           (check_patterns : list string)
           (expected_errors : list string)
           (ast_patterns : option ASTExtractor.Patterns)
           (error_patterns : ErrorPatterns.t) : Z :=
  let score := 0 in
  (* Directive complexity *)
  let score := score + len directives * 2 in
  (* Clause complexity *)
  let total_clauses := sum_clauses directives in
  let score := score + total_clauses in
  (* Verification complexity *)
  let score := score + len check_patterns in
  let score := score + len expected_errors * 2 in
  (* AST complexity *)
  let score := score + len (get_function_declarations ast_patterns) / 2 in
  (* Error pattern complexity *)
  let score := score + len (ErrorPatterns.parse_errors error_patterns) in
  let score := score + len (ErrorPatterns.error_types error_patterns) in
  (* Cap at 10 *)
  Z.min score 10.

(** ** [str] of the declaration dictionaries *)

Section DictStr.
(** [repr] of a string is the interpreter's. *)
Variable repr_str : string -> string.

Definition repr_bool (b : bool) : string :=
  if b then "True" else "False".

Definition repr_list (items : list string) : string :=
  ("[" ++ join ", " items ++ "]")%string.

Definition str_of_param (p : ASTExtractor.ParamInfo.t) : string :=
  ("{'name': " ++ repr_str (ASTExtractor.ParamInfo.name p)
   ++ ", 'type': " ++ repr_str (ASTExtractor.ParamInfo.type p)
   ++ "}")%string.

Definition str_of_function (f : ASTExtractor.FuncInfo.t) : string :=
  ("{'name': " ++ repr_str (ASTExtractor.FuncInfo.name f)
   ++ ", 'location': " ++ repr_str (ASTExtractor.FuncInfo.location f)
   ++ ", 'return_type': " ++ repr_str (ASTExtractor.FuncInfo.return_type f)
   ++ ", 'parameters': "
   ++ repr_list (map str_of_param (ASTExtractor.FuncInfo.parameters f))
   ++ ", 'has_openmp': " ++ repr_bool (ASTExtractor.FuncInfo.has_openmp f)
   ++ "}")%string.

Definition str_of_variable (v : ASTExtractor.VarInfo.t) : string :=
  ("{'name': " ++ repr_str (ASTExtractor.VarInfo.name v)
   ++ ", 'type': " ++ repr_str (ASTExtractor.VarInfo.type v)
   ++ ", 'location': " ++ repr_str (ASTExtractor.VarInfo.location v)
   ++ ", 'is_global': " ++ repr_bool (ASTExtractor.VarInfo.is_global v)
   ++ "}")%string.

(** ** The pipeline *)

(** [process_test_file] on the path [file_path], whose file is in state
    [st] and whose parse has the outcome [tu]; [now] is
    [datetime.now().isoformat()] and [rt] the set order of the run. *)
Definition process_test_file (rt : SetOrder) (st : FileState)
           (tu : Clang.ParseResult) (now : string) (file_path : Path.t)
  : option TestPattern.t :=
  match st with
  | Missing => None                       (* not file_path.exists() *)
  | _ =>
      match _read_file_content st with
      | None => None
      | Some content =>
          if is_empty content then None   (* not content *)
          else
            match _extract_file_info file_path st content with
            | None => None
            | Some file_info =>
                let run_commands := _extract_run_commands content in
                let compiler_flags :=
                  _extract_compiler_flags rt run_commands in
                let compiler_stage :=
                  _determine_compiler_stage run_commands content in
                let openmp_directives :=
                  _extract_openmp_directives content in
                let openmp_version :=
                  _extract_openmp_version content run_commands in
                let check_patterns := _extract_check_patterns content in
                let expected_errors := _extract_expected_errors content in
                let expected_warnings :=
                  _extract_expected_warnings content in
                let ast_patterns := ASTExtractor.extract_patterns tu in
                let error_patterns :=
                  _categorize_error_patterns
                    (get_parse_errors ast_patterns) expected_errors
                    content in
                let negative_test_info :=
                  _extract_negative_test_characteristics
                    rt file_path content error_patterns in
                let ir_patterns := _extract_ir_patterns check_patterns in
                let runtime_calls :=
                  _extract_runtime_calls rt check_patterns in
                let test_category :=
                  _categorize_test (Path.name file_path)
                    openmp_directives content in
                let complexity_score :=
                  _calculate_complexity_score
                    openmp_directives check_patterns expected_errors
                    ast_patterns error_patterns in
                Some (TestPattern.mk
                        (Path.str file_path)
                        (Path.name file_path)
                        (FileInfo.size file_info)
                        compiler_stage
                        run_commands
                        compiler_flags
                        openmp_directives
                        openmp_version
                        test_category
                        check_patterns
                        expected_errors
                        expected_warnings
                        (get_ast_nodes ast_patterns)
                        (map str_of_function
                             (get_function_declarations ast_patterns))
                        (map str_of_variable
                             (get_variable_declarations ast_patterns))
                        ir_patterns
                        runtime_calls
                        (ErrorPatterns.parse_errors error_patterns)
                        (ErrorPatterns.expected_patterns error_patterns)
                        negative_test_info
                        (ErrorPatterns.trigger_mechanisms error_patterns)
                        (set_to_list rt
                           (ErrorPatterns.error_types error_patterns))
                        complexity_score
                        (FileInfo.line_count file_info)
                        now)
            end
      end
  end.

End DictStr.

End FileProcessor.

(* ================================================================== *)
(** * Vocabulary of the statements *)
(* ================================================================== *)

Import PyStr Re FileProcessor.

(** [sub] occurs in [s]. *)
Definition Substring (sub s : string) : Prop :=
  exists pre post, s = (pre ++ sub ++ post)%string.

Fixpoint all_chars (p : ascii -> bool) (s : string) : bool :=
  match s with
  | EmptyString => true
  | String c s' => (p c && all_chars p s')%bool
  end.

(** ** Set orders and runs *)

Definition insertion_order : SetOrder :=
  mk_set_order (fun l => l) (fun l => Permutation_refl l).

Definition reverse_order : SetOrder :=
  mk_set_order (@rev string) (fun l => Permutation_sym (Permutation_rev l)).

(** A stand-in for [repr] on strings in the closed examples. *)
Definition quoted (s : string) : string := ("'" ++ s ++ "'")%string.

(** The record with its creation timestamp replaced. *)
Definition with_timestamp (t : string) (r : TestPattern.t) : TestPattern.t :=
  TestPattern.mk
    (TestPattern.file_path r) (TestPattern.file_name r)
    (TestPattern.file_size r) (TestPattern.compiler_stage r)
    (TestPattern.run_commands r) (TestPattern.compiler_flags r)
    (TestPattern.openmp_directives r) (TestPattern.openmp_version r)
    (TestPattern.test_category r) (TestPattern.check_patterns r)
    (TestPattern.expected_errors r) (TestPattern.expected_warnings r)
    (TestPattern.ast_nodes r) (TestPattern.function_declarations r)
    (TestPattern.variable_declarations r) (TestPattern.ir_patterns r)
    (TestPattern.runtime_calls r) (TestPattern.parse_errors r)
    (TestPattern.expected_error_patterns r)
    (TestPattern.negative_test_characteristics r)
    (TestPattern.error_trigger_mechanisms r) (TestPattern.error_types r)
    (TestPattern.complexity_score r) (TestPattern.line_count r)
    t.

(** The record with the four lists that come from a set emptied. *)
Definition without_set_lists (r : TestPattern.t) : TestPattern.t :=
  let c := TestPattern.negative_test_characteristics r in
  TestPattern.mk
    (TestPattern.file_path r) (TestPattern.file_name r)
    (TestPattern.file_size r) (TestPattern.compiler_stage r)
    (TestPattern.run_commands r) []
    (TestPattern.openmp_directives r) (TestPattern.openmp_version r)
    (TestPattern.test_category r) (TestPattern.check_patterns r)
    (TestPattern.expected_errors r) (TestPattern.expected_warnings r)
    (TestPattern.ast_nodes r) (TestPattern.function_declarations r)
    (TestPattern.variable_declarations r) (TestPattern.ir_patterns r)
    [] (TestPattern.parse_errors r)
    (TestPattern.expected_error_patterns r)
    (NegativeTestCharacteristics.mk
       (NegativeTestCharacteristics.is_negative_test c)
       (NegativeTestCharacteristics.error_testing_strategy c)
       (NegativeTestCharacteristics.expected_vs_actual_errors c)
       []
       (NegativeTestCharacteristics.error_trigger_count c))
    (TestPattern.error_trigger_mechanisms r) []
    (TestPattern.complexity_score r) (TestPattern.line_count r)
    (TestPattern.created_timestamp r).

Definition coverage_areas (r : TestPattern.t) : list string :=
  NegativeTestCharacteristics.error_coverage_areas
    (TestPattern.negative_test_characteristics r).

(** Two outcomes of [process_test_file] that differ at most in the creation
    timestamp and in the order of the four lists that come from a set. *)
Definition agree_up_to_set_order (o1 o2 : option TestPattern.t) : Prop :=
  match o1, o2 with
  | Some r1, Some r2 =>
      without_set_lists (with_timestamp "" r1)
      = without_set_lists (with_timestamp "" r2)
      /\ Permutation (TestPattern.compiler_flags r1)
                     (TestPattern.compiler_flags r2)
      /\ Permutation (TestPattern.runtime_calls r1)
                     (TestPattern.runtime_calls r2)
      /\ Permutation (TestPattern.error_types r1) (TestPattern.error_types r2)
      /\ Permutation (coverage_areas r1) (coverage_areas r2)
  | None, None => True
  | _, _ => False
  end.

(** A test file whose only RUN line passes two flags. *)
Definition two_flags : string := "// RUN: %clang_cc1 -verify -fopenmp %s".

(** ** Directives *)

(** The directives of the lines [lines], numbered from [start]. *)
Definition directive_list_of_line (numbered_line : Z * string)
  : list OpenMPDirective.t :=
  match directive_of_line (fst numbered_line) (snd numbered_line) with
  | Some d => [d]
  | None => []
  end.

Definition directives_of_lines (start : Z) (lines : list string)
  : list OpenMPDirective.t :=
  flat_map directive_list_of_line (enumerate start lines).

(** The directive [d] was read from the line of [lines] that its line
    number names, the first line having the number [start]. *)
Definition read_from (start : Z) (lines : list string) (d : OpenMPDirective.t)
  : Prop :=
  exists line,
    nth_error lines (Z.to_nat (OpenMPDirective.line_number d - start))
    = Some line
    /\ directive_of_line (OpenMPDirective.line_number d) line = Some d.

(** The column of [d] is the index of the [#pragma] that follows the
    leading whitespace of its line. *)
Definition column_of_leading_marker (lines : list string)
           (d : OpenMPDirective.t) : Prop :=
  exists line ws tail,
    nth_error lines (Z.to_nat (OpenMPDirective.line_number d - 1)) = Some line
    /\ line = (ws ++ "#pragma" ++ tail)%string
    /\ all_chars isspace ws = true
    /\ OpenMPDirective.column_number d = Z.of_nat (String.length ws).

(** The token at position [i] of [tokens] is [hash], the [#] of a pragma:
    the two tokens after it are [pragma] and [omp], on its line. *)
Definition pragma_on_line_at (tokens : list Clang.Token) (i : nat)
           (hash : Clang.Token) : Prop :=
  exists t1 t2,
    nth_error tokens i = Some hash
    /\ nth_error tokens (S i) = Some t1
    /\ nth_error tokens (S (S i)) = Some t2
    /\ Clang.token_spelling hash = "#"
    /\ Clang.token_spelling t1 = "pragma"
    /\ Clang.token_spelling t2 = "omp"
    /\ Clang.line (Clang.token_location t1)
       = Clang.line (Clang.token_location hash)
    /\ Clang.line (Clang.token_location t2)
       = Clang.line (Clang.token_location hash).

(** The directive [d] belongs to the pragma whose [#] is the token at
    position [i]: it carries the line and the column at which the parser
    located this token, and its text is rebuilt from the tokens that
    follow from this position on the same line. *)
Definition located_at_its_hash (tokens : list Clang.Token)
           (d : OpenMPDirective.t) (i : nat) : Prop :=
  exists hash,
    pragma_on_line_at tokens i hash
    /\ OpenMPDirective.column_number d
       = Clang.column (Clang.token_location hash)
    /\ OpenMPDirective.line_number d
       = Clang.line (Clang.token_location hash)
    /\ OpenMPDirective.full_text d
       = join " " (ASTExtractor.same_line_spellings
                     (Clang.line (Clang.token_location hash))
                     (skipn i tokens)).

(** [positions] lists the positions of the pragmas of [tokens], each
    once, from left to right. *)
Definition pragma_positions (tokens : list Clang.Token)
           (positions : list nat) : Prop :=
  StronglySorted lt positions
  /\ forall i,
       In i positions <-> exists hash, pragma_on_line_at tokens i hash.

(** The tokens of [#pragma omp parallel] on line 3, as the parser locates
    them. *)
Definition hash_pragma_omp_parallel : list Clang.Token :=
  [ Clang.mk_token "#" (Clang.mk_location 3 1 None);
    Clang.mk_token "pragma" (Clang.mk_location 3 2 None);
    Clang.mk_token "omp" (Clang.mk_location 3 9 None);
    Clang.mk_token "parallel" (Clang.mk_location 3 13 None) ].

(** ** Categories *)

(** How a keyword is compared with a directive name. *)
Inductive NameTest : Type := NameContains | NameEquals.

(** One rule of the categorizer: the keywords looked for in the file name,
    in the directive names and in the body. *)
Record CategoryRule : Type := mk_rule
  { rule_category : TestCategory;
    filename_keywords : list string;
    name_test : NameTest;
    name_keywords : list string;
    content_keywords : list string }.

Definition rule_fires (r : CategoryRule) (filename_lower : string)
           (directive_names : list string) (content_lower : string) : bool :=
  (existsb (fun k => str_in k filename_lower) (filename_keywords r)
   || existsb
        (fun name =>
           existsb (fun k => match name_test r with
                             | NameContains => str_in k name
                             | NameEquals => String.eqb name k
                             end) (name_keywords r))
        directive_names
   || existsb (fun k => str_in k content_lower) (content_keywords r))%bool.

(** The category of the first rule that fires, [GENERAL] if none does. *)
Fixpoint first_match (rules : list CategoryRule) (filename_lower : string)
         (directive_names : list string) (content_lower : string)
  : TestCategory :=
  match rules with
  | [] => GENERAL
  | r :: rules' =>
      if rule_fires r filename_lower directive_names content_lower
      then rule_category r
      else first_match rules' filename_lower directive_names content_lower
  end.

(** The rules of [_categorize_test]. *)
Definition category_rules : list CategoryRule :=
  [ mk_rule PARALLEL ["parallel"] NameContains ["parallel"] ["parallel"];
    mk_rule WORKSHARING ["for"; "sections"]
            NameEquals ["for"; "sections"; "single"] [];
    mk_rule TARGET ["target"] NameContains ["target"] [];
    mk_rule SYNCHRONIZATION ["atomic"; "critical"]
            NameEquals ["atomic"; "critical"; "barrier"] [];
    mk_rule SIMD ["simd"] NameContains ["simd"] [];
    mk_rule TASK ["task"] NameContains ["task"] [] ].

(** The rules as the specification words them: every keyword of a category
    is looked for in all three signals. *)
Definition three_signal_rule (c : TestCategory) (keywords : list string)
  : CategoryRule :=
  mk_rule c keywords NameContains keywords keywords.

Definition three_signal_rules : list CategoryRule :=
  [ three_signal_rule PARALLEL ["parallel"];
    three_signal_rule WORKSHARING ["for"; "sections"; "single"];
    three_signal_rule TARGET ["target"];
    three_signal_rule SYNCHRONIZATION ["atomic"; "critical"; "barrier"];
    three_signal_rule SIMD ["simd"];
    three_signal_rule TASK ["task"] ].

Definition directive_names_lower (directives : list OpenMPDirective.t)
  : list string :=
  map (fun d => lower (OpenMPDirective.name d)) directives.

(** ** Expected against actual errors *)

(** The parse errors located on line [l]. *)
Definition errors_on (l : Z) (es : list ParseError.t) : list ParseError.t :=
  filter (fun e => ParseError.line_number e =? l) es.

Definition has_error_on (es : list ParseError.t) (l : Z) : bool :=
  existsb (fun e => ParseError.line_number e =? l) es.

Definition nonempty {A : Type} (l : list A) : option (list A) :=
  match l with [] => None | _ => Some l end.

(** [p] is the last pattern of [ps] on line [l]. *)
Definition last_on_line (ps : list ExpectedErrorPattern.t) (l : Z)
           (p : ExpectedErrorPattern.t) : Prop :=
  exists before after,
    ps = before ++ p :: after
    /\ ExpectedErrorPattern.line_number p = l
    /\ Forall (fun q => ExpectedErrorPattern.line_number q <> l) after.

(** The entry of [matched_errors] for a retained line. *)
Definition matched_entry (es : list ParseError.t)
           (item : Z * ExpectedErrorPattern.t) : MatchedError.t :=
  MatchedError.mk (fst item) (ExpectedErrorPattern.pattern (snd item))
    (map ParseError.message (errors_on (fst item) es)).

(** Two expected patterns on line 4. *)
Definition two_patterns_one_line : list ExpectedErrorPattern.t :=
  [ ExpectedErrorPattern.mk "first" "general_error" None 4;
    ExpectedErrorPattern.mk "second" "general_error" None 4 ].

(* ================================================================== *)
(** * More of the sources *)
(* ================================================================== *)

(** ** [src/database/models.py]: the kinds of a parse error *)

Inductive ErrorType : Type :=
| SYNTAX_ERROR | OPENMP_CLAUSE_ERROR | DIRECTIVE_CONSTRAINT_ERROR
| REFERENCE_ERROR | DECLARATION_ERROR | SEMANTIC_ERROR | OTHER_ERROR.

(** [ErrorType.X.value]. *)
Definition error_type_value (e : ErrorType) : string :=
  match e with
  | SYNTAX_ERROR => "syntax_error"
  | OPENMP_CLAUSE_ERROR => "openmp_clause_error"
  | DIRECTIVE_CONSTRAINT_ERROR => "directive_constraint_error"
  | REFERENCE_ERROR => "reference_error"
  | DECLARATION_ERROR => "declaration_error"
  | SEMANTIC_ERROR => "semantic_error"
  | OTHER_ERROR => "other_error"
  end.

(** ** [src/utils/file_finder.py] *)

Module OpenMPFileFinder.

Definition openmp_keywords : list string :=
  ["openmp"; "omp"; "fopenmp"; "parallel"; "pragma_omp"].

Definition _matches_openmp_pattern (filename : string) : bool :=
  let filename_lower := lower filename in
  existsb (fun keyword => str_in keyword filename_lower) openmp_keywords.

Definition openmp_indicators : list string :=
  ["#pragma omp"; "-fopenmp"; "openmp"; "__kmpc_"; "omp_"].

(** [_is_openmp_test_file], on the state of the file at the path: [False]
    when reading raises. *)
Definition _is_openmp_test_file (st : FileState) : bool :=
  match st with
  | Readable content _ =>
      let content_lower := lower content in
      existsb (fun indicator => str_in indicator content_lower)
              openmp_indicators
  | _ => false
  end.

End OpenMPFileFinder.

(** ** [src/core/analyzer.py] *)

Module OpenMPPatternAnalyzer.

Section Batch.
(** The persistence collaborator: [store_pattern] changes the database and
    reports success ([False] when storing raises). *)
Variable Database : Type.
Variable store_pattern : Database -> TestPattern.t -> Database * bool.
(** The interpreter, the files and the parser during the batch; [now i] is
    the clock when the [i]-th file is analysed. *)
Variable repr_str : string -> string.
Variable rt : SetOrder.
Variable file_state : Path.t -> FileState.
Variable clang_parse : Path.t -> Clang.ParseResult.
Variable now : Z -> string.

(** The state of the loop of [analyze_all_tests]. *)
Record Tally : Type := mk_tally
  { database : Database;
    successful_count : Z;
    failed_count : Z }.

(** The body of the loop for the [i]-th file. *)
Definition analyze_one (t : Tally) (numbered_file : Z * Path.t) : Tally :=
  let (i, test_file) := numbered_file in
  match process_test_file repr_str rt (file_state test_file)
          (clang_parse test_file) (now i) test_file with
  | Some pattern =>
      let (db, stored) := store_pattern (database t) pattern in
      if stored
      then mk_tally db (successful_count t + 1) (failed_count t)
      else mk_tally db (successful_count t) (failed_count t + 1)
  | None =>
      mk_tally (database t) (successful_count t) (failed_count t + 1)
  end.

Definition analyze_loop (test_files : list Path.t) (db : Database) : Tally :=
  fold_left analyze_one (enumerate 1 test_files) (mk_tally db 0 0).

(** [analyze_all_tests], given the files the finder returned: the database
    afterwards and the returned flag. *)
Definition analyze_all_tests (test_files : list Path.t) (db : Database)
  : Database * bool :=
  match test_files with
  | [] => (db, false)
  | _ =>
      let t := analyze_loop test_files db in
      (database t, 0 <? successful_count t)
  end.

End Batch.

End OpenMPPatternAnalyzer.

(* ================================================================== *)
(** * Vocabulary of the further statements *)
(* ================================================================== *)

(** ** What a pattern matches *)

(** [Matches icase r s s' g g']: the pattern [r] matches a prefix of [s]
    and leaves [s']; [g] and [g'] are the text of group 1 before and
    after. *)
Inductive Matches (icase : bool)
  : regex -> string -> string -> option string -> option string -> Prop :=
| M_Lit (p s s' : string) (g : option string) :
    lit_match icase p s = Some s' ->
    Matches icase (Lit p) s s' g g
| M_Rep (cl : cclass) (min : nat) (greedy : bool) (pre rest : string)
        (g : option string) :
    all_chars (cmatch cl) pre = true ->
    (min <= String.length pre)%nat ->
    Matches icase (Rep cl min greedy) (pre ++ rest) rest g g
| M_Cat (r1 r2 : regex) (s s1 s2 : string) (g g1 g2 : option string) :
    Matches icase r1 s s1 g g1 ->
    Matches icase r2 s1 s2 g1 g2 ->
    Matches icase (Cat r1 r2) s s2 g g2
| M_AltL (r1 r2 : regex) (s s' : string) (g g' : option string) :
    Matches icase r1 s s' g g' ->
    Matches icase (Alt r1 r2) s s' g g'
| M_AltR (r1 r2 : regex) (s s' : string) (g g' : option string) :
    Matches icase r2 s s' g g' ->
    Matches icase (Alt r1 r2) s s' g g'
| M_Grp (r : regex) (s s' : string) (g g' : option string) :
    Matches icase r s s' g g' ->
    Matches icase (Grp r) s s' g
            (Some (take (String.length s - String.length s') s))
| M_Ahead (r : regex) (s s' : string) (g g' : option string) :
    Matches icase r s s' g g' ->
    Matches icase (Ahead r) s s g g'.

(** [s'] is what is left of [s] after some prefix. *)
Definition Suffix (s' s : string) : Prop :=
  exists pre, s = (pre ++ s')%string.

(** ** Flags and runtime calls *)

(** A letter, a digit or a dash: the class of [flag_re]. *)
Definition flag_char (c : ascii) : bool :=
  let n := ord c in
  (between 97 122 n || between 65 90 n || between 48 57 n || Nat.eqb n 45)%bool.

(** A letter or an underscore: the class of [runtime_re]. *)
Definition ident_char (c : ascii) : bool :=
  let n := ord c in
  (between 97 122 n || between 65 90 n || Nat.eqb n 95)%bool.

(** A dash followed by one or more flag characters. *)
Definition well_formed_flag (f : string) : Prop :=
  exists body,
    f = ("-" ++ body)%string /\ body <> "" /\ all_chars flag_char body = true.

(** [__kmpc_] or [omp_] followed by one or more identifier characters. *)
Definition runtime_call_name (c : string) : Prop :=
  exists body,
    (c = ("__kmpc_" ++ body)%string \/ c = ("omp_" ++ body)%string)
    /\ body <> "" /\ all_chars ident_char body = true.

(** ** Compiler stage *)

(** Some RUN command contains [keyword], whatever the case of its
    letters. *)
Definition some_command_has (keyword : string) (run_commands : list string)
  : bool :=
  existsb (fun cmd => str_in keyword (lower cmd)) run_commands.

Definition is_blank (c : ascii) : bool := Ascii.eqb c " ".

(** ** Expected patterns *)

(** The expected pattern [p] binds the text [pattern p], one of
    [expected_errors], to a line of [lines] on which it occurs. *)
Definition bound_to_line (expected_errors lines : list string)
           (p : ExpectedErrorPattern.t) : Prop :=
  exists line,
    nth_error lines (Z.to_nat (ExpectedErrorPattern.line_number p - 1))
    = Some line
    /\ 1 <= ExpectedErrorPattern.line_number p <= len lines
    /\ In (ExpectedErrorPattern.pattern p) expected_errors
    /\ Substring (ExpectedErrorPattern.pattern p) line
    /\ ExpectedErrorPattern.error_category p
       = _classify_expected_error (ExpectedErrorPattern.pattern p)
    /\ ExpectedErrorPattern.regex_pattern p
       = _extract_regex_pattern (ExpectedErrorPattern.pattern p).

(** The expected patterns of one line. *)
Definition patterns_on_line (expected_errors : list string)
           (numbered_line : Z * string) : list ExpectedErrorPattern.t :=
  flat_map
    (fun expected =>
       if str_in expected (snd numbered_line)
       then [ExpectedErrorPattern.mk
               expected
               (_classify_expected_error expected)
               (_extract_regex_pattern expected)
               (fst numbered_line)]
       else [])
    expected_errors.

(** ** The traversal *)

Definition kind_unreadable (c : Clang.Cursor) : bool :=
  match Clang.kind (Clang.data_of c) with None => true | Some _ => false end.

(** Inspecting the node raises after its summary was appended: a function
    declaration with a child whose kind cannot be read, or a variable
    declaration without semantic parent. *)
Definition inspection_raises (node : Clang.Cursor) : bool :=
  match Clang.kind (Clang.data_of node) with
  | Some Clang.FUNCTION_DECL => existsb kind_unreadable (Clang.get_children node)
  | Some Clang.VAR_DECL =>
      match Clang.semantic_parent (Clang.data_of node) with
      | None => true | Some _ => false end
  | _ => false
  end.

(** The summary of a node whose kind is [k]. *)
Definition node_summary (node : Clang.Cursor) (k : Clang.CursorKind)
  : ASTNode.t :=
  ASTNode.mk (Clang.kind_str k) (Clang.spelling (Clang.data_of node))
    (ASTExtractor.location_str (Clang.location (Clang.data_of node)))
    (len (Clang.get_children node))
    (ASTExtractor._contains_openmp (Clang.data_of node)).

(** The summaries of the nodes of a tree in pre-order, [levels] levels
    deep, leaving out the nodes whose kind cannot be read together with
    their subtrees, and the subtrees of the nodes whose inspection
    raises. *)
Fixpoint summaries (levels : nat) (node : Clang.Cursor) : list ASTNode.t :=
  match levels with
  | O => []
  | S levels' =>
      match Clang.kind (Clang.data_of node) with
      | None => []
      | Some k =>
          node_summary node k
            :: (if inspection_raises node then []
                else flat_map (summaries levels') (Clang.get_children node))
      end
  end.

(** The parse errors of a parse: one per diagnostic, none when the parse
    raises. *)
Definition recorded_diagnostics (tu : Clang.ParseResult) : list ParseError.t :=
  match tu with
  | Clang.ParseRaises => []
  | Clang.TranslationUnit diagnostics _ =>
      map ASTExtractor.parse_error_of_diagnostic diagnostics
  end.

(** What the traversal leaves alone and what it appends to the node
    summaries. *)
Definition traversed (levels : nat) (node : Clang.Cursor)
           (p q : ASTExtractor.Patterns) : Prop :=
  ASTExtractor.ast_nodes q = ASTExtractor.ast_nodes p ++ summaries levels node
  /\ ASTExtractor.parse_errors q = ASTExtractor.parse_errors p
  /\ ASTExtractor.macros q = ASTExtractor.macros p.


(** ** Invariants of a record *)

(** The error types of a record and its parse errors, which are those of
    the diagnostics of the parse [tu]. *)
Definition error_types_consistent (tu : Clang.ParseResult) (r : TestPattern.t)
  : Prop :=
  TestPattern.parse_errors r = recorded_diagnostics tu
  /\ Forall (fun e => exists k, ParseError.error_type e = error_type_value k)
            (TestPattern.parse_errors r)
  /\ NoDup (TestPattern.error_types r)
  /\ (forall t, In t (TestPattern.error_types r)
                <-> In t (map ParseError.error_type
                              (TestPattern.parse_errors r))).

Definition error_testing_strategies : list string :=
  ["error_message_validation"; "syntax_validation"; "semantic_validation";
   "general_error_testing"].

(** The negative-test profile of a record agrees with the rest of the
    record. *)
Definition negative_profile_consistent (r : TestPattern.t) : Prop :=
  let c := TestPattern.negative_test_characteristics r in
  NegativeTestCharacteristics.error_trigger_count c
  = len (TestPattern.error_trigger_mechanisms r)
  /\ if NegativeTestCharacteristics.is_negative_test c
     then (exists strategy,
              In strategy error_testing_strategies
              /\ NegativeTestCharacteristics.error_testing_strategy c
                 = Some strategy)
          /\ (exists m,
                 NegativeTestCharacteristics.expected_vs_actual_errors c
                 = mapping_dict m
                 /\ ErrorMapping.total_expected m
                    = len (TestPattern.expected_error_patterns r)
                 /\ ErrorMapping.total_actual m
                    = len (TestPattern.parse_errors r))
     else NegativeTestCharacteristics.error_testing_strategy c = None
          /\ NegativeTestCharacteristics.expected_vs_actual_errors c
             = PDict []
          /\ NegativeTestCharacteristics.error_coverage_areas c = [].

(** The line numbers of a record lie within its line count, and its
    numbers within their ranges. *)
Definition lines_within_record (st : FileState) (r : TestPattern.t) : Prop :=
  (exists content,
      st = Readable content (TestPattern.file_size r)
      /\ content <> ""
      /\ TestPattern.line_count r = len (splitlines content))
  /\ 1 <= TestPattern.line_count r
  /\ Forall (fun d => 1 <= OpenMPDirective.line_number d
                      <= TestPattern.line_count r)
            (TestPattern.openmp_directives r)
  /\ Forall (fun p => 1 <= ExpectedErrorPattern.line_number p
                      <= TestPattern.line_count r)
            (TestPattern.expected_error_patterns r)
  /\ 0 <= TestPattern.complexity_score r <= 10.

(** A negative test of three lines, its path, and a parse of it with one
    diagnostic. *)
Definition sample_content : string :=
  "// RUN: %clang_cc1 -verify -fopenmp %s" ++ nl
  ++ "#pragma omp parallel private(x)" ++ nl
  ++ "int y = x; // expected-error: use of undeclared identifier".

Definition sample_path : Path.t :=
  Path.mk "test/OpenMP/parallel_messages.c" "parallel_messages.c" ".c".

Definition sample_state : FileState := Readable sample_content 130.

Definition sample_unit : Clang.ParseResult :=
  Clang.TranslationUnit
    [Clang.mk_diagnostic "use of undeclared identifier 'x'"
       (Some (Clang.mk_location 3 9 (Some "parallel_messages.c"))) 3]
    (Clang.Node
       (Clang.mk_cursor (Some Clang.TRANSLATION_UNIT) "parallel_messages.c"
          (Clang.mk_location 0 0 None) [] None "" None)
       [Clang.Node
          (Clang.mk_cursor (Some Clang.VAR_DECL) "y"
             (Clang.mk_location 3 5 (Some "parallel_messages.c")) []
             None "int" (Some Clang.TRANSLATION_UNIT))
          []]).

(** ** Tokens of a directive *)

(** No whitespace character occurs in [w]. *)
Definition no_whitespace (w : string) : bool :=
  all_chars (fun c => negb (isspace c)) w.

(** A word: not empty and without whitespace. *)
Definition is_word (w : string) : Prop :=
  w <> "" /\ no_whitespace w = true.

(** The name and the clauses of a directive are words; a directive
    without name has no clause. *)
Definition split_into_words (d : OpenMPDirective.t) : Prop :=
  (OpenMPDirective.name d = "" \/ is_word (OpenMPDirective.name d))
  /\ Forall is_word (OpenMPDirective.clauses d)
  /\ (OpenMPDirective.name d = "" -> OpenMPDirective.clauses d = []).

(** ** Lines the text scan recognises *)

(** The shape of a line the text scan takes for a pragma: whitespace if
    any, [#pragma], whitespace, [omp], whitespace, and one more character
    that is no line feed. *)
Definition pragma_line (line : string) : Prop :=
  exists ws0 ws1 ws2 c tail,
    line = (ws0 ++ "#pragma" ++ ws1 ++ "omp" ++ ws2 ++ String c tail)%string
    /\ all_chars isspace ws0 = true
    /\ all_chars isspace ws1 = true /\ ws1 <> ""
    /\ all_chars isspace ws2 = true /\ ws2 <> ""
    /\ Nat.eqb (ord c) 10 = false.

(** No line feed occurs in [s]: the texts a dot of a pattern runs over. *)
Definition no_line_feed (s : string) : bool := all_chars (cmatch CAny) s.

(** ** Regex fragments and versions *)

(** [e] holds a fragment in double braces on one line. *)
Definition has_brace_fragment (e : string) : Prop :=
  exists before mid after,
    e = (before ++ "{{" ++ mid ++ "}}" ++ after)%string
    /\ no_line_feed mid = true.

(** A fragment in double braces, braces included, that occurs in [e]. *)
Definition brace_fragment_of (e g : string) : Prop :=
  exists mid,
    g = ("{{" ++ mid ++ "}}")%string
    /\ no_line_feed mid = true
    /\ Substring g e.

(** One or more decimal digits. *)
Definition is_number (v : string) : Prop :=
  v <> "" /\ all_chars isdigit v = true.

(** A version as [_extract_openmp_version] returns it: a number, or two
    numbers with a dot between them. *)
Definition version_text (v : string) : Prop :=
  is_number v
  \/ exists major minor,
       v = (major ++ "." ++ minor)%string
       /\ is_number major /\ is_number minor.

(** The command holds [-fopenmp-version=] followed by a digit. *)
Definition names_version_flag (cmd : string) : Prop :=
  exists before d after,
    cmd = (before ++ "-fopenmp-version=" ++ String d after)%string
    /\ isdigit d = true.

(** ** Batches *)

(** No record can come from the file: it is missing, cannot be read, or
    is read as the empty text. *)
Definition yields_no_record (st : FileState) : Prop :=
  st = Missing \/ st = Unreadable \/ exists size, st = Readable "" size.

(** A persistence collaborator that keeps the file names of the stored
    records and refuses the records of files named [locked.c]. *)
Definition sample_store (db : list string) (pattern : TestPattern.t)
  : list string * bool :=
  if String.eqb (TestPattern.file_name pattern) "locked.c"
  then (db, false)
  else (db ++ [TestPattern.file_name pattern], true).

(** A file system with [sample_content] at [sample_path] and nothing
    elsewhere. *)
Definition sample_files (p : Path.t) : FileState :=
  if String.eqb (Path.str p) (Path.str sample_path)
  then sample_state else Missing.

Definition missing_path : Path.t := Path.mk "test/gone.c" "gone.c" ".c".

(** ** Annotations *)

Definition first_char (s : string) : option ascii :=
  match s with
  | EmptyString => None
  | String c _ => Some c
  end.

Fixpoint last_char (s : string) : option ascii :=
  match s with
  | EmptyString => None
  | String c EmptyString => Some c
  | String _ s' => last_char s'
  end.

Definition not_space (c : option ascii) : bool :=
  match c with
  | Some c => negb (isspace c)
  | None => true
  end.

(** [s] neither starts nor ends with whitespace; it may be empty. *)
Definition trimmed (s : string) : bool :=
  (not_space (first_char s) && not_space (last_char s))%bool.

(** [x] is a piece of one line of [content], without the whitespace around
    it. *)
Definition line_fragment (content x : string) : Prop :=
  Substring x content /\ no_line_feed x = true /\ trimmed x = true.

(** ** The OpenMP version *)

(** The text does not go on with a digit. *)
Definition no_digit_ahead (s : string) : bool :=
  match s with
  | EmptyString => true
  | String c _ => negb (isdigit c)
  end.

(** [v] is the number that [cmd] gives for the version: all the digits
    after the leftmost [-fopenmp-version=] that a digit follows. *)
Definition flag_version_of (cmd v : string) : Prop :=
  exists before after,
    cmd = (before ++ "-fopenmp-version=" ++ v ++ after)%string
    /\ is_number v
    /\ no_digit_ahead after = true
    /\ forall before' d after',
         cmd = (before' ++ "-fopenmp-version=" ++ String d after')%string ->
         isdigit d = true ->
         (String.length before <= String.length before')%nat.

(** [v] is the version of the first RUN command that names one. *)
Definition version_from_commands (run_commands : list string) (v : string)
  : Prop :=
  exists earlier cmd later,
    run_commands = earlier ++ cmd :: later
    /\ (forall c, In c earlier -> ~ names_version_flag c)
    /\ flag_version_of cmd v.

(** After [before], the body holds the word OpenMP in any case,
    whitespace, and the version [v], two numbers with a dot between them;
    [after] is what follows. *)
Definition version_comment_at (content before v after : string) : Prop :=
  exists keyword blanks major minor,
    content
    = (before ++ keyword ++ blanks ++ major ++ "." ++ minor ++ after)%string
    /\ lower keyword = "openmp"
    /\ blanks <> "" /\ all_chars isspace blanks = true
    /\ is_number major /\ is_number minor
    /\ v = (major ++ "." ++ minor)%string.

Definition names_version_comment (content : string) : Prop :=
  exists before v after, version_comment_at content before v after.

(** [v] is the version of the leftmost version comment of the body, with
    all the digits of its second number. *)
Definition version_from_comment (content v : string) : Prop :=
  exists before after,
    version_comment_at content before v after
    /\ no_digit_ahead after = true
    /\ forall before' v' after',
         version_comment_at content before' v' after' ->
         (String.length before <= String.length before')%nat.
(* ================================================================== *)
(** * The model on the examples of the specification *)
(* ================================================================== *)

Example pragma_on_line_five :
  _extract_openmp_directives
    (nl ++ nl ++ nl ++ nl ++ "#pragma omp parallel private(x)")
  = [OpenMPDirective.mk "parallel" ["private(x)"] 5 0
       "#pragma omp parallel private(x)"].
Proof. vm_compute. reflexivity. Qed.

Example run_line_resolves_to_sema :
  let content := "// RUN: %tool -fsyntax-only -verify %s" in
  _extract_run_commands content = ["%tool -fsyntax-only -verify %s"]
  /\ _determine_compiler_stage (_extract_run_commands content) content = SEMA.
Proof. vm_compute. split; reflexivity. Qed.

Example splitlines_boundaries :
  splitlines ("a" ++ String (chr 13) nl ++ "b" ++ nl ++ nl ++ "c" ++ nl)
  = ["a"; "b"; ""; "c"].
Proof. vm_compute. reflexivity. Qed.

Example flags_of_a_run_line :
  _extract_compiler_flags insertion_order
    (_extract_run_commands two_flags) = ["-verify"; "-fopenmp"].
Proof. vm_compute. reflexivity. Qed.

(* ================================================================== *)
(** * Strings *)
(* ================================================================== *)

Lemma startswith_app (p t : string) : startswith p (p ++ t) = true.
Proof.
  induction p as [|a p IH]; simpl; [reflexivity|].
  now rewrite Ascii.eqb_refl, IH.
Qed.

Lemma startswith_inv (p s : string) :
  startswith p s = true -> exists t, s = (p ++ t)%string.
Proof.
  revert s; induction p as [|a p IH]; intros s H; simpl in *.
  - now exists s.
  - destruct s as [|b s]; [discriminate|].
    apply andb_true_iff in H as [Hab Hps].
    apply Ascii.eqb_eq in Hab; subst b.
    destruct (IH _ Hps) as [t ->]. now exists t.
Qed.

Lemma startswith_cons (a b : ascii) (p s : string) :
  startswith (String a p) (String b s)
  = (Ascii.eqb a b && startswith p s)%bool.
Proof. reflexivity. Qed.

Lemma str_in_startswith (sub s : string) :
  startswith sub s = true -> str_in sub s = true.
Proof. intros H. destruct s; simpl; rewrite H; reflexivity. Qed.

(** The operator [in] on strings decides the occurrence of a substring. *)
Lemma str_in_spec (sub s : string) :
  str_in sub s = true <-> Substring sub s.
Proof.
  split.
  - induction s as [|c s IH]; simpl; intros H.
    + rewrite orb_false_r in H. apply startswith_inv in H as [t Ht].
      exists "", t. exact Ht.
    + apply orb_true_iff in H as [H|H].
      * apply startswith_inv in H as [t Ht]. exists "", t. exact Ht.
      * destruct (IH H) as (pre & post & ->).
        exists (String c pre), post. reflexivity.
  - intros (pre & post & ->).
    induction pre as [|c pre IH].
    + change (str_in sub (sub ++ post) = true).
      apply str_in_startswith, startswith_app.
    + change (str_in sub (String c (pre ++ sub ++ post)) = true).
      simpl. rewrite IH. apply orb_true_r.
Qed.

(** [find] skips leading whitespace up to the marker. *)
Lemma find_marker_after_spaces (ws tail : string) (i : Z) :
  all_chars isspace ws = true ->
  find_from "#pragma" (ws ++ "#pragma" ++ tail) i
  = i + Z.of_nat (String.length ws).
Proof.
  revert i; induction ws as [|c ws IH]; intros i H.
  - simpl. lia.
  - simpl in H. apply andb_true_iff in H as [Hc Hws].
    change (find_from "#pragma" (String c (ws ++ "#pragma" ++ tail)) i
            = i + Z.of_nat (S (String.length ws))).
    unfold find_from; fold find_from.
    assert (startswith "#pragma" (String c (ws ++ "#pragma" ++ tail)) = false)
      as ->.
    { change "#pragma" with (String "#" "pragma").
      rewrite startswith_cons.
      destruct (Ascii.eqb "#" c) eqn:E; [|reflexivity].
      apply Ascii.eqb_eq in E. subst c. discriminate. }
    rewrite IH by assumption. lia.
Qed.

Lemma len_app {A : Type} (l1 l2 : list A) : len (l1 ++ l2) = len l1 + len l2.
Proof. unfold len. rewrite length_app. lia. Qed.

Lemma len_nonneg {A : Type} (l : list A) : 0 <= len l.
Proof. unfold len. lia. Qed.

(* ================================================================== *)
(** * The matcher *)
(* ================================================================== *)

Lemma run_Cat (icase : bool) (r1 r2 : regex) (s : string) (g : option string)
      (k : string -> option string -> option mstate) :
  run icase (Cat r1 r2) s g k
  = run icase r1 s g (fun s' g' => run icase r2 s' g' k).
Proof. reflexivity. Qed.

Lemma run_Rep (icase : bool) (cl : cclass) (min : nat) (greedy : bool)
      (s : string) (g : option string)
      (k : string -> option string -> option mstate) :
  run icase (Rep cl min greedy) s g k
  = rep_match cl greedy min s (fun s' => k s' g).
Proof. reflexivity. Qed.

Lemma run_Lit (icase : bool) (p s : string) (g : option string)
      (k : string -> option string -> option mstate) :
  run icase (Lit p) s g k
  = match lit_match icase p s with
    | Some s' => k s' g
    | None => None
    end.
Proof. reflexivity. Qed.

(** A successful repetition read a prefix of class characters, at least
    [min] of them, and handed the rest to its continuation. *)
Lemma rep_match_inv (cl : cclass) (greedy : bool) (s : string)
      (k : string -> option mstate) (r : mstate) :
  forall min,
    rep_match cl greedy min s k = Some r ->
    exists pre rest,
      s = (pre ++ rest)%string
      /\ all_chars (cmatch cl) pre = true
      /\ (min <= String.length pre)%nat
      /\ k rest = Some r.
Proof.
  induction s as [|a s IH]; intros min H; simpl in H.
  - destruct min; [|discriminate].
    exists "", "". repeat split; auto.
  - assert (match min with O => k (String a s) | S _ => None end = Some r ->
            exists pre rest,
              String a s = (pre ++ rest)%string
              /\ all_chars (cmatch cl) pre = true
              /\ (min <= String.length pre)%nat
              /\ k rest = Some r) as Stop.
    { intros Hstop. destruct min; [|discriminate].
      exists "", (String a s). repeat split; auto. }
    assert (rep_match cl greedy (Nat.pred min) s k = Some r ->
            cmatch cl a = true ->
            exists pre rest,
              String a s = (pre ++ rest)%string
              /\ all_chars (cmatch cl) pre = true
              /\ (min <= String.length pre)%nat
              /\ k rest = Some r) as Step.
    { intros Hrec Ha.
      destruct (IH _ Hrec) as (pre & rest & -> & Hall & Hmin & Hk).
      exists (String a pre), rest. simpl. rewrite Ha, Hall.
      repeat split; auto. lia. }
    destruct (cmatch cl a) eqn:Ha; [|auto].
    destruct greedy.
    + destruct (rep_match cl true (Nat.pred min) s k) eqn:Hrec.
      * injection H as <-. auto.
      * auto.
    + destruct (match min with O => k (String a s) | S _ => None end) eqn:Hs.
      * injection H as <-. auto.
      * auto.
Qed.

Lemma lit_match_inv (p s s' : string) :
  lit_match false p s = Some s' -> s = (p ++ s')%string.
Proof.
  revert s; induction p as [|a p IH]; intros s H; simpl in H.
  - now injection H as <-.
  - destruct s as [|b s]; [discriminate|].
    unfold char_eq in H. destruct (Ascii.eqb a b) eqn:E; [|discriminate].
    apply Ascii.eqb_eq in E; subst b. simpl. f_equal. auto.
Qed.

(** A line the pragma pattern matches starts with whitespace followed by
    the marker. *)
Lemma pragma_match_shape (line : string) (m : match_obj) :
  re_match false pragma_re line = Some m ->
  exists ws tail,
    line = (ws ++ "#pragma" ++ tail)%string
    /\ all_chars isspace ws = true.
Proof.
  unfold re_match, pragma_re, seq, star. cbn [fold_right].
  destruct (run _ _ _ _ _) as [[s' g]|] eqn:E; [|discriminate].
  intros _. rewrite run_Cat, run_Rep in E.
  apply rep_match_inv in E as (ws & rest & -> & Hws & _ & Hk).
  rewrite run_Cat, run_Lit in Hk.
  destruct (lit_match false "#pragma" rest) as [tail|] eqn:L; [|discriminate].
  apply lit_match_inv in L. subst rest.
  exists ws, tail. split; [reflexivity|exact Hws].
Qed.

(* ================================================================== *)
(** * Directive extraction *)
(* ================================================================== *)

Lemma append_directive_fold (items : list (Z * string))
      (acc : list OpenMPDirective.t) :
  fold_left append_directive items acc
  = acc ++ flat_map directive_list_of_line items.
Proof.
  revert acc; induction items as [|[n l] items IH]; intros acc; simpl.
  - now rewrite app_nil_r.
  - rewrite IH. unfold directive_list_of_line at 2. simpl.
    destruct (directive_of_line n l); simpl.
    + now rewrite <- app_assoc.
    + reflexivity.
Qed.

(** The loop of the text scan collects the directives of the lines, line
    after line. *)
Lemma extract_as_flat_map (content : string) :
  _extract_openmp_directives content
  = directives_of_lines 1 (splitlines content).
Proof.
  unfold _extract_openmp_directives. now rewrite append_directive_fold.
Qed.

Lemma directive_of_line_number (n : Z) (line : string)
      (d : OpenMPDirective.t) :
  directive_of_line n line = Some d -> OpenMPDirective.line_number d = n.
Proof.
  unfold directive_of_line. destruct (re_match _ _ _); [|discriminate].
  intros [= <-]. reflexivity.
Qed.

Lemma directive_of_line_column (n : Z) (line : string)
      (d : OpenMPDirective.t) :
  directive_of_line n line = Some d ->
  exists ws tail,
    line = (ws ++ "#pragma" ++ tail)%string
    /\ all_chars isspace ws = true
    /\ OpenMPDirective.column_number d = Z.of_nat (String.length ws).
Proof.
  unfold directive_of_line.
  destruct (re_match false pragma_re line) as [m|] eqn:E; [|discriminate].
  intros [= <-]. simpl.
  destruct (pragma_match_shape _ _ E) as (ws & tail & -> & Hws).
  exists ws, tail. repeat split; [assumption|].
  unfold find. rewrite find_marker_after_spaces by assumption. lia.
Qed.

Lemma directives_of_lines_spec (lines : list string) (start : Z) :
  let ds := directives_of_lines start lines in
  StronglySorted Z.lt (map OpenMPDirective.line_number ds)
  /\ Forall (fun d => start <= OpenMPDirective.line_number d
                      < start + len lines) ds
  /\ Forall (read_from start lines) ds.
Proof.
  revert start; induction lines as [|l lines IH]; intros start; simpl.
  - repeat split; constructor.
  - destruct (IH (start + 1)) as (Hs & Hr & Hf).
    unfold directives_of_lines in *. simpl.
    set (later := flat_map directive_list_of_line
                           (enumerate (start + 1) lines)) in *.
    assert (Forall (fun d => start <= OpenMPDirective.line_number d
                             < start + len (l :: lines)) later) as Hr'.
    { eapply Forall_impl; [|exact Hr].
      intros d. unfold len. simpl length. lia. }
    assert (Forall (read_from start (l :: lines)) later) as Hf'.
    { rewrite Forall_forall in *. intros d Hd.
      destruct (Hf d Hd) as (line & Hn & Hl).
      specialize (Hr d Hd). cbv beta in Hr.
      exists line. split; [|assumption].
      replace (OpenMPDirective.line_number d - start)
        with (Z.succ (OpenMPDirective.line_number d - (start + 1))) by lia.
      rewrite Z2Nat.inj_succ by lia. exact Hn. }
    unfold directive_list_of_line at 1 2 3. cbn [fst snd].
    destruct (directive_of_line start l) as [d|] eqn:E; simpl.
    + pose proof (directive_of_line_number _ _ _ E) as Hd.
      split; [|split].
      * constructor; [assumption|].
        rewrite Forall_map. eapply Forall_impl; [|exact Hr].
        intros d'. cbv beta. lia.
      * constructor; [|assumption]. unfold len. simpl length. lia.
      * constructor; [|assumption].
        exists l. rewrite Hd, Z.sub_diag. split; [reflexivity|assumption].
    + split; [|split]; assumption.
Qed.

Lemma parse_openmp_directive_location (pragma_text : string)
      (location : Clang.SourceLocation) (d : OpenMPDirective.t) :
  ASTExtractor._parse_openmp_directive pragma_text location = Some d ->
  OpenMPDirective.column_number d = Clang.column location
  /\ OpenMPDirective.line_number d = Clang.line location.
Proof.
  unfold ASTExtractor._parse_openmp_directive.
  destruct (_ || _ || _)%bool; [discriminate|].
  intros [= <-]. split; reflexivity.
Qed.

Lemma split_cons (c : ascii) (s : string) :
  split (String c s)
  = if isspace c then split s
    else match s with
         | EmptyString => [String c EmptyString]
         | String c' _ =>
             if isspace c' then String c EmptyString :: split s
             else match split s with
                  | w :: ws => String c w :: ws
                  | [] => [String c EmptyString]
                  end
         end.
Proof. reflexivity. Qed.

(** A word that ends the text or that whitespace follows is the first
    item of [split]. *)
Lemma split_word_then (w x : string) :
  is_word w ->
  x = "" \/ (exists sp y, x = String sp y /\ isspace sp = true) ->
  split (w ++ x) = w :: split x.
Proof.
  intros [Hne Hw] Hx. unfold no_whitespace in Hw.
  induction w as [|c w IH]; [congruence|].
  simpl in Hw. apply andb_true_iff in Hw as [Hc Hw].
  apply negb_true_iff in Hc.
  change (String c w ++ x)%string with (String c (w ++ x)).
  rewrite split_cons, Hc.
  destruct w as [|c' w'].
  - simpl. destruct Hx as [->|(sp & y & -> & Hsp)]; [reflexivity|].
    now rewrite Hsp.
  - assert (isspace c' = false) as Hc'.
    { simpl in Hw. apply andb_true_iff in Hw as [H _].
      now apply negb_true_iff in H. }
    change (String c' w' ++ x)%string with (String c' (w' ++ x)) in *.
    cbv iota. rewrite Hc', IH; [reflexivity|discriminate|exact Hw].
Qed.

Lemma is_word_hash : is_word "#".
Proof. split; [discriminate|reflexivity]. Qed.

Lemma is_word_pragma : is_word "pragma".
Proof. split; [discriminate|reflexivity]. Qed.

Lemma is_word_omp : is_word "omp".
Proof. split; [discriminate|reflexivity]. Qed.

(** The text rebuilt from the tokens [#], [pragma], [omp] and what follows
    them on the line splits into these three words and the rest. *)
Lemma split_pragma_tokens (more : list string) :
  exists parts,
    split (join " " ("#" :: "pragma" :: "omp" :: more))
    = "#" :: "pragma" :: "omp" :: parts.
Proof.
  unfold join.
  change (String.concat " " ("#" :: "pragma" :: "omp" :: more))
    with ("#" ++ " " ++ "pragma" ++ " " ++ String.concat " " ("omp" :: more))%string.
  rewrite (split_word_then "#" _ is_word_hash)
    by (right; eexists _, _; split; reflexivity).
  change (split (" " ++ "pragma" ++ " " ++ String.concat " " ("omp" :: more)))
    with (split ("pragma" ++ " " ++ String.concat " " ("omp" :: more))).
  rewrite (split_word_then "pragma" _ is_word_pragma)
    by (right; eexists _, _; split; reflexivity).
  change (split (" " ++ String.concat " " ("omp" :: more)))
    with (split (String.concat " " ("omp" :: more))).
  destruct more as [|x more].
  - exists []. reflexivity.
  - change (String.concat " " ("omp" :: x :: more))
      with ("omp" ++ " " ++ String.concat " " (x :: more))%string.
    rewrite (split_word_then "omp" _ is_word_omp)
      by (right; eexists _, _; split; reflexivity).
    eexists. reflexivity.
Qed.

Lemma parse_openmp_directive_text (pragma_text : string)
      (location : Clang.SourceLocation) (d : OpenMPDirective.t) :
  ASTExtractor._parse_openmp_directive pragma_text location = Some d ->
  OpenMPDirective.full_text d = pragma_text.
Proof.
  unfold ASTExtractor._parse_openmp_directive.
  destruct (_ || _ || _)%bool; [discriminate|].
  intros [= <-]. reflexivity.
Qed.

(** The rebuilt text of a pragma whose [pragma] and [omp] stand on the
    line of its [#] is parsed into a directive. *)
Lemma parse_pragma_tokens (more : list string)
      (location : Clang.SourceLocation) :
  exists d,
    ASTExtractor._parse_openmp_directive
      (join " " ("#" :: "pragma" :: "omp" :: more)) location = Some d.
Proof.
  unfold ASTExtractor._parse_openmp_directive.
  destruct (split_pragma_tokens more) as [parts ->].
  assert ((len ("#" :: "pragma" :: "omp" :: parts) <? 3) = false) as ->
      by (apply Z.ltb_ge; unfold len; simpl length; lia).
  cbn [nth]. eexists. reflexivity.
Qed.

(** What the loop of [_extract_openmp_pragmas] does at the first token:
    it appends one directive, located at this token, when the token is the
    [#] of a pragma whose [pragma] and [omp] stand on its line, and
    nothing otherwise. *)
Lemma pragmas_of_tokens_head (token : Clang.Token)
      (later : list Clang.Token) :
  exists found,
    ASTExtractor.pragmas_of_tokens (token :: later)
    = found ++ ASTExtractor.pragmas_of_tokens later
    /\ (found = []
        /\ ~ (exists hash, pragma_on_line_at (token :: later) 0 hash)
        \/ exists d,
             found = [d] /\ located_at_its_hash (token :: later) d 0).
Proof.
  unfold ASTExtractor.pragmas_of_tokens; fold ASTExtractor.pragmas_of_tokens.
  eexists. split; [reflexivity|].
  destruct later as [|t1 [|t2 more]].
  - left. split; [reflexivity|].
    intros (hash & u1 & u2 & _ & H & _). discriminate H.
  - left. split; [reflexivity|].
    intros (hash & u1 & u2 & _ & _ & H & _). discriminate H.
  - destruct (String.eqb (Clang.token_spelling token) "#"
              && String.eqb (Clang.token_spelling t1) "pragma"
              && String.eqb (Clang.token_spelling t2) "omp")%bool eqn:E.
    + apply andb_true_iff in E as [E E2]. apply andb_true_iff in E as [E0 E1].
      apply String.eqb_eq in E0, E1, E2.
      cbn [ASTExtractor.same_line_spellings].
      rewrite Z.eqb_refl, E0, E1, E2.
      destruct (Clang.line (Clang.token_location t1)
                =? Clang.line (Clang.token_location token)) eqn:L1.
      * destruct (Clang.line (Clang.token_location t2)
                  =? Clang.line (Clang.token_location token)) eqn:L2.
        -- right. apply Z.eqb_eq in L1, L2.
           destruct (parse_pragma_tokens
                       (ASTExtractor.same_line_spellings
                          (Clang.line (Clang.token_location token)) more)
                       (Clang.token_location token)) as [d P].
           rewrite P. exists d. split; [reflexivity|].
           exists token. split.
           { exists t1, t2. repeat split; auto. }
           destruct (parse_openmp_directive_location _ _ _ P) as [Hc Hl].
           split; [exact Hc|]. split; [exact Hl|].
           rewrite (parse_openmp_directive_text _ _ _ P).
           cbn [skipn ASTExtractor.same_line_spellings].
           apply Z.eqb_eq in L1, L2.
           now rewrite Z.eqb_refl, L1, L2, E0, E1, E2.
        -- left. split; [reflexivity|].
           intros (hash & u1 & u2 & H0 & H1 & H2 & _ & _ & _ & _ & Hl).
           injection H0 as <-. injection H2 as <-.
           apply Z.eqb_neq in L2. contradiction.
      * left. split; [reflexivity|].
        intros (hash & u1 & u2 & H0 & H1 & H2 & _ & _ & _ & Hl & _).
        injection H0 as <-. injection H1 as <-.
        apply Z.eqb_neq in L1. contradiction.
    + left. split; [reflexivity|].
      intros (hash & u1 & u2 & H0 & H1 & H2 & S0 & S1 & S2 & _).
      injection H0 as <-. injection H1 as <-. injection H2 as <-.
      rewrite S0, S1, S2 in E. discriminate E.
Qed.

Lemma located_at_its_hash_later (token : Clang.Token)
      (later : list Clang.Token) (d : OpenMPDirective.t) (i : nat) :
  located_at_its_hash later d i ->
  located_at_its_hash (token :: later) d (S i).
Proof. intros H. exact H. Qed.

Lemma positions_later (positions : list nat) :
  StronglySorted lt positions ->
  StronglySorted lt (map S positions)
  /\ Forall (lt 0) (map S positions).
Proof.
  induction 1 as [|i l Hl IH Hi]; simpl.
  - split; constructor.
  - destruct IH as [IH1 IH2]. split.
    + constructor; [exact IH1|].
      rewrite Forall_map. eapply Forall_impl; [|exact Hi].
      intros j. cbv beta. lia.
    + constructor; [lia|exact IH2].
Qed.

(** The directives rebuilt from tokens and the positions of the pragmas:
    one directive per pragma, in the order of the tokens, each located at
    the [#] of its own pragma. *)
Lemma pragmas_of_tokens_located (tokens : list Clang.Token) :
  exists positions,
    pragma_positions tokens positions
    /\ Forall2 (located_at_its_hash tokens)
               (ASTExtractor.pragmas_of_tokens tokens) positions.
Proof.
  induction tokens as [|token later IH].
  - exists []. split; [split; [constructor|]|constructor].
    intros i. split; [intros []|].
    intros (hash & t1 & t2 & H & _). destruct i; discriminate H.
  - destruct IH as (positions & [Hs Hp] & Hf).
    destruct (positions_later _ Hs) as [Hs' Hpos].
    assert (Forall2 (located_at_its_hash (token :: later))
                    (ASTExtractor.pragmas_of_tokens later)
                    (map S positions)) as Hf'.
    { clear - Hf. induction Hf as [|d i ds l Hd _ IH]; simpl; constructor;
        [now apply located_at_its_hash_later|exact IH]. }
    assert (forall i,
               In (S i) (map S positions)
               <-> exists hash, pragma_on_line_at (token :: later) (S i) hash)
      as Hp'.
    { intros i. rewrite <- (Hp i). rewrite in_map_iff. split.
      - intros (j & [= ->] & Hj). exact Hj.
      - intros Hi. now exists i. }
    assert (~ In O (map S positions)) as Hzero.
    { intros H. apply in_map_iff in H as (j & Hj & _). discriminate Hj. }
    destruct (pragmas_of_tokens_head token later)
      as (found & -> & [[-> Hnone]|(d & -> & Hd)]).
    + exists (map S positions). split; [split; [exact Hs'|]|exact Hf'].
      intros [|i]; [|apply Hp'].
      split; [intros H; contradiction|intros H; contradiction].
    + exists (O :: map S positions). split; [split|].
      * constructor; [exact Hs'|exact Hpos].
      * intros [|i].
        -- split; [|now left]. intros _.
           destruct Hd as (hash & Hh & _). now exists hash.
        -- rewrite <- Hp'. simpl. split; [intros [H|H]; [discriminate|exact H]|].
           intros H. now right.
      * simpl. constructor; [exact Hd|exact Hf'].
Qed.

(** C9.  For every input text the text scan returns its directives in
    source order: their line numbers increase strictly, each line number
    [n] satisfies [1 <= n <= number of lines] of the input, and each
    directive is the one read from the line its number names. *)
Theorem directives_in_source_order (content : string) :
  let lines := splitlines content in
  let ds := _extract_openmp_directives content in
  StronglySorted Z.lt (map OpenMPDirective.line_number ds)
  /\ Forall (fun d => 1 <= OpenMPDirective.line_number d <= len lines) ds
  /\ Forall (read_from 1 lines) ds.
Proof.
  intros lines ds. subst ds lines. rewrite extract_as_flat_map.
  destruct (directives_of_lines_spec (splitlines content) 1)
    as (Hs & Hr & Hf).
  split; [assumption|]. split; [|assumption].
  eapply Forall_impl; [|exact Hr]. intros d. cbv beta. lia.
Qed.

(** C5, as the code has it.  The directives rebuilt from the tokens of the
    tree are those of the pragmas of the token list, one per pragma and in
    their order, and each carries the line and the column at which the
    parser located the [#] token of its own pragma (not -1); a directive
    of the text scan carries the index of the [#pragma] that follows the
    leading whitespace of its line. *)
Theorem directive_columns :
  (forall tokens : list Clang.Token,
      exists positions,
        pragma_positions tokens positions
        /\ Forall2 (located_at_its_hash tokens)
                   (ASTExtractor.pragmas_of_tokens tokens) positions)
  /\ (forall content : string,
         Forall (column_of_leading_marker (splitlines content))
                (_extract_openmp_directives content)).
Proof.
  split; [exact pragmas_of_tokens_located|].
  intros content. rewrite extract_as_flat_map.
  destruct (directives_of_lines_spec (splitlines content) 1) as (_ & _ & Hf).
  eapply Forall_impl; [|exact Hf].
  intros d (line & Hn & Hd).
  destruct (directive_of_line_column _ _ _ Hd) as (ws & tail & Hl & Hw & Hc).
  exists line, ws, tail. auto.
Qed.

(** C5 as stated fails: the directive rebuilt from the tokens of
    [#pragma omp parallel], whose [#] the parser locates at column 1, has
    the column 1. *)
Lemma token_directive_column_not_minus_one :
  ~ (forall tokens d,
        In d (ASTExtractor.pragmas_of_tokens tokens) ->
        OpenMPDirective.column_number d = -1).
Proof.
  intros H.
  specialize (H hash_pragma_omp_parallel
                (OpenMPDirective.mk "parallel" [] 3 1 "# pragma omp parallel")).
  assert (In (OpenMPDirective.mk "parallel" [] 3 1 "# pragma omp parallel")
             (ASTExtractor.pragmas_of_tokens hash_pragma_omp_parallel)) as Hin
      by (vm_compute; left; reflexivity).
  specialize (H Hin). discriminate.
Qed.

(** C4 on the code.  The text scan returns no directive for the line
    [#pragma omp]: its pattern asks for whitespace and one more character
    after [omp].  The token path does return a directive with the empty
    name for the same pragma, and so does the text scan once two blanks
    follow [omp]. *)
Theorem bare_pragma_dropped_by_text_scan :
  _extract_openmp_directives "#pragma omp" = []
  /\ (forall location,
         ASTExtractor._parse_openmp_directive "# pragma omp" location
         = Some (OpenMPDirective.mk "" [] (Clang.line location)
                   (Clang.column location) "# pragma omp"))
  /\ _extract_openmp_directives "#pragma omp  "
     = [OpenMPDirective.mk "" [] 1 0 "#pragma omp"].
Proof.
  split; [|split].
  - vm_compute. reflexivity.
  - intros location. reflexivity.
  - vm_compute. reflexivity.
Qed.

(* ================================================================== *)
(** * Sets of strings *)
(* ================================================================== *)

Lemma pyset_mem_In (x : string) (s : list string) :
  PySet.mem x s = true <-> In x s.
Proof.
  unfold PySet.mem. rewrite existsb_exists. split.
  - intros (y & Hy & E). apply String.eqb_eq in E. now subst.
  - intros H. exists x. split; [assumption|apply String.eqb_refl].
Qed.

Lemma pyset_add_In (x y : string) (s : list string) :
  In y (PySet.add x s) <-> y = x \/ In y s.
Proof.
  unfold PySet.add. destruct (PySet.mem x s) eqn:E.
  - apply pyset_mem_In in E. split; [auto|]. intros [->|H]; assumption.
  - rewrite in_app_iff. simpl. intuition.
Qed.

Lemma pyset_add_NoDup (x : string) (s : list string) :
  NoDup s -> NoDup (PySet.add x s).
Proof.
  intros H. unfold PySet.add. destruct (PySet.mem x s) eqn:E; [assumption|].
  assert (~ In x s) as Hx
      by (intros Hin; apply pyset_mem_In in Hin; congruence).
  apply NoDup_app; [assumption|repeat constructor; intros []| ].
  intros a Ha [<-|[]]. contradiction.
Qed.

Section SetFold.
Context {A : Type} (key : A -> string).

(** Adding the keys of a list to a set keeps it duplicate-free and adds
    exactly those keys. *)
Lemma pyset_fold_spec (xs : list A) (s : list string) :
  NoDup s ->
  NoDup (fold_left (fun acc x => PySet.add (key x) acc) xs s)
  /\ (forall y, In y (fold_left (fun acc x => PySet.add (key x) acc) xs s)
                <-> In y s \/ In y (map key xs)).
Proof.
  revert s; induction xs as [|x xs IH]; intros s Hs; simpl.
  - split; [assumption|]. intuition.
  - destruct (IH (PySet.add (key x) s) (pyset_add_NoDup _ _ Hs)) as [Hn Hi].
    split; [assumption|]. intros y. rewrite Hi, pyset_add_In. intuition.
Qed.

Lemma pyset_fold_length (xs : list A) :
  length (fold_left (fun acc x => PySet.add (key x) acc) xs [])
  = length (nodup string_dec (map key xs)).
Proof.
  destruct (pyset_fold_spec xs [] (NoDup_nil _)) as [Hn Hi].
  apply Permutation_length, NoDup_Permutation;
    [assumption|apply NoDup_nodup|].
  intros y. rewrite Hi, nodup_In. simpl. intuition.
Qed.

End SetFold.

(* ================================================================== *)
(** * Complexity score *)
(* ================================================================== *)

Lemma sum_clauses_from (ds : list OpenMPDirective.t) (acc : Z) :
  fold_left (fun a d => a + len (OpenMPDirective.clauses d)) ds acc
  = acc + len (concat (map OpenMPDirective.clauses ds)).
Proof.
  revert acc; induction ds as [|d ds IH]; intros acc; simpl.
  - unfold len; simpl; lia.
  - rewrite IH, len_app. lia.
Qed.

Lemma sum_clauses_concat (ds : list OpenMPDirective.t) :
  sum_clauses ds = len (concat (map OpenMPDirective.clauses ds)).
Proof. unfold sum_clauses. rewrite sum_clauses_from. lia. Qed.

(** C7.  The complexity score is [min(10, 2 * #directives + #clause tokens
    of all directives + #check-pattern lines + 2 * #expected-error
    annotations + #function declarations div 2 + #parse errors + #error
    types)] and lies between 0 and 10; in the pipeline the error types are
    the distinct kinds of the parse errors. *)
Theorem complexity_score_formula :
  (forall (directives : list OpenMPDirective.t)
          (check_patterns expected_errors : list string)
          (ast_patterns : option ASTExtractor.Patterns)
          (error_patterns : ErrorPatterns.t),
      let score :=
        _calculate_complexity_score directives check_patterns
          expected_errors ast_patterns error_patterns in
      score
      = Z.min 10
          (2 * len directives
           + len (concat (map OpenMPDirective.clauses directives))
           + len check_patterns
           + 2 * len expected_errors
           + len (get_function_declarations ast_patterns) / 2
           + len (ErrorPatterns.parse_errors error_patterns)
           + len (ErrorPatterns.error_types error_patterns))
      /\ 0 <= score <= 10)
  /\ (forall (parse_errors : list ParseError.t)
             (expected_errors : list string) (content : string),
         let error_patterns :=
           _categorize_error_patterns parse_errors expected_errors content in
         ErrorPatterns.parse_errors error_patterns = parse_errors
         /\ len (ErrorPatterns.error_types error_patterns)
            = Z.of_nat (length (nodup string_dec
                                  (map ParseError.error_type parse_errors)))).
Proof.
  split.
  - intros directives check_patterns expected_errors ast_patterns
           error_patterns score.
    subst score. unfold _calculate_complexity_score.
    rewrite sum_clauses_concat.
    pose proof (len_nonneg directives).
    pose proof (len_nonneg (concat (map OpenMPDirective.clauses directives))).
    pose proof (len_nonneg check_patterns).
    pose proof (len_nonneg expected_errors).
    pose proof (len_nonneg (ErrorPatterns.parse_errors error_patterns)).
    pose proof (len_nonneg (ErrorPatterns.error_types error_patterns)).
    assert (0 <= len (get_function_declarations ast_patterns) / 2)
      by (apply Z.div_pos; [apply len_nonneg|lia]).
    split; lia.
  - intros parse_errors expected_errors content error_patterns.
    subst error_patterns. unfold _categorize_error_patterns. simpl.
    split; [reflexivity|].
    unfold len. f_equal. apply pyset_fold_length.
Qed.

(* ================================================================== *)
(** * Categories and negative tests *)
(* ================================================================== *)

Lemma existsb_orb_false {A : Type} (f : A -> bool) (l : list A) :
  existsb (fun x => (f x || false)%bool) l = existsb f l.
Proof.
  induction l as [|x l IH]; simpl; [reflexivity|].
  now rewrite IH, orb_false_r.
Qed.

(** The body text takes part in the category through the keyword
    [parallel] only. *)
Lemma categorize_test_reads_body_for_parallel_only
      (filename : string) (directives : list OpenMPDirective.t)
      (content1 content2 : string) :
  str_in "parallel" (lower content1) = str_in "parallel" (lower content2) ->
  _categorize_test filename directives content1
  = _categorize_test filename directives content2.
Proof. intros H. unfold _categorize_test. now rewrite H. Qed.

(** C6, as the code has it.  The categories are tried in the order
    PARALLEL, WORKSHARING, TARGET, SYNCHRONIZATION, SIMD, TASK, the first
    rule that fires wins and GENERAL is the fallback.  PARALLEL looks for
    [parallel] in the lower-cased file name, directive names and body.  The
    other rules do not read the body: WORKSHARING fires on [for] or
    [sections] in the file name or on a directive named [for], [sections]
    or [single]; TARGET, SIMD and TASK on their keyword in the file name or
    inside a directive name; SYNCHRONIZATION on [atomic] or [critical] in
    the file name or on a directive named [atomic], [critical] or
    [barrier]. *)
Theorem categorize_test_rules
        (filename : string) (directives : list OpenMPDirective.t)
        (content : string) :
  _categorize_test filename directives content
  = first_match category_rules (lower filename)
      (directive_names_lower directives) (lower content).
Proof.
  unfold _categorize_test, category_rules, first_match, rule_fires,
    directive_names_lower.
  cbn [filename_keywords name_keywords content_keywords name_test
       rule_category existsb].
  rewrite !existsb_orb_false, !orb_false_r.
  rewrite <- !orb_assoc.
  reflexivity.
Qed.

(** C6 as stated fails: a file [x.c] without directives whose body is the
    word [for] is GENERAL for the code and WORKSHARING for the rules that
    read every keyword in all three signals. *)
Lemma categorize_test_not_three_signals :
  ~ (forall filename directives content,
        _categorize_test filename directives content
        = first_match three_signal_rules (lower filename)
            (directive_names_lower directives) (lower content)).
Proof.
  intros H. specialize (H "x.c" [] "for"). vm_compute in H. discriminate.
Qed.

(** C8.  A file is a negative test exactly when its lower-cased name
    contains one of [messages], [error], [warn], [diag], [negative],
    [invalid], [bad], [fail], [wrong], or its body contains
    [expected-error] or [expected-warning]; a file named [messages.c] is
    negative whatever its body. *)
Theorem negative_test_rule :
  (forall (file_path : Path.t) (content : string),
      _is_negative_test_case file_path content = true <->
      ((exists k,
           In k ["messages"; "error"; "warn"; "diag"; "negative";
                 "invalid"; "bad"; "fail"; "wrong"]
           /\ Substring k (lower (Path.name file_path)))
       \/ Substring "expected-error" content
       \/ Substring "expected-warning" content))
  /\ (forall (dir content : string),
         _is_negative_test_case (Path.mk dir "messages.c" ".c") content = true).
Proof.
  split.
  - intros file_path content. unfold _is_negative_test_case.
    change negative_indicators
      with ["messages"; "error"; "warn"; "diag"; "negative";
            "invalid"; "bad"; "fail"; "wrong"].
    set (ks := ["messages"; "error"; "warn"; "diag"; "negative";
                "invalid"; "bad"; "fail"; "wrong"]).
    destruct (existsb _ ks) eqn:Hname.
    + split; [intros _|reflexivity].
      apply existsb_exists in Hname as (k & Hin & Hk).
      left. exists k. split; [exact Hin|]. now apply str_in_spec.
    + destruct (str_in "expected-error" content) eqn:He; simpl.
      * split; [intros _|reflexivity].
        right; left. now apply str_in_spec.
      * destruct (str_in "expected-warning" content) eqn:Hw.
        -- split; [intros _|reflexivity].
           right; right. now apply str_in_spec.
        -- split; [discriminate|].
           intros [(k & Hin & Hk)|[H|H]].
           ++ apply str_in_spec in Hk.
              assert (existsb (fun indicator =>
                         str_in indicator (lower (Path.name file_path))) ks
                      = true) as Hex
                  by (apply existsb_exists; exists k; split; assumption).
              rewrite Hex in Hname. discriminate.
           ++ apply str_in_spec in H. congruence.
           ++ apply str_in_spec in H. congruence.
  - intros dir content. reflexivity.
Qed.

(* ================================================================== *)
(** * Serialisation round trip *)
(* ================================================================== *)

Section RoundTrip.
Import Serial.

Lemma traverse_map {A B : Type} (enc : A -> B) (dec : B -> option A)
      (l : list A) :
  (forall x, dec (enc x) = Some x) ->
  traverse dec (map enc l) = Some l.
Proof.
  intros H. induction l as [|x l IH]; simpl; [reflexivity|].
  now rewrite H, IH.
Qed.

Lemma as_list_str (l : list string) :
  as_list as_str (of_str_list l) = Some l.
Proof. apply traverse_map. reflexivity. Qed.

Lemma as_opt_str_of (o : option string) :
  as_opt_str (of_opt_str o) = Some o.
Proof. destruct o; reflexivity. Qed.

Lemma stage_roundtrip (c : CompilerStage) :
  stage_of_value (PStr (stage_value c)) = Some c.
Proof. destruct c; reflexivity. Qed.

Lemma category_roundtrip (c : TestCategory) :
  category_of_value (PStr (category_value c)) = Some c.
Proof. destruct c; reflexivity. Qed.

Lemma directive_roundtrip (d : OpenMPDirective.t) :
  directive_of (directive_asdict d) = Some d.
Proof.
  destruct d as [name clauses line col text].
  unfold directive_of, directive_asdict. cbn -[as_list of_str_list].
  rewrite as_list_str. reflexivity.
Qed.

Lemma ast_node_roundtrip (n : ASTNode.t) :
  ast_node_of (ast_node_asdict n) = Some n.
Proof. destruct n. reflexivity. Qed.

Lemma parse_error_roundtrip (e : ParseError.t) :
  parse_error_of (parse_error_asdict e) = Some e.
Proof. destruct e. reflexivity. Qed.

Lemma expected_pattern_roundtrip (p : ExpectedErrorPattern.t) :
  expected_pattern_of (expected_pattern_asdict p) = Some p.
Proof.
  destruct p as [pat cat rx line].
  unfold expected_pattern_of, expected_pattern_asdict.
  cbn -[as_opt_str of_opt_str]. rewrite as_opt_str_of. reflexivity.
Qed.

Lemma negative_roundtrip (c : NegativeTestCharacteristics.t) :
  negative_of (negative_asdict c) = Some c.
Proof.
  destruct c as [neg strat eva areas count].
  unfold negative_of, negative_asdict.
  cbn -[as_opt_str of_opt_str as_list of_str_list].
  rewrite as_opt_str_of. cbn -[as_list of_str_list].
  rewrite as_list_str. reflexivity.
Qed.

(** C2.  Deserialising the serialised form of a record gives the record
    back, equal in every field: the nested lists of directives, AST-node
    summaries, parse errors and expected-error patterns, the negative-test
    profile, the two enum fields and the creation timestamp included. *)
Theorem to_dict_from_dict (p : TestPattern.t) :
  from_dict (to_dict p) = Some p.
Proof.
  destruct p. unfold from_dict, to_dict.
  cbn -[as_list of_str_list as_opt_str of_opt_str stage_of_value
        category_of_value negative_of negative_asdict directive_of
        directive_asdict ast_node_of ast_node_asdict parse_error_of
        parse_error_asdict expected_pattern_of expected_pattern_asdict].
  unfold get; cbn [lookup String.eqb Ascii.eqb Bool.eqb bind].
  rewrite stage_roundtrip, category_roundtrip.
  unfold as_list at 1 2 3 4.
  rewrite (traverse_map _ _ _ directive_roundtrip),
    (traverse_map _ _ _ ast_node_roundtrip),
    (traverse_map _ _ _ parse_error_roundtrip),
    (traverse_map _ _ _ expected_pattern_roundtrip),
    negative_roundtrip.
  cbn -[as_list of_str_list as_opt_str of_opt_str].
  rewrite !as_list_str, as_opt_str_of.
  reflexivity.
Qed.

End RoundTrip.

(* ================================================================== *)
(** * The pipeline *)
(* ================================================================== *)

Lemma set_orders_permute (rt1 rt2 : SetOrder) (l : list string) :
  Permutation (set_to_list rt1 l) (set_to_list rt2 l).
Proof.
  eapply Permutation_trans; [apply set_to_list_perm|].
  apply Permutation_sym, set_to_list_perm.
Qed.

(** C1, as the code has it.  [process_test_file] returns no record exactly
    when the file is missing, cannot be read, or is read as the empty
    text; for every non-empty text it returns a record even when the parse
    fails altogether, the parser-derived fields being empty then. *)
Theorem record_refused_iff :
  (forall (repr_str : string -> string) (rt : SetOrder) (st : FileState)
          (tu : Clang.ParseResult) (now : string) (file_path : Path.t),
      process_test_file repr_str rt st tu now file_path = None
      <-> (st = Missing \/ st = Unreadable
           \/ exists size, st = Readable "" size))
  /\ (forall (repr_str : string -> string) (rt : SetOrder)
             (c : ascii) (text : string) (size : Z)
             (now : string) (file_path : Path.t),
         exists r,
           process_test_file repr_str rt (Readable (String c text) size)
             Clang.ParseRaises now file_path = Some r
           /\ TestPattern.ast_nodes r = []
           /\ TestPattern.function_declarations r = []
           /\ TestPattern.variable_declarations r = []
           /\ TestPattern.parse_errors r = []).
Proof.
  split.
  - intros repr_str rt st tu now file_path.
    destruct st as [| |content size].
    + split; auto.
    + split; auto.
    + destruct content as [|c text].
      * split; [|reflexivity]. intros _. right; right. now exists size.
      * split; [discriminate|].
        intros [H|[H|[sz H]]]; discriminate.
  - intros repr_str rt c text size now file_path.
    eexists. split; [reflexivity|]. repeat split.
Qed.

(** C1 as stated fails: a readable file whose text is empty yields no
    record. *)
Lemma empty_readable_file_refused :
  ~ (forall (repr_str : string -> string) (rt : SetOrder) (st : FileState)
            (tu : Clang.ParseResult) (now : string) (file_path : Path.t),
        (exists content size, st = Readable content size) ->
        exists r,
          process_test_file repr_str rt st tu now file_path = Some r).
Proof.
  intros H.
  destruct (H quoted insertion_order (Readable "" 0) Clang.ParseRaises
              "2024-01-01T00:00:00" (Path.mk "t/empty.c" "empty.c" ".c"))
    as [r Hr].
  - exists "", 0. reflexivity.
  - discriminate.
Qed.

(** C3, as the code has it.  Two runs on the same file and the same parse
    return records that agree in every field but the creation timestamp
    and the order of the elements of [compiler_flags], [runtime_calls],
    [error_types] and [error_coverage_areas], which hold the same elements;
    two runs that iterate sets in the same order differ in the timestamp
    only. *)
Theorem runs_agree_up_to_set_order
        (repr_str : string -> string) (rt1 rt2 : SetOrder) (st : FileState)
        (tu : Clang.ParseResult) (now1 now2 : string) (file_path : Path.t) :
  agree_up_to_set_order
    (process_test_file repr_str rt1 st tu now1 file_path)
    (process_test_file repr_str rt2 st tu now2 file_path)
  /\ option_map (with_timestamp "")
       (process_test_file repr_str rt1 st tu now1 file_path)
     = option_map (with_timestamp "")
         (process_test_file repr_str rt1 st tu now2 file_path).
Proof.
  destruct st as [| |content size]; try (split; [exact I|reflexivity]).
  destruct content as [|c text]; [split; [exact I|reflexivity]|].
  split; [|reflexivity].
  unfold process_test_file, agree_up_to_set_order.
  cbn [_read_file_content is_empty _extract_file_info].
  cbv zeta.
  split; [|repeat split; try apply set_orders_permute].
  - unfold without_set_lists, with_timestamp,
      _extract_negative_test_characteristics.
    cbn [TestPattern.file_path TestPattern.file_name
         TestPattern.file_size TestPattern.compiler_stage
         TestPattern.run_commands TestPattern.compiler_flags
         TestPattern.openmp_directives TestPattern.openmp_version
         TestPattern.test_category TestPattern.check_patterns
         TestPattern.expected_errors TestPattern.expected_warnings
         TestPattern.ast_nodes TestPattern.function_declarations
         TestPattern.variable_declarations TestPattern.ir_patterns
         TestPattern.runtime_calls TestPattern.parse_errors
         TestPattern.expected_error_patterns
         TestPattern.negative_test_characteristics
         TestPattern.error_trigger_mechanisms TestPattern.error_types
         TestPattern.complexity_score TestPattern.line_count
         TestPattern.created_timestamp].
    destruct (_is_negative_test_case file_path (String c text)); reflexivity.
  - unfold coverage_areas, _extract_negative_test_characteristics.
    cbn [TestPattern.negative_test_characteristics].
    destruct (_is_negative_test_case file_path (String c text));
      cbn [NegativeTestCharacteristics.error_coverage_areas];
      [apply set_orders_permute|constructor].
Qed.

(** C3 as stated fails: for a file with the flags [-verify] and [-fopenmp]
    on its RUN line, a run that iterates sets in insertion order and a run
    that iterates them in the reverse order return different
    [compiler_flags]. *)
Lemma set_order_shows_in_record :
  ~ (forall (repr_str : string -> string) (rt1 rt2 : SetOrder)
            (st : FileState) (tu : Clang.ParseResult) (now1 now2 : string)
            (file_path : Path.t),
        option_map (with_timestamp "")
          (process_test_file repr_str rt1 st tu now1 file_path)
        = option_map (with_timestamp "")
            (process_test_file repr_str rt2 st tu now2 file_path)).
Proof.
  intros H.
  specialize (H quoted insertion_order reverse_order
                (Readable two_flags 38) Clang.ParseRaises
                "2024-01-01T00:00:00" "2024-01-01T00:00:07"
                (Path.mk "t/a.c" "a.c" ".c")).
  vm_compute in H. discriminate.
Qed.

(* ================================================================== *)
(** * Dictionaries keyed by line *)
(* ================================================================== *)

Section DictFacts.
Context {V : Type}.
Implicit Types (d : list (Z * V)) (k l : Z) (v : V).

Lemma dict_get_set_same k v d : PyDict.get k (PyDict.set k v d) = Some v.
Proof.
  induction d as [|[k' v'] d IH]; simpl.
  - now rewrite Z.eqb_refl.
  - destruct (k' =? k) eqn:E; simpl; rewrite E; [reflexivity|exact IH].
Qed.

Lemma dict_get_set_other k l v d :
  l <> k -> PyDict.get l (PyDict.set k v d) = PyDict.get l d.
Proof.
  intros Hl. induction d as [|[k' v'] d IH]; simpl.
  - destruct (k =? l) eqn:E; [apply Z.eqb_eq in E; congruence|reflexivity].
  - destruct (k' =? k) eqn:E; simpl.
    + apply Z.eqb_eq in E. subst k'.
      destruct (k =? l) eqn:E'; [apply Z.eqb_eq in E'; congruence|reflexivity].
    + now rewrite IH.
Qed.

Lemma dict_contains_keys k d :
  PyDict.contains k d = true <-> In k (map fst d).
Proof.
  unfold PyDict.contains. induction d as [|[k' v'] d IH]; simpl.
  - split; [discriminate|tauto].
  - destruct (k' =? k) eqn:E.
    + apply Z.eqb_eq in E. split; auto.
    + apply Z.eqb_neq in E. rewrite IH. split; [auto|].
      intros [H|H]; [contradiction|assumption].
Qed.

Lemma dict_get_In k v d : PyDict.get k d = Some v -> In (k, v) d.
Proof.
  induction d as [|[k' v'] d IH]; simpl; [discriminate|].
  destruct (k' =? k) eqn:E.
  - apply Z.eqb_eq in E. intros [= ->]. left. now subst.
  - auto.
Qed.

Lemma dict_In_get k v d :
  NoDup (map fst d) -> In (k, v) d -> PyDict.get k d = Some v.
Proof.
  induction d as [|[k' v'] d IH]; simpl; [tauto|].
  intros Hn [H|H].
  - injection H as -> ->. now rewrite Z.eqb_refl.
  - inversion Hn as [|? ? Hk Hd]; subst.
    destruct (k' =? k) eqn:E.
    + apply Z.eqb_eq in E. subst k'. exfalso. apply Hk.
      change k with (fst (k, v)). now apply in_map.
    + auto.
Qed.

Lemma dict_set_keys k v d :
  map fst (PyDict.set k v d)
  = if PyDict.contains k d then map fst d else map fst d ++ [k].
Proof.
  unfold PyDict.contains. induction d as [|[k' v'] d IH]; simpl; [reflexivity|].
  destruct (k' =? k) eqn:E; simpl; [reflexivity|].
  rewrite IH. destruct (PyDict.get k d); reflexivity.
Qed.

Lemma dict_set_NoDup k v d :
  NoDup (map fst d) -> NoDup (map fst (PyDict.set k v d)).
Proof.
  intros H. rewrite dict_set_keys.
  destruct (PyDict.contains k d) eqn:E; [assumption|].
  apply NoDup_app; [assumption|repeat constructor; intros []|].
  intros a Ha [<-|[]]. apply dict_contains_keys in Ha. congruence.
Qed.

Lemma dict_set_In_inv k l v w d :
  NoDup (map fst d) ->
  In (l, w) (PyDict.set k v d) ->
  (l = k /\ w = v) \/ (l <> k /\ In (l, w) d).
Proof.
  intros Hn Hin.
  apply dict_In_get in Hin; [|now apply dict_set_NoDup].
  destruct (Z.eq_dec l k) as [->|Hl].
  - rewrite dict_get_set_same in Hin. left. split; congruence.
  - rewrite dict_get_set_other in Hin by assumption.
    right. split; [assumption|now apply dict_get_In].
Qed.

End DictFacts.

(* ================================================================== *)
(** * Expected against actual errors *)
(* ================================================================== *)

Lemma errors_on_app (l : Z) (es1 es2 : list ParseError.t) :
  errors_on l (es1 ++ es2) = errors_on l es1 ++ errors_on l es2.
Proof. apply filter_app. Qed.

Lemma nonempty_snoc {A : Type} (l : list A) (x : A) :
  nonempty (l ++ [x]) = Some (l ++ [x]).
Proof. destruct l; reflexivity. Qed.

Lemma group_error_spec (d : list (Z * list ParseError.t))
      (seen : list ParseError.t) (error : ParseError.t) :
  NoDup (map fst d) ->
  (forall l, PyDict.get l d = nonempty (errors_on l seen)) ->
  NoDup (map fst (group_error d error))
  /\ (forall l, PyDict.get l (group_error d error)
                = nonempty (errors_on l (seen ++ [error]))).
Proof.
  intros Hn Hd. unfold group_error.
  set (line := ParseError.line_number error).
  set (d' := if PyDict.contains line d then d else PyDict.set line [] d).
  assert (NoDup (map fst d')) as Hn'.
  { subst d'. destruct (PyDict.contains line d); [assumption|].
    now apply dict_set_NoDup. }
  assert (PyDict.get line d' = Some (errors_on line seen)) as Hline.
  { subst d'. unfold PyDict.contains. rewrite (Hd line).
    destruct (errors_on line seen) eqn:E; simpl.
    - apply dict_get_set_same.
    - rewrite (Hd line), E. reflexivity. }
  assert (forall l, l <> line -> PyDict.get l d' = nonempty (errors_on l seen))
    as Hother.
  { intros l Hl. subst d'. destruct (PyDict.contains line d); [apply Hd|].
    rewrite dict_get_set_other by assumption. apply Hd. }
  rewrite Hline. split; [now apply dict_set_NoDup|].
  intros l. rewrite errors_on_app. unfold errors_on at 3. simpl.
  fold line. destruct (Z.eq_dec l line) as [->|Hl].
  - rewrite dict_get_set_same, Z.eqb_refl, nonempty_snoc. reflexivity.
  - rewrite dict_get_set_other by assumption.
    assert ((line =? l) = false) as -> by (apply Z.eqb_neq; congruence).
    rewrite app_nil_r. now apply Hother.
Qed.

Lemma actual_by_line_fold (es seen : list ParseError.t)
      (d : list (Z * list ParseError.t)) :
  NoDup (map fst d) ->
  (forall l, PyDict.get l d = nonempty (errors_on l seen)) ->
  NoDup (map fst (fold_left group_error es d))
  /\ (forall l, PyDict.get l (fold_left group_error es d)
                = nonempty (errors_on l (seen ++ es))).
Proof.
  revert seen d; induction es as [|e es IH]; intros seen d Hn Hd; simpl.
  - rewrite app_nil_r. auto.
  - destruct (group_error_spec d seen e Hn Hd) as [Hn' Hd'].
    replace (seen ++ e :: es) with ((seen ++ [e]) ++ es)
      by (now rewrite <- app_assoc).
    now apply IH.
Qed.

(** The grouping loop maps each line to the parse errors on it, in order. *)
Lemma actual_by_line_spec (es : list ParseError.t) :
  NoDup (map fst (actual_by_line_of es))
  /\ (forall l, PyDict.get l (actual_by_line_of es)
                = nonempty (errors_on l es)).
Proof.
  apply (actual_by_line_fold es [] []); [constructor|reflexivity].
Qed.

Lemma errors_on_nil_iff (es : list ParseError.t) (l : Z) :
  has_error_on es l = false <-> errors_on l es = [].
Proof.
  unfold has_error_on, errors_on. induction es as [|e es IH]; simpl.
  - tauto.
  - destruct (ParseError.line_number e =? l); simpl; [|exact IH].
    split; discriminate.
Qed.

Lemma get_actual (es : list ParseError.t) (l : Z) :
  PyDict.get l (actual_by_line_of es)
  = if has_error_on es l then Some (errors_on l es) else None.
Proof.
  destruct (actual_by_line_spec es) as [_ H]. rewrite H.
  destruct (has_error_on es l) eqn:E.
  - destruct (errors_on l es) eqn:E'; [|reflexivity].
    apply errors_on_nil_iff in E'. congruence.
  - apply errors_on_nil_iff in E. now rewrite E.
Qed.

Lemma expected_by_line_fold (ps seen : list ExpectedErrorPattern.t)
      (d : list (Z * ExpectedErrorPattern.t)) :
  NoDup (map fst d) ->
  (forall l, In l (map fst d)
             <-> In l (map ExpectedErrorPattern.line_number seen)) ->
  (forall l p, In (l, p) d -> last_on_line seen l p) ->
  let d' := fold_left
              (fun d p => PyDict.set (ExpectedErrorPattern.line_number p) p d)
              ps d in
  NoDup (map fst d')
  /\ (forall l, In l (map fst d')
                <-> In l (map ExpectedErrorPattern.line_number (seen ++ ps)))
  /\ (forall l p, In (l, p) d' -> last_on_line (seen ++ ps) l p).
Proof.
  revert seen d; induction ps as [|p0 ps IH]; intros seen d Hn Hk Hl; simpl.
  - rewrite app_nil_r. auto.
  - replace (seen ++ p0 :: ps) with ((seen ++ [p0]) ++ ps)
      by (now rewrite <- app_assoc).
    apply IH.
    + now apply dict_set_NoDup.
    + intros l. rewrite dict_set_keys, map_app, in_app_iff. simpl.
      destruct (PyDict.contains _ d) eqn:E.
      * apply dict_contains_keys in E. rewrite Hk in *.
        split; [auto|]. intros [H|[<-|[]]]; assumption.
      * rewrite in_app_iff, Hk. simpl. tauto.
    + intros l p Hin.
      apply dict_set_In_inv in Hin; [|assumption].
      destruct Hin as [[-> ->]|[Hne Hin]].
      * exists seen, []. repeat split. constructor.
      * destruct (Hl _ _ Hin) as (before & after & -> & Hline & Hafter).
        exists before, (after ++ [p0]). rewrite <- app_assoc. simpl.
        repeat split; [assumption|].
        apply Forall_app. split; [assumption|].
        constructor; [congruence|constructor].
Qed.

(** The dictionary of the expected patterns has one item per line that
    carries a pattern, and the item of a line holds the last pattern on
    it. *)
Lemma expected_by_line_spec (ps : list ExpectedErrorPattern.t) :
  let retained := expected_by_line_of ps in
  NoDup (map fst retained)
  /\ (forall l, In l (map fst retained)
                <-> In l (map ExpectedErrorPattern.line_number ps))
  /\ (forall l p, In (l, p) retained -> last_on_line ps l p).
Proof.
  apply (expected_by_line_fold ps [] []).
  - constructor.
  - intros l. reflexivity.
  - intros l p [].
Qed.

Lemma find_match_fold (es : list ParseError.t)
      (items : list (Z * ExpectedErrorPattern.t))
      (matched : list MatchedError.t) (unmatched : list string) :
  fold_left (find_match (actual_by_line_of es)) items (matched, unmatched)
  = (matched ++ map (matched_entry es)
                    (filter (fun item => has_error_on es (fst item)) items),
     unmatched ++ map (fun item => ExpectedErrorPattern.pattern (snd item))
                    (filter (fun item => negb (has_error_on es (fst item)))
                            items)).
Proof.
  revert matched unmatched; induction items as [|[l p] items IH];
    intros matched unmatched; simpl.
  - now rewrite !app_nil_r.
  - rewrite get_actual. destruct (has_error_on es l); simpl; rewrite IH.
    + now rewrite <- app_assoc.
    + now rewrite <- app_assoc.
Qed.

Lemma find_unexpected_fold (expected : list (Z * ExpectedErrorPattern.t))
      (items : list (Z * list ParseError.t)) (acc : list string)
      (x : string) :
  In x (fold_left (find_unexpected expected) items acc)
  <-> In x acc
      \/ exists line errors,
           In (line, errors) items
           /\ PyDict.contains line expected = false
           /\ In x (map ParseError.message errors).
Proof.
  revert acc; induction items as [|[l errs] items IH]; intros acc; simpl.
  - split; [auto|]. intros [H|(? & ? & [] & _)]. assumption.
  - rewrite IH. split.
    + intros [H|(line & errors & Hin & Hc & Hx)].
      * destruct (PyDict.contains l expected) eqn:E; [auto|].
        apply in_app_iff in H as [H|H]; [auto|].
        right. exists l, errs. auto.
      * right. exists line, errors. auto.
    + intros [H|(line & errors & [Heq|Hin] & Hc & Hx)].
      * left. destruct (PyDict.contains l expected); [assumption|].
        apply in_app_iff. auto.
      * injection Heq as -> ->. left. rewrite Hc. apply in_app_iff. auto.
      * right. exists line, errors. auto.
Qed.

Lemma filter_split_length {A : Type} (f : A -> bool) (l : list A) :
  (length (filter f l) + length (filter (fun x => negb (f x)) l))%nat
  = length l.
Proof.
  induction l as [|x l IH]; simpl; [reflexivity|].
  destruct (f x); simpl; lia.
Qed.

(** The mapping, with its loops resolved. *)
Lemma map_expected_to_actual_normal_form
      (ps : list ExpectedErrorPattern.t) (es : list ParseError.t) :
  _map_expected_to_actual_errors ps es
  = ErrorMapping.mk (len ps) (len es)
      (map (matched_entry es)
           (filter (fun item => has_error_on es (fst item))
                   (expected_by_line_of ps)))
      (map (fun item => ExpectedErrorPattern.pattern (snd item))
           (filter (fun item => negb (has_error_on es (fst item)))
                   (expected_by_line_of ps)))
      (fold_left (find_unexpected (expected_by_line_of ps))
                 (actual_by_line_of es) []).
Proof.
  unfold _map_expected_to_actual_errors. rewrite find_match_fold. reflexivity.
Qed.

(** C10.  The correlation keeps one expected pattern per line number, the
    last one in list order on that line.  Each kept line gives exactly one
    entry: an entry of [matched_errors], with the messages of the parse
    errors on the line, when the line has a parse error, and an entry of
    [unmatched_expected] otherwise; so the two lists together have as many
    entries as there are distinct lines, at most [total_expected], and
    fewer when two patterns share a line.  The message of every parse error
    on a line without expected pattern is in [unexpected_errors]. *)
Theorem expected_actual_correlation :
  (forall (ps : list ExpectedErrorPattern.t) (es : list ParseError.t),
      let retained := expected_by_line_of ps in
      let m := _map_expected_to_actual_errors ps es in
      NoDup (map fst retained)
      /\ (forall l, In l (map fst retained)
                    <-> In l (map ExpectedErrorPattern.line_number ps))
      /\ (forall l p, In (l, p) retained -> last_on_line ps l p)
      /\ ErrorMapping.matched_errors m
         = map (matched_entry es)
               (filter (fun item => has_error_on es (fst item)) retained)
      /\ ErrorMapping.unmatched_expected m
         = map (fun item => ExpectedErrorPattern.pattern (snd item))
               (filter (fun item => negb (has_error_on es (fst item)))
                       retained)
      /\ len (ErrorMapping.matched_errors m)
         + len (ErrorMapping.unmatched_expected m) = len retained
      /\ len retained <= ErrorMapping.total_expected m
      /\ (forall e,
             In e es ->
             ~ In (ParseError.line_number e)
                  (map ExpectedErrorPattern.line_number ps) ->
             In (ParseError.message e) (ErrorMapping.unexpected_errors m)))
  /\ (let m := _map_expected_to_actual_errors two_patterns_one_line [] in
      ErrorMapping.total_expected m = 2
      /\ ErrorMapping.matched_errors m = []
      /\ ErrorMapping.unmatched_expected m = ["second"]).
Proof.
  split; [|vm_compute; auto].
  intros ps es retained m.
  destruct (expected_by_line_spec ps) as (Hn & Hk & Hl).
  fold retained in Hn, Hk, Hl.
  subst m. rewrite map_expected_to_actual_normal_form. fold retained.
  cbn [ErrorMapping.matched_errors ErrorMapping.unmatched_expected
       ErrorMapping.total_expected ErrorMapping.unexpected_errors].
  split; [exact Hn|]. split; [exact Hk|]. split; [exact Hl|].
  split; [reflexivity|]. split; [reflexivity|]. split; [|split].
  - unfold len. rewrite !length_map, <- Nat2Z.inj_add.
    f_equal. apply filter_split_length.
  - unfold len. apply inj_le.
    rewrite <- (length_map fst retained),
      <- (length_map ExpectedErrorPattern.line_number ps).
    apply NoDup_incl_length; [assumption|].
    intros l Hin. now apply Hk.
  - intros e He Hline.
    apply find_unexpected_fold. right.
    set (l := ParseError.line_number e).
    assert (has_error_on es l = true) as Hhas.
    { apply existsb_exists. exists e. split; [assumption|apply Z.eqb_refl]. }
    exists l, (errors_on l es). split; [|split].
    + apply dict_get_In. rewrite get_actual, Hhas. reflexivity.
    + destruct (PyDict.contains l retained) eqn:E; [|reflexivity].
      apply dict_contains_keys, Hk in E. contradiction.
    + apply in_map. apply filter_In. split; [assumption|apply Z.eqb_refl].
Qed.

(* ================================================================== *)
(** * What the matcher accepts *)
(* ================================================================== *)

Lemma string_app_nil_r (s : string) : (s ++ "")%string = s.
Proof. induction s; simpl; congruence. Qed.

Lemma string_app_assoc (a b c : string) :
  ((a ++ b) ++ c)%string = (a ++ b ++ c)%string.
Proof. induction a; simpl; congruence. Qed.

Lemma string_length_app (a b : string) :
  String.length (a ++ b) = (String.length a + String.length b)%nat.
Proof. induction a; simpl; congruence. Qed.

Lemma take_app_exact (a b : string) :
  take (String.length (a ++ b) - String.length b) (a ++ b) = a.
Proof.
  rewrite string_length_app.
  replace (String.length a + String.length b - String.length b)%nat
    with (String.length a) by lia.
  induction a as [|c a IH]; simpl.
  - destruct b; reflexivity.
  - now rewrite IH.
Qed.

Lemma run_Alt (icase : bool) (r1 r2 : regex) (s : string) (g : option string)
      (k : string -> option string -> option mstate) :
  run icase (Alt r1 r2) s g k
  = match run icase r1 s g k with
    | Some x => Some x
    | None => run icase r2 s g k
    end.
Proof. reflexivity. Qed.

Lemma run_Grp (icase : bool) (r : regex) (s : string) (g : option string)
      (k : string -> option string -> option mstate) :
  run icase (Grp r) s g k
  = run icase r s g
        (fun s' _ => k s' (Some (take (String.length s - String.length s') s))).
Proof. reflexivity. Qed.

Lemma run_Ahead (icase : bool) (r : regex) (s : string) (g : option string)
      (k : string -> option string -> option mstate) :
  run icase (Ahead r) s g k
  = match run icase r s g (fun s' g' => Some (s', g')) with
    | Some (_, g') => k s g'
    | None => None
    end.
Proof. reflexivity. Qed.

(** Whatever the backtracking matcher accepts is a match of the pattern. *)
Lemma run_sound (icase : bool) (r : regex) :
  forall (s : string) (g : option string)
         (k : string -> option string -> option mstate) (res : mstate),
    run icase r s g k = Some res ->
    exists s' g', Matches icase r s s' g g' /\ k s' g' = Some res.
Proof.
  induction r as [p|cl min greedy|r1 IH1 r2 IH2|r1 IH1 r2 IH2|r IH|r IH];
    intros s g k res H.
  - rewrite run_Lit in H.
    destruct (lit_match icase p s) as [s'|] eqn:L; [|discriminate].
    exists s', g. split; [now constructor|assumption].
  - rewrite run_Rep in H.
    apply rep_match_inv in H as (pre & rest & -> & Hall & Hmin & Hk).
    exists rest, g. split; [now constructor|assumption].
  - rewrite run_Cat in H.
    apply IH1 in H as (s1 & g1 & M1 & H).
    apply IH2 in H as (s2 & g2 & M2 & H).
    exists s2, g2. split; [econstructor; eassumption|assumption].
  - rewrite run_Alt in H.
    destruct (run icase r1 s g k) as [x|] eqn:E.
    + injection H as <-. apply IH1 in E as (s' & g' & M & Hk).
      exists s', g'. split; [now apply M_AltL|assumption].
    + apply IH2 in H as (s' & g' & M & Hk).
      exists s', g'. split; [now apply M_AltR|assumption].
  - rewrite run_Grp in H.
    apply IH in H as (s' & g' & M & Hk).
    eexists s', _. split; [econstructor; eassumption|exact Hk].
  - rewrite run_Ahead in H.
    destruct (run icase r s g (fun s' g' => Some (s', g'))) as [[s1 g1]|] eqn:E;
      [|discriminate].
    apply IH in E as (s' & g' & M & Hk). injection Hk as -> ->.
    exists s, g1. split; [econstructor; eassumption|assumption].
Qed.

Lemma lit_match_suffix (icase : bool) (p s s' : string) :
  lit_match icase p s = Some s' -> Suffix s' s.
Proof.
  revert s; induction p as [|a p IH]; intros s H; simpl in H.
  - injection H as <-. now exists "".
  - destruct s as [|b s]; [discriminate|].
    destruct (char_eq icase a b); [|discriminate].
    destruct (IH _ H) as [pre ->]. now exists (String b pre).
Qed.

Lemma Suffix_trans (a b c : string) : Suffix a b -> Suffix b c -> Suffix a c.
Proof.
  intros [p ->] [q ->]. exists (q ++ p)%string. now rewrite string_app_assoc.
Qed.

Lemma Matches_suffix (icase : bool) (r : regex) (s s' : string)
      (g g' : option string) :
  Matches icase r s s' g g' -> Suffix s' s.
Proof.
  induction 1.
  - eapply lit_match_suffix; eassumption.
  - now exists pre.
  - eapply Suffix_trans; eassumption.
  - assumption.
  - assumption.
  - assumption.
  - now exists "".
Qed.

(** [re.match] returns a match of the pattern: the text matched, followed
    by the rest, is the input. *)
Lemma re_match_sound (icase : bool) (r : regex) (s : string) (m : match_obj) :
  re_match icase r s = Some m ->
  Matches icase r s (rest m) None (group1 m)
  /\ s = (group0 m ++ rest m)%string.
Proof.
  unfold re_match.
  destruct (run icase r s None (fun s' g => Some (s', g))) as [[s' g]|] eqn:E;
    [|discriminate].
  intros [= <-]. simpl.
  apply run_sound in E as (s1 & g1 & M & [= -> ->]).
  split; [assumption|].
  destruct (Matches_suffix _ _ _ _ _ _ M) as [pre ->].
  now rewrite take_app_exact.
Qed.

Lemma re_search_sound (icase : bool) (r : regex) (s : string) (m : match_obj) :
  re_search icase r s = Some m ->
  exists before,
    s = (before ++ group0 m ++ rest m)%string
    /\ Matches icase r (group0 m ++ rest m) (rest m) None (group1 m).
Proof.
  induction s as [|c s IH]; simpl.
  - destruct (re_match icase r "") as [m'|] eqn:E; [|discriminate].
    intros [= ->]. apply re_match_sound in E as [M E]. exists "".
    split; [exact E|now rewrite <- E].
  - destruct (re_match icase r (String c s)) as [m'|] eqn:E.
    + intros [= ->]. apply re_match_sound in E as [M E]. exists "".
      split; [exact E|now rewrite <- E].
    + intros H. destruct (IH H) as (before & -> & M).
      exists (String c before). split; [reflexivity|assumption].
Qed.

(** Every item of [re.findall] comes from a match of the pattern at some
    position of the text. *)
Lemma findall_go_sound (icase : bool) (r : regex) (x : string) :
  forall (s : string) (skip : nat),
    In x (findall_go icase r skip s) ->
    exists before m,
      s = (before ++ group0 m ++ rest m)%string
      /\ Matches icase r (group0 m ++ rest m) (rest m) None (group1 m)
      /\ x = findall_item r m.
Proof.
  induction s as [|c s IH]; intros skip H.
  - destruct skip; simpl in H; [|contradiction].
    destruct (re_match icase r "") as [m|] eqn:E; [|contradiction].
    destruct H as [<-|[]].
    apply re_match_sound in E as [M E]. exists "", m.
    split; [exact E|]. split; [now rewrite <- E|reflexivity].
  - destruct skip as [|n]; simpl in H.
    + destruct (re_match icase r (String c s)) as [m|] eqn:E.
      * destruct H as [<-|H].
        -- apply re_match_sound in E as [M E]. exists "", m.
           split; [exact E|]. split; [now rewrite <- E|reflexivity].
        -- destruct (IH _ H) as (before & m' & -> & M & Hx).
           exists (String c before), m'. auto.
      * destruct (IH _ H) as (before & m' & -> & M & Hx).
        exists (String c before), m'. auto.
    + destruct (IH _ H) as (before & m' & -> & M & Hx).
      exists (String c before), m'. auto.
Qed.

(* ================================================================== *)
(** * Flags and runtime calls *)
(* ================================================================== *)

Lemma all_chars_ext (p q : ascii -> bool) (s : string) :
  (forall c, p c = q c) -> all_chars p s = all_chars q s.
Proof. intros H. induction s as [|c s IH]; simpl; [reflexivity|]. now rewrite H, IH. Qed.

Lemma flag_class_chars (c : ascii) :
  cmatch (CRanges (letters ++ [("0", "9"); ("-", "-")]%char)) c = flag_char c.
Proof.
  unfold cmatch, flag_char, letters. cbn [app existsb fst snd].
  change (ord "a") with 97%nat. change (ord "z") with 122%nat.
  change (ord "A") with 65%nat. change (ord "Z") with 90%nat.
  change (ord "0") with 48%nat. change (ord "9") with 57%nat.
  change (ord "-") with 45%nat.
  rewrite orb_false_r, !orb_assoc. f_equal.
  unfold between. destruct (Nat.eqb_spec (ord c) 45) as [->|H].
  - reflexivity.
  - destruct (Nat.leb_spec 45 (ord c)), (Nat.leb_spec (ord c) 45);
      simpl; try reflexivity. lia.
Qed.

Lemma ident_class_chars (c : ascii) :
  cmatch (CRanges (letters ++ [("_", "_")]%char)) c = ident_char c.
Proof.
  unfold cmatch, ident_char, letters. cbn [app existsb fst snd].
  change (ord "a") with 97%nat. change (ord "z") with 122%nat.
  change (ord "A") with 65%nat. change (ord "Z") with 90%nat.
  change (ord "_") with 95%nat.
  rewrite orb_false_r, !orb_assoc. f_equal.
  unfold between. destruct (Nat.eqb_spec (ord c) 95) as [->|H].
  - reflexivity.
  - destruct (Nat.leb_spec 95 (ord c)), (Nat.leb_spec (ord c) 95);
      simpl; try reflexivity. lia.
Qed.

Lemma length_zero_empty (s : string) : (1 <= String.length s)%nat -> s <> "".
Proof. destruct s; simpl; [lia|discriminate]. Qed.

Lemma lit_match_empty (icase : bool) (s s' : string) :
  lit_match icase "" s = Some s' -> s = s'.
Proof. simpl. congruence. Qed.

Lemma Matches_Lit_inv (icase : bool) (p s s' : string) (g g' : option string) :
  Matches icase (Lit p) s s' g g' -> lit_match icase p s = Some s' /\ g' = g.
Proof. inversion 1; subst; auto. Qed.

Lemma Matches_Rep_inv (icase : bool) (cl : cclass) (min : nat) (greedy : bool)
      (s s' : string) (g g' : option string) :
  Matches icase (Rep cl min greedy) s s' g g' ->
  exists pre,
    s = (pre ++ s')%string /\ all_chars (cmatch cl) pre = true
    /\ (min <= String.length pre)%nat /\ g' = g.
Proof. inversion 1; subst. eexists; eauto. Qed.

Lemma Matches_Cat_inv (icase : bool) (r1 r2 : regex) (s s' : string)
      (g g' : option string) :
  Matches icase (Cat r1 r2) s s' g g' ->
  exists s1 g1, Matches icase r1 s s1 g g1 /\ Matches icase r2 s1 s' g1 g'.
Proof. inversion 1; subst. eauto. Qed.

Lemma Matches_Alt_inv (icase : bool) (r1 r2 : regex) (s s' : string)
      (g g' : option string) :
  Matches icase (Alt r1 r2) s s' g g' ->
  Matches icase r1 s s' g g' \/ Matches icase r2 s s' g g'.
Proof. inversion 1; subst; auto. Qed.

Lemma Matches_Grp_inv (icase : bool) (r : regex) (s s' : string)
      (g g' : option string) :
  Matches icase (Grp r) s s' g g' ->
  g' = Some (take (String.length s - String.length s') s)
  /\ exists g0, Matches icase r s s' g g0.
Proof. inversion 1; subst. eauto. Qed.

Lemma Matches_Ahead_inv (icase : bool) (r : regex) (s s' : string)
      (g g' : option string) :
  Matches icase (Ahead r) s s' g g' ->
  s' = s /\ exists s1, Matches icase r s s1 g g'.
Proof. inversion 1; subst. eauto. Qed.

(** What [flag_re] matches and captures. *)
Lemma flag_re_shape (s s' : string) (g : option string) :
  Matches false flag_re s s' None g ->
  exists body,
    g = Some ("-" ++ body)%string
    /\ s = ("-" ++ body ++ s')%string
    /\ body <> "" /\ all_chars flag_char body = true.
Proof.
  unfold flag_re, seq, plus. cbn [fold_right]. intros M.
  apply Matches_Grp_inv in M as (-> & g0 & M).
  apply Matches_Cat_inv in M as (s1 & g1 & ML & M).
  apply Matches_Cat_inv in M as (s2 & g2 & MP & ME).
  apply Matches_Lit_inv in ML as [HL _].
  apply Matches_Rep_inv in MP as (pre & -> & Hall & Hmin & _).
  apply Matches_Lit_inv in ME as [HE _].
  apply lit_match_empty in HE. subst s2.
  apply lit_match_inv in HL. subst s.
  exists pre. split; [|split; [reflexivity|split]].
  - f_equal.
    change ("-" ++ pre ++ s')%string with (("-" ++ pre) ++ s')%string.
    apply take_app_exact.
  - now apply length_zero_empty.
  - rewrite <- Hall. apply all_chars_ext. intros c. symmetry.
    apply flag_class_chars.
Qed.

Lemma Substring_middle (before sub after : string) :
  Substring sub (before ++ sub ++ after).
Proof. now exists before, after. Qed.

Lemma pyset_update_spec (s xs : list string) :
  NoDup s ->
  NoDup (PySet.update s xs)
  /\ (forall y, In y (PySet.update s xs) <-> In y s \/ In y xs).
Proof.
  intros Hs. destruct (pyset_fold_spec (fun x => x) xs s Hs) as [Hn Hi].
  split; [exact Hn|]. intros y. unfold PySet.update. rewrite Hi, map_id.
  reflexivity.
Qed.

Lemma pyset_update_length (xs s : list string) :
  (length (PySet.update s xs) <= length s + length xs)%nat.
Proof.
  unfold PySet.update. revert s; induction xs as [|x xs IH]; intros s; simpl.
  - lia.
  - specialize (IH (PySet.add x s)).
    assert (length (PySet.add x s) <= S (length s))%nat.
    { unfold PySet.add. destruct (PySet.mem x s); [lia|].
      rewrite length_app. simpl. lia. }
    lia.
Qed.

Section UpdateFold.
Context {A : Type} (items : A -> list string).

Lemma pyset_update_fold_spec (l : list A) (s : list string) :
  NoDup s ->
  NoDup (fold_left (fun acc a => PySet.update acc (items a)) l s)
  /\ (forall y,
         In y (fold_left (fun acc a => PySet.update acc (items a)) l s)
         <-> In y s \/ exists a, In a l /\ In y (items a)).
Proof.
  revert s; induction l as [|a l IH]; intros s Hs; simpl.
  - split; [assumption|]. intros y. split; [auto|].
    intros [H|(a & [] & _)]. assumption.
  - destruct (pyset_update_spec s (items a) Hs) as [Hn Hi].
    destruct (IH _ Hn) as [Hn' Hi'].
    split; [assumption|]. intros y. rewrite Hi', Hi. split.
    + intros [[H|H]|(b & Hb & H)]; [auto| |].
      * right. exists a. auto.
      * right. exists b. auto.
    + intros [H|(b & [<-|Hb] & H)]; [auto|auto|].
      right. exists b. auto.
Qed.

End UpdateFold.

(** X1.  The compiler flags have no duplicates; they are the texts the flag
    pattern captures in some RUN command, and each of them is a dash
    followed by one or more letters, digits or dashes, taken from a RUN
    command. *)
Theorem compiler_flags_well_formed (rt : SetOrder)
        (run_commands : list string) :
  let flags := _extract_compiler_flags rt run_commands in
  NoDup flags
  /\ (forall f, In f flags
                <-> exists cmd, In cmd run_commands
                                /\ In f (findall false flag_re cmd))
  /\ Forall (fun f => well_formed_flag f
                      /\ exists cmd, In cmd run_commands /\ Substring f cmd)
            flags.
Proof.
  intros flags. subst flags. unfold _extract_compiler_flags.
  destruct (pyset_update_fold_spec (findall false flag_re) run_commands []
              (NoDup_nil _)) as [Hn Hi].
  pose proof (set_to_list_perm rt
                (fold_left (fun flags cmd =>
                              PySet.update flags (findall false flag_re cmd))
                           run_commands [])) as P.
  assert (forall f,
             In f (set_to_list rt
                     (fold_left (fun flags cmd =>
                                   PySet.update flags
                                     (findall false flag_re cmd))
                                run_commands []))
             <-> exists cmd, In cmd run_commands
                             /\ In f (findall false flag_re cmd)) as Hin.
  { intros f. split.
    - intros H. apply (Permutation_in _ P) in H. apply Hi in H as [[]|H].
      exact H.
    - intros H. apply (Permutation_in _ (Permutation_sym P)). apply Hi. auto. }
  split; [|split].
  - eapply Permutation_NoDup; [apply Permutation_sym; exact P|exact Hn].
  - exact Hin.
  - apply Forall_forall. intros f Hf. apply Hin in Hf as (cmd & Hcmd & Hf).
    apply findall_go_sound in Hf as (before & m & E & M & ->).
    apply flag_re_shape in M as (body & Hg & Hs & Hne & Hall).
    assert (findall_item flag_re m = ("-" ++ body)%string) as ->
        by (unfold findall_item; simpl; now rewrite Hg).
    split; [now exists body|].
    exists cmd. split; [assumption|].
    rewrite E, Hs.
    change ("-" ++ body ++ rest m)%string
      with (("-" ++ body) ++ rest m)%string.
    apply Substring_middle.
Qed.

(** What [runtime_re] matches and captures. *)
Lemma runtime_re_shape (s s' : string) (g : option string) :
  Matches false runtime_re s s' None g ->
  exists name,
    g = Some name /\ s = ("@" ++ name ++ s')%string /\ runtime_call_name name.
Proof.
  unfold runtime_re, seq, plus. cbn [fold_right]. intros M.
  apply Matches_Cat_inv in M as (s1 & g1 & ML & M).
  apply Matches_Cat_inv in M as (s2 & g2 & MG & ME).
  apply Matches_Lit_inv in ML as [HL _].
  apply lit_match_inv in HL. subst s.
  apply Matches_Lit_inv in ME as [HE ->].
  apply lit_match_empty in HE. subst s2.
  apply Matches_Grp_inv in MG as (-> & g0 & M).
  assert (exists prefix body,
             (prefix = "__kmpc_" \/ prefix = "omp_")
             /\ s1 = (prefix ++ body ++ s')%string
             /\ body <> "" /\ all_chars ident_char body = true)
    as (prefix & body & Hp & -> & Hne & Hall).
  { apply Matches_Alt_inv in M as [M|M];
      apply Matches_Cat_inv in M as (t1 & h1 & ML & M);
      apply Matches_Cat_inv in M as (t2 & h2 & MP & ME);
      apply Matches_Lit_inv in ML as [HL _];
      apply lit_match_inv in HL;
      apply Matches_Rep_inv in MP as (pre & -> & Hall & Hmin & _);
      apply Matches_Lit_inv in ME as [HE _];
      apply lit_match_empty in HE; subst t2.
    - exists "__kmpc_", pre. repeat split; auto.
      + now apply length_zero_empty.
      + rewrite <- Hall. apply all_chars_ext. intros c. symmetry.
        apply ident_class_chars.
    - exists "omp_", pre. repeat split; auto.
      + now apply length_zero_empty.
      + rewrite <- Hall. apply all_chars_ext. intros c. symmetry.
        apply ident_class_chars. }
  exists (prefix ++ body)%string.
  split; [|split].
  - f_equal. rewrite <- string_app_assoc. apply take_app_exact.
  - now rewrite string_app_assoc.
  - exists body. split; [|auto]. destruct Hp as [-> | ->]; auto.
Qed.

Lemma flat_map_at_most_one {A B : Type} (f : A -> list B) (l : list A) :
  (forall a, length (f a) <= 1)%nat ->
  (length (flat_map f l) <= length l)%nat.
Proof.
  intros H. induction l as [|a l IH]; simpl; [lia|].
  rewrite length_app. specialize (H a). lia.
Qed.

(** X2.  The runtime calls have no duplicates; each is [__kmpc_] or [omp_]
    followed by letters and underscores and stands after an [@] in a check
    pattern; a check pattern contributes its first call only, so there are
    at most as many calls as check patterns. *)
Theorem runtime_calls_well_formed (rt : SetOrder)
        (check_patterns : list string) :
  let calls := _extract_runtime_calls rt check_patterns in
  NoDup calls
  /\ Forall (fun c => runtime_call_name c
                      /\ exists p, In p check_patterns
                                   /\ Substring ("@" ++ c) p)
            calls
  /\ len calls <= len check_patterns.
Proof.
  intros calls. subst calls. unfold _extract_runtime_calls.
  set (found := flat_map
                  (fun pattern =>
                     match re_search false runtime_re pattern with
                     | Some runtime_match => [group_1 runtime_match]
                     | None => []
                     end) check_patterns).
  destruct (pyset_update_spec [] found (NoDup_nil _)) as [Hn Hi].
  fold (PySet.of_list found) in Hn, Hi.
  pose proof (set_to_list_perm rt (PySet.of_list found)) as P.
  split; [|split].
  - eapply Permutation_NoDup; [apply Permutation_sym; exact P|exact Hn].
  - apply Forall_forall. intros c Hc.
    apply (Permutation_in _ P) in Hc. apply Hi in Hc as [[]|Hc].
    subst found. apply in_flat_map in Hc as (p & Hp & Hc).
    destruct (re_search false runtime_re p) as [m|] eqn:E; [|contradiction].
    destruct Hc as [<-|[]].
    apply re_search_sound in E as (before & Ep & M).
    apply runtime_re_shape in M as (name & Hg & Hs & Hname).
    assert (group_1 m = name) as -> by (unfold group_1; now rewrite Hg).
    split; [assumption|]. exists p. split; [assumption|].
    rewrite Ep, Hs.
    change ("@" ++ name ++ rest m)%string
      with (("@" ++ name) ++ rest m)%string.
    apply Substring_middle.
  - unfold len. apply inj_le.
    rewrite (Permutation_length P).
    pose proof (pyset_update_length found []) as L. simpl in L.
    unfold PySet.of_list.
    assert (length found <= length check_patterns)%nat.
    { subst found. apply flat_map_at_most_one. intros p.
      destruct (re_search false runtime_re p); simpl; lia. }
    lia.
Qed.

(* ================================================================== *)
(** * Compiler stage *)
(* ================================================================== *)

Lemma string_app_split (a b c d : string) :
  (a ++ b)%string = (c ++ d)%string ->
  (exists m, a = (c ++ m)%string /\ d = (m ++ b)%string)
  \/ (exists m, c = (a ++ m)%string /\ b = (m ++ d)%string).
Proof.
  revert c; induction a as [|x a IH]; intros c H.
  - right. exists c. auto.
  - destruct c as [|y c].
    + left. exists (String x a). auto.
    + simpl in H. injection H as -> H.
      destruct (IH _ H) as [(m & -> & ->)|(m & -> & ->)].
      * left. exists m. auto.
      * right. exists m. auto.
Qed.

Lemma lower_app (a b : string) : lower (a ++ b) = (lower a ++ lower b)%string.
Proof. induction a as [|c a IH]; simpl; [reflexivity|]. now rewrite IH. Qed.

Lemma lower_join_blank (l : list string) :
  lower (join " " l) = join " " (map lower l).
Proof.
  unfold join. induction l as [|x l IH]; [reflexivity|].
  destruct l as [|y l]; [reflexivity|].
  change (lower (x ++ " " ++ String.concat " " (y :: l))
          = (lower x ++ " " ++ String.concat " " (map lower (y :: l)))%string).
  now rewrite !lower_app, IH.
Qed.

(** A text without blank that occurs in two texts joined by a blank occurs
    in one of them. *)
Lemma Substring_blank_joined (k a b : string) :
  all_chars (fun c => negb (is_blank c)) k = true ->
  Substring k (a ++ " " ++ b) -> Substring k a \/ Substring k b.
Proof.
  intros Hk (pre & post & E).
  apply string_app_split in E as [(m & -> & E)|(m & -> & E)].
  - apply string_app_split in E as [(m' & -> & E)|(m' & -> & E)].
    + destruct m' as [|c m'].
      * left. exists pre, "". now rewrite !string_app_nil_r.
      * simpl in E. injection E as <- _. exfalso.
        clear -Hk. induction m as [|x m IH]; simpl in Hk.
        -- discriminate.
        -- apply andb_true_iff in Hk as [_ Hk]. auto.
    + left. exists pre, m'. reflexivity.
  - destruct m as [|c m].
    + simpl in E. destruct k as [|x k].
      * left. exists a, "". now rewrite string_app_nil_r.
      * simpl in E. injection E as <- _. simpl in Hk. discriminate.
    + simpl in E. injection E as _ ->. right. now exists m, post.
Qed.

Lemma Substring_app_l (k a b : string) : Substring k a -> Substring k (a ++ b).
Proof.
  intros (pre & post & ->). exists pre, (post ++ b)%string.
  now rewrite !string_app_assoc.
Qed.

Lemma Substring_app_r (k a b : string) : Substring k b -> Substring k (a ++ b).
Proof.
  intros (pre & post & ->). exists (a ++ pre)%string, post.
  now rewrite !string_app_assoc.
Qed.

Lemma Substring_join_blank (k : string) (l : list string) :
  k <> "" ->
  all_chars (fun c => negb (is_blank c)) k = true ->
  Substring k (join " " l) <-> exists x, In x l /\ Substring k x.
Proof.
  intros Hne Hk. unfold join. induction l as [|x l IH].
  - simpl. split.
    + intros (pre & post & E). destruct pre; [|discriminate].
      destruct k; [congruence|discriminate].
    + intros (x & [] & _).
  - destruct l as [|y l].
    + simpl. split; [intros H; exists x; auto|].
      intros (z & [<-|[]] & H). exact H.
    + change (String.concat " " (x :: y :: l))
        with (x ++ " " ++ String.concat " " (y :: l))%string.
      split.
      * intros H. apply Substring_blank_joined in H as [H|H]; [| |assumption].
        -- exists x. split; [now left|assumption].
        -- apply IH in H as (z & Hz & H). exists z. split; [now right|assumption].
      * intros (z & [<-|Hz] & H).
        -- now apply Substring_app_l.
        -- apply Substring_app_r, Substring_app_r. apply IH. eauto.
Qed.

Lemma str_in_joined_commands (k : string) (run_commands : list string) :
  k <> "" ->
  all_chars (fun c => negb (is_blank c)) k = true ->
  str_in k (lower (join " " run_commands)) = some_command_has k run_commands.
Proof.
  intros Hne Hk. unfold some_command_has. rewrite lower_join_blank.
  apply eq_true_iff_eq. rewrite str_in_spec, (Substring_join_blank _ _ Hne Hk).
  rewrite existsb_exists. split.
  - intros (x & Hx & H). apply in_map_iff in Hx as (cmd & <- & Hcmd).
    exists cmd. split; [assumption|now apply str_in_spec].
  - intros (cmd & Hcmd & H). exists (lower cmd).
    split; [now apply in_map|now apply str_in_spec].
Qed.

(** X3.  The compiler stage depends on the RUN commands one by one: joining
    them neither hides nor creates a keyword, and the body of the file is
    not read. The stage is SEMA when some command contains [-fsyntax-only]
    or [-verify], else AST_PRINT for [-ast-print] or [-ast-dump], else
    CODEGEN for [-emit-llvm] or [filecheck], else PARSE for [parse], else
    UNKNOWN; letters compare without case. *)
Theorem compiler_stage_per_command (run_commands : list string)
        (content : string) :
  _determine_compiler_stage run_commands content
  = if (some_command_has "-fsyntax-only" run_commands
        || some_command_has "-verify" run_commands)%bool then SEMA
    else if (some_command_has "-ast-print" run_commands
             || some_command_has "-ast-dump" run_commands)%bool then AST_PRINT
    else if (some_command_has "-emit-llvm" run_commands
             || some_command_has "filecheck" run_commands)%bool then CODEGEN
    else if some_command_has "parse" run_commands then PARSE
    else UNKNOWN.
Proof.
  unfold _determine_compiler_stage.
  rewrite !str_in_joined_commands by (reflexivity || discriminate).
  reflexivity.
Qed.

(* ================================================================== *)
(** * Coverage areas and expected patterns *)
(* ================================================================== *)

Section ConditionalAdd.
Context {A : Type} (cond : A -> bool) (key : A -> string).

Lemma conditional_add_filter (l : list A) (s : list string) :
  fold_left (fun s a => if cond a then PySet.add (key a) s else s) l s
  = fold_left (fun s a => PySet.add (key a) s) (filter cond l) s.
Proof.
  revert s; induction l as [|a l IH]; intros s; simpl; [reflexivity|].
  destruct (cond a); simpl; apply IH.
Qed.

Lemma conditional_add_spec (l : list A) (s : list string) :
  NoDup s ->
  NoDup (fold_left (fun s a => if cond a then PySet.add (key a) s else s) l s)
  /\ (forall y,
         In y (fold_left
                 (fun s a => if cond a then PySet.add (key a) s else s) l s)
         <-> In y s \/ exists a, In a l /\ cond a = true /\ key a = y).
Proof.
  intros Hs. rewrite conditional_add_filter.
  destruct (pyset_fold_spec key (filter cond l) s Hs) as [Hn Hi].
  split; [assumption|]. intros y. rewrite Hi. split.
  - intros [H|H]; [auto|]. right.
    apply in_map_iff in H as (a & <- & Ha). apply filter_In in Ha as [Ha Hc].
    exists a. auto.
  - intros [H|(a & Ha & Hc & <-)]; [auto|]. right.
    apply in_map. apply filter_In. auto.
Qed.

End ConditionalAdd.

(** X4.  The coverage areas have no duplicates and are exactly: the
    construct keywords that occur in the lower-cased body, and [c_clause]
    for the clause keywords [c] that occur in it. *)
Theorem coverage_areas_characterised (rt : SetOrder) (content : string) :
  let areas := _identify_error_coverage_areas rt content in
  NoDup areas
  /\ (forall x,
         In x areas
         <-> (In x openmp_constructs /\ Substring x (lower content))
             \/ (exists clause,
                    In clause openmp_clauses
                    /\ Substring clause (lower content)
                    /\ x = (clause ++ "_clause")%string)).
Proof.
  intros areas. subst areas. unfold _identify_error_coverage_areas.
  set (body := lower content).
  destruct (conditional_add_spec (fun c => str_in c body) (fun c => c)
              openmp_constructs [] (NoDup_nil _)) as [Hn1 Hi1].
  destruct (conditional_add_spec (fun c => str_in c body)
              (fun c => (c ++ "_clause")%string)
              openmp_clauses _ Hn1) as [Hn2 Hi2].
  pose proof (set_to_list_perm rt
     (fold_left
        (fun s clause =>
           if str_in clause body
           then PySet.add (clause ++ "_clause")%string s else s)
        openmp_clauses
        (fold_left
           (fun s construct =>
              if str_in construct body then PySet.add construct s else s)
           openmp_constructs []))) as P.
  split.
  - eapply Permutation_NoDup; [apply Permutation_sym; exact P|exact Hn2].
  - intros x. split.
    + intros H. apply (Permutation_in _ P) in H.
      apply Hi2 in H as [H|(c & Hc & Hb & <-)].
      * apply Hi1 in H as [[]|(c & Hc & Hb & <-)].
        left. split; [assumption|now apply str_in_spec].
      * right. exists c. repeat split; [assumption|now apply str_in_spec].
    + intros H. apply (Permutation_in _ (Permutation_sym P)). apply Hi2.
      destruct H as [[Hc Hb]|(c & Hc & Hb & ->)].
      * left. apply Hi1. right. exists x.
        repeat split; [assumption|now apply str_in_spec].
      * right. exists c. repeat split; [assumption|now apply str_in_spec].
Qed.

Lemma expected_patterns_of (parse_errors : list ParseError.t)
      (expected_errors : list string) (content : string) :
  ErrorPatterns.expected_patterns
    (_categorize_error_patterns parse_errors expected_errors content)
  = flat_map (patterns_on_line expected_errors)
             (enumerate 1 (splitlines content)).
Proof.
  unfold _categorize_error_patterns. simpl.
  apply flat_map_ext. intros [i line]. reflexivity.
Qed.

Lemma patterns_on_line_In (expected_errors : list string) (i : Z)
      (line : string) (p : ExpectedErrorPattern.t) :
  In p (patterns_on_line expected_errors (i, line))
  <-> exists expected,
        In expected expected_errors
        /\ Substring expected line
        /\ p = ExpectedErrorPattern.mk expected
                 (_classify_expected_error expected)
                 (_extract_regex_pattern expected) i.
Proof.
  unfold patterns_on_line. rewrite in_flat_map. simpl. split.
  - intros (e & He & H). destruct (str_in e line) eqn:E; [|contradiction].
    destruct H as [<-|[]]. exists e. repeat split; [assumption|].
    now apply str_in_spec.
  - intros (e & He & Hs & ->). exists e. split; [assumption|].
    apply str_in_spec in Hs. rewrite Hs. now left.
Qed.

Lemma enumerate_In {A : Type} (l : list A) (start i : Z) (x : A) :
  In (i, x) (enumerate start l)
  <-> start <= i < start + len l
      /\ nth_error l (Z.to_nat (i - start)) = Some x.
Proof.
  revert start; induction l as [|y l IH]; intros start; simpl.
  - unfold len. simpl. split; [contradiction|lia].
  - rewrite IH. unfold len. simpl length. split.
    + intros [[= <- <-]|[Hr Hn]].
      * rewrite Z.sub_diag. split; [lia|reflexivity].
      * split; [lia|].
        replace (i - start) with (Z.succ (i - (start + 1))) by lia.
        rewrite Z2Nat.inj_succ by lia. exact Hn.
    + intros [Hr Hn]. destruct (Z.eq_dec i start) as [->|Hne].
      * rewrite Z.sub_diag in Hn. simpl in Hn. left. congruence.
      * right. split; [lia|].
        replace (i - start) with (Z.succ (i - (start + 1))) in Hn by lia.
        rewrite Z2Nat.inj_succ in Hn by lia. exact Hn.
Qed.

Lemma sorted_lines_from (expected_errors : list string) (lines : list string)
      (start : Z) :
  let ps := flat_map (patterns_on_line expected_errors)
                     (enumerate start lines) in
  Sorted Z.le (map ExpectedErrorPattern.line_number ps)
  /\ Forall (fun p => start <= ExpectedErrorPattern.line_number p) ps.
Proof.
  revert start; induction lines as [|l lines IH]; intros start; simpl.
  - split; constructor.
  - destruct (IH (start + 1)) as [Hs Hf].
    set (later := flat_map (patterns_on_line expected_errors)
                           (enumerate (start + 1) lines)) in *.
    assert (Forall (fun p => ExpectedErrorPattern.line_number p = start)
                   (patterns_on_line expected_errors (start, l))) as Hhere.
    { apply Forall_forall. intros p Hp.
      apply patterns_on_line_In in Hp as (e & _ & _ & ->). reflexivity. }
    split.
    + induction (patterns_on_line expected_errors (start, l)) as [|p here IHh];
        simpl; [assumption|].
      inversion Hhere as [|? ? Hp Hrest]; subst.
      constructor; [now apply IHh|].
      destruct here as [|q here]; simpl.
      * destruct later as [|q later]; simpl; constructor.
        inversion Hf; subst. lia.
      * constructor. inversion Hrest; subst. lia.
    + apply Forall_app. split.
      * eapply Forall_impl; [|exact Hhere]. intros p. cbv beta. lia.
      * eapply Forall_impl; [|exact Hf]. intros p. cbv beta. lia.
Qed.

(** X5.  The expected patterns: each binds one of the expected-error texts
    to a line on which the text occurs, with a valid 1-based line number;
    the patterns come in line order; and a text yields a pattern for every
    line on which it occurs. *)
Theorem expected_patterns_bind_lines (parse_errors : list ParseError.t)
        (expected_errors : list string) (content : string) :
  let lines := splitlines content in
  let ps :=
    ErrorPatterns.expected_patterns
      (_categorize_error_patterns parse_errors expected_errors content) in
  Forall (bound_to_line expected_errors lines) ps
  /\ Sorted Z.le (map ExpectedErrorPattern.line_number ps)
  /\ (forall i line expected,
         nth_error lines i = Some line ->
         In expected expected_errors ->
         Substring expected line ->
         In (ExpectedErrorPattern.mk expected
               (_classify_expected_error expected)
               (_extract_regex_pattern expected)
               (Z.of_nat i + 1)) ps).
Proof.
  intros lines ps. subst ps lines. rewrite expected_patterns_of.
  split; [|split].
  - apply Forall_forall. intros p Hp.
    apply in_flat_map in Hp as ([i line] & Hil & Hp).
    apply enumerate_In in Hil as [Hr Hn].
    apply patterns_on_line_In in Hp as (e & He & Hs & ->).
    exists line. simpl. repeat split; try assumption; lia.
  - apply (sorted_lines_from expected_errors (splitlines content) 1).
  - intros i line expected Hn He Hs.
    apply in_flat_map. exists (Z.of_nat i + 1, line). split.
    + apply enumerate_In. split.
      * assert (i < length (splitlines content))%nat
          by (apply nth_error_Some; congruence).
        unfold len. lia.
      * replace (Z.of_nat i + 1 - 1) with (Z.of_nat i) by lia.
        now rewrite Nat2Z.id.
    + apply patterns_on_line_In. exists expected. auto.
Qed.

(* ================================================================== *)
(** * The traversal of the tree *)
(* ================================================================== *)

(** Induction on a tree, with the property known for the children. *)
Lemma Cursor_induction (P : Clang.Cursor -> Prop) :
  (forall d children, Forall P children -> P (Clang.Node d children)) ->
  forall c, P c.
Proof.
  intros H.
  fix IH 1. intros [d children]. apply H.
  induction children as [|c cs IHcs]; constructor; [apply IH|exact IHcs].
Qed.

Lemma traverse_node (d : Clang.CursorData) (children : list Clang.Cursor)
      (patterns : ASTExtractor.Patterns) (depth : Z) :
  ASTExtractor._traverse_ast (Clang.Node d children) patterns depth
  = if 100 <? depth then patterns
    else
      match Clang.kind d with
      | None => patterns
      | Some k =>
          let patterns :=
            ASTExtractor.append_ast_node
              (node_summary (Clang.Node d children) k) patterns in
          let specific :=
            match k with
            | Clang.FUNCTION_DECL =>
                ASTExtractor._extract_function_declaration
                  (Clang.Node d children) patterns
            | Clang.VAR_DECL =>
                ASTExtractor._extract_variable_declaration d patterns
            | Clang.INCLUSION_DIRECTIVE =>
                Some (ASTExtractor._extract_include d patterns)
            | _ => Some patterns
            end in
          match specific with
          | None => patterns
          | Some patterns =>
              fold_left
                (fun p child => ASTExtractor._traverse_ast child p (depth + 1))
                children (ASTExtractor._extract_openmp_pragmas d patterns)
          end
      end.
Proof.
  cbn [ASTExtractor._traverse_ast].
  destruct (100 <? depth); [reflexivity|].
  destruct (Clang.kind d) as [k|]; [|reflexivity].
  cbv zeta. unfold node_summary. cbn [Clang.data_of Clang.get_children].
  match goal with
  | |- match ?s with Some _ => _ | None => _ end = _ => destruct s as [p|]
  end; [|reflexivity].
  generalize (ASTExtractor._extract_openmp_pragmas d p).
  induction children as [|c cs IH]; intros q; simpl; [reflexivity|].
  apply IH.
Qed.

Lemma parameters_of_raises (children : list Clang.Cursor) :
  ASTExtractor.parameters_of children = None
  <-> existsb kind_unreadable children = true.
Proof.
  induction children as [|c cs IH]; simpl.
  - split; discriminate.
  - unfold kind_unreadable at 1.
    destruct (Clang.kind (Clang.data_of c)) as [k|]; simpl.
    + rewrite <- IH. destruct (ASTExtractor.parameters_of cs).
      * destruct k; split; discriminate.
      * split; reflexivity.
    + split; reflexivity.
Qed.

Lemma traverse_children (levels : nat) (depth : Z)
      (children : list Clang.Cursor) :
  Forall (fun c => forall p,
              traversed levels c p (ASTExtractor._traverse_ast c p depth))
         children ->
  forall p,
    let q := fold_left (fun p child => ASTExtractor._traverse_ast child p depth)
                       children p in
    ASTExtractor.ast_nodes q
    = ASTExtractor.ast_nodes p ++ flat_map (summaries levels) children
    /\ ASTExtractor.parse_errors q = ASTExtractor.parse_errors p
    /\ ASTExtractor.macros q = ASTExtractor.macros p.
Proof.
  induction 1 as [|c cs Hc Hcs IH]; intros p; simpl.
  - now rewrite app_nil_r.
  - destruct (Hc p) as (Ha & He & Hm).
    destruct (IH (ASTExtractor._traverse_ast c p depth)) as (Ha' & He' & Hm').
    rewrite Ha', He', Hm', Ha, He, Hm, app_assoc. auto.
Qed.

Lemma traverse_spec (node : Clang.Cursor) :
  forall (depth : Z) (p : ASTExtractor.Patterns),
    traversed (Z.to_nat (101 - depth)) node p
              (ASTExtractor._traverse_ast node p depth).
Proof.
  induction node as [d children IH] using Cursor_induction.
  intros depth p. rewrite traverse_node.
  destruct (100 <? depth) eqn:Hd.
  - apply Z.ltb_lt in Hd.
    replace (Z.to_nat (101 - depth)) with O by lia.
    unfold traversed. simpl. now rewrite app_nil_r.
  - apply Z.ltb_ge in Hd.
    replace (Z.to_nat (101 - depth)) with (S (Z.to_nat (100 - depth))) by lia.
    unfold traversed. cbn [summaries Clang.data_of Clang.get_children].
    destruct (Clang.kind d) as [k|] eqn:Hk; [|now rewrite app_nil_r].
    cbv zeta.
    set (p1 := ASTExtractor.append_ast_node
                 (node_summary (Clang.Node d children) k) p).
    assert (forall p2,
               ASTExtractor.ast_nodes p2 = ASTExtractor.ast_nodes p1 ->
               ASTExtractor.parse_errors p2 = ASTExtractor.parse_errors p1 ->
               ASTExtractor.macros p2 = ASTExtractor.macros p1 ->
               let q := fold_left
                          (fun p child =>
                             ASTExtractor._traverse_ast child p (depth + 1))
                          children
                          (ASTExtractor._extract_openmp_pragmas d p2) in
               ASTExtractor.ast_nodes q
               = ASTExtractor.ast_nodes p
                   ++ node_summary (Clang.Node d children) k
                   :: flat_map (summaries (Z.to_nat (100 - depth))) children
               /\ ASTExtractor.parse_errors q = ASTExtractor.parse_errors p
               /\ ASTExtractor.macros q = ASTExtractor.macros p) as Visit.
    { intros p2 Ha He Hm q. subst q.
      assert (Forall (fun c => forall p,
                          traversed (Z.to_nat (100 - depth)) c p
                            (ASTExtractor._traverse_ast c p (depth + 1)))
                     children) as IH'.
      { eapply Forall_impl; [|exact IH]. intros c Hc p0.
        specialize (Hc (depth + 1) p0).
        replace (Z.to_nat (101 - (depth + 1)))
          with (Z.to_nat (100 - depth)) in Hc by lia.
        exact Hc. }
      destruct (traverse_children _ _ _ IH'
                  (ASTExtractor._extract_openmp_pragmas d p2))
        as (Ha' & He' & Hm').
      rewrite Ha', He', Hm'. cbn. rewrite Ha, He, Hm. subst p1. cbn.
      rewrite <- app_assoc. auto. }
    assert (ASTExtractor.ast_nodes p1
            = ASTExtractor.ast_nodes p
                ++ [node_summary (Clang.Node d children) k]
            /\ ASTExtractor.parse_errors p1 = ASTExtractor.parse_errors p
            /\ ASTExtractor.macros p1 = ASTExtractor.macros p) as Stop
        by (subst p1; cbn; auto).
    unfold inspection_raises. cbn [Clang.data_of Clang.get_children].
    rewrite Hk.
    destruct k.
    + unfold ASTExtractor._extract_function_declaration.
      cbn [Clang.get_children].
      destruct (ASTExtractor.parameters_of children) as [ps|] eqn:Hp.
      * assert (existsb kind_unreadable children = false) as ->.
        { destruct (existsb kind_unreadable children) eqn:E; [|reflexivity].
          apply parameters_of_raises in E. congruence. }
        apply Visit; reflexivity.
      * apply parameters_of_raises in Hp. rewrite Hp. exact Stop.
    + unfold ASTExtractor._extract_variable_declaration.
      destruct (Clang.semantic_parent d); [apply Visit; reflexivity|exact Stop].
    + apply Visit; reflexivity.
    + apply Visit; reflexivity.
    + apply Visit; reflexivity.
    + apply Visit; reflexivity.
Qed.

Lemma ast_nodes_after_diagnostics (diagnostics : list Clang.Diagnostic)
      (p : ASTExtractor.Patterns) :
  ASTExtractor.ast_nodes
    (fold_left
       (fun p diag =>
          ASTExtractor.append_parse_error
            (ASTExtractor.parse_error_of_diagnostic diag) p)
       diagnostics p)
  = ASTExtractor.ast_nodes p.
Proof.
  revert p; induction diagnostics as [|x l IH]; intros p; simpl.
  - reflexivity.
  - rewrite IH. reflexivity.
Qed.

(** X6.  The summaries of the tree nodes are those of the nodes in
    pre-order, children in the order of the tree, 101 levels deep; a node
    whose kind cannot be read is left out with its subtree, a node whose
    inspection raises keeps its summary and loses its subtree, and the rest
    of the tree is still visited. *)
Theorem ast_nodes_in_preorder (diagnostics : list Clang.Diagnostic)
        (cursor : Clang.Cursor) :
  option_map ASTExtractor.ast_nodes
    (ASTExtractor.extract_patterns
       (Clang.TranslationUnit diagnostics cursor))
  = Some (summaries 101 cursor).
Proof.
  unfold ASTExtractor.extract_patterns. cbn [option_map]. f_equal.
  destruct (traverse_spec cursor 0
              (fold_left
                 (fun p diag =>
                    ASTExtractor.append_parse_error
                      (ASTExtractor.parse_error_of_diagnostic diag) p)
                 diagnostics ASTExtractor.empty_patterns)) as (Ha & _ & _).
  rewrite Ha. change (Z.to_nat (101 - 0)) with 101%nat.
  rewrite ast_nodes_after_diagnostics.
  reflexivity.
Qed.

Lemma parse_errors_appended (diagnostics : list Clang.Diagnostic)
      (p : ASTExtractor.Patterns) :
  ASTExtractor.parse_errors
    (fold_left
       (fun p diag =>
          ASTExtractor.append_parse_error
            (ASTExtractor.parse_error_of_diagnostic diag) p)
       diagnostics p)
  = ASTExtractor.parse_errors p
      ++ map ASTExtractor.parse_error_of_diagnostic diagnostics.
Proof.
  revert p; induction diagnostics as [|x l IH]; intros p; simpl.
  - now rewrite app_nil_r.
  - rewrite IH. cbn. now rewrite <- app_assoc.
Qed.

Lemma extract_patterns_parse_errors (tu : Clang.ParseResult) :
  get_parse_errors (ASTExtractor.extract_patterns tu)
  = recorded_diagnostics tu.
Proof.
  destruct tu as [|diagnostics cursor]; [reflexivity|].
  unfold ASTExtractor.extract_patterns, get_parse_errors, recorded_diagnostics.
  destruct (traverse_spec cursor 0
              (fold_left
                 (fun p diag =>
                    ASTExtractor.append_parse_error
                      (ASTExtractor.parse_error_of_diagnostic diag) p)
                 diagnostics ASTExtractor.empty_patterns)) as (_ & He & _).
  rewrite He, parse_errors_appended. reflexivity.
Qed.

(* ================================================================== *)
(** * Invariants of a record *)
(* ================================================================== *)

Lemma classify_diagnostic_type_closed (message : string) :
  exists k, ASTExtractor._classify_diagnostic_type message = error_type_value k.
Proof.
  unfold ASTExtractor._classify_diagnostic_type.
  repeat match goal with
         | |- context [if ?b then _ else _] => destruct b
         end.
  - now exists SYNTAX_ERROR.
  - now exists OPENMP_CLAUSE_ERROR.
  - now exists DIRECTIVE_CONSTRAINT_ERROR.
  - now exists REFERENCE_ERROR.
  - now exists DECLARATION_ERROR.
  - now exists SEMANTIC_ERROR.
  - now exists OTHER_ERROR.
Qed.

Lemma recorded_diagnostics_closed (tu : Clang.ParseResult) :
  Forall (fun e => exists k, ParseError.error_type e = error_type_value k)
         (recorded_diagnostics tu).
Proof.
  destruct tu as [|diagnostics cursor]; [constructor|].
  apply Forall_forall. intros e He. simpl in He.
  apply in_map_iff in He as (diag & <- & _).
  apply classify_diagnostic_type_closed.
Qed.

(** What [process_test_file] returns for a text that is not empty. *)
Lemma process_readable (repr_str : string -> string) (rt : SetOrder)
      (st : FileState) (tu : Clang.ParseResult) (now : string)
      (file_path : Path.t) (r : TestPattern.t) :
  process_test_file repr_str rt st tu now file_path = Some r ->
  exists content size,
    st = Readable content size /\ content <> ""
    /\ process_test_file repr_str rt (Readable content size) tu now file_path
       = Some r.
Proof.
  intros H. destruct st as [| |content size]; try discriminate.
  destruct content as [|c text]; [discriminate|].
  exists (String c text), size. repeat split; [discriminate|exact H].
Qed.

(** X7.  The parse errors of a record are those of the diagnostics of the
    parse, one per diagnostic and in their order, whatever happens during
    the traversal of the tree; each has one of the seven error kinds; and
    [error_types] lists the kinds that occur, each once. *)
Theorem record_error_types (repr_str : string -> string) (rt : SetOrder)
        (st : FileState) (tu : Clang.ParseResult) (now : string)
        (file_path : Path.t) (r : TestPattern.t) :
  process_test_file repr_str rt st tu now file_path = Some r ->
  error_types_consistent tu r.
Proof.
  intros H. destruct st as [| |content size]; try discriminate.
  destruct content as [|c text]; [discriminate|].
  injection H as <-. unfold error_types_consistent.
  cbn [TestPattern.parse_errors TestPattern.error_types].
  unfold _categorize_error_patterns.
  cbn [ErrorPatterns.parse_errors ErrorPatterns.error_types].
  rewrite extract_patterns_parse_errors.
  destruct (pyset_fold_spec ParseError.error_type (recorded_diagnostics tu) []
              (NoDup_nil _)) as [Hn Hi].
  pose proof (set_to_list_perm rt
                (fold_left
                   (fun s error => PySet.add (ParseError.error_type error) s)
                   (recorded_diagnostics tu) [])) as P.
  split; [reflexivity|]. split; [apply recorded_diagnostics_closed|].
  split.
  - eapply Permutation_NoDup; [apply Permutation_sym; exact P|exact Hn].
  - intros t. split.
    + intros Ht. apply (Permutation_in _ P) in Ht.
      apply Hi in Ht as [[]|Ht]. exact Ht.
    + intros Ht. apply (Permutation_in _ (Permutation_sym P)).
      apply Hi. now right.
Qed.

Lemma record_error_types_witness :
  exists r,
    process_test_file quoted reverse_order sample_state sample_unit
      "2024-01-01T00:00:00" sample_path = Some r
    /\ error_types_consistent sample_unit r.
Proof.
  eexists. split.
  - vm_compute. reflexivity.
  - apply (record_error_types quoted reverse_order sample_state sample_unit
             "2024-01-01T00:00:00" sample_path).
    vm_compute. reflexivity.
Defined.

(** X8.  The negative-test profile of a record agrees with the rest of the
    record: its trigger count is the number of trigger mechanisms; a test
    that is not negative has no strategy, the empty correlation and no
    coverage area, whatever parse errors and expected patterns it has; a
    negative test has one of the four strategies and a correlation whose
    totals are the numbers of expected patterns and of parse errors of the
    record. *)
Theorem record_negative_profile (repr_str : string -> string) (rt : SetOrder)
        (st : FileState) (tu : Clang.ParseResult) (now : string)
        (file_path : Path.t) (r : TestPattern.t) :
  process_test_file repr_str rt st tu now file_path = Some r ->
  negative_profile_consistent r.
Proof.
  intros H. destruct st as [| |content size]; try discriminate.
  destruct content as [|c text]; [discriminate|].
  injection H as <-. unfold negative_profile_consistent.
  cbn [TestPattern.negative_test_characteristics
       TestPattern.error_trigger_mechanisms
       TestPattern.expected_error_patterns TestPattern.parse_errors].
  unfold _extract_negative_test_characteristics.
  destruct (_is_negative_test_case file_path (String c text));
    cbn [NegativeTestCharacteristics.error_trigger_count
         NegativeTestCharacteristics.is_negative_test
         NegativeTestCharacteristics.error_testing_strategy
         NegativeTestCharacteristics.expected_vs_actual_errors
         NegativeTestCharacteristics.error_coverage_areas].
  - split; [reflexivity|]. split.
    + unfold error_testing_strategies.
      repeat match goal with
             | |- context [if ?b then _ else _] => destruct b
             end; eexists; (split; [|reflexivity]); simpl; auto.
    + eexists. split; [reflexivity|].
      rewrite map_expected_to_actual_normal_form. split; reflexivity.
  - repeat split.
Qed.

Lemma record_negative_profile_witness :
  exists r,
    process_test_file quoted insertion_order sample_state sample_unit
      "2024-01-01T00:00:00" sample_path = Some r
    /\ negative_profile_consistent r.
Proof.
  eexists. split.
  - vm_compute. reflexivity.
  - apply (record_negative_profile quoted insertion_order sample_state
             sample_unit "2024-01-01T00:00:00" sample_path).
    vm_compute. reflexivity.
Defined.

Lemma splitlines_nonempty (c : ascii) (text : string) :
  1 <= len (splitlines (String c text)).
Proof.
  unfold splitlines. simpl.
  destruct (is_linebreak c).
  - unfold len. simpl length. lia.
  - destruct (splitlines_go false text); unfold len; simpl length; lia.
Qed.

Lemma complexity_score_range (directives : list OpenMPDirective.t)
      (check_patterns expected_errors : list string)
      (ast_patterns : option ASTExtractor.Patterns)
      (error_patterns : ErrorPatterns.t) :
  0 <= _calculate_complexity_score directives check_patterns expected_errors
         ast_patterns error_patterns <= 10.
Proof.
  unfold _calculate_complexity_score.
  rewrite sum_clauses_concat.
  pose proof (len_nonneg directives).
  pose proof (len_nonneg (concat (map OpenMPDirective.clauses directives))).
  pose proof (len_nonneg check_patterns).
  pose proof (len_nonneg expected_errors).
  pose proof (len_nonneg (ErrorPatterns.parse_errors error_patterns)).
  pose proof (len_nonneg (ErrorPatterns.error_types error_patterns)).
  assert (0 <= len (get_function_declarations ast_patterns) / 2)
    by (apply Z.div_pos; [apply len_nonneg|lia]).
  lia.
Qed.

(** X9.  The numbers of a record fit together: the file was read with a text
    that is not empty, the line count is the number of its lines and at
    least 1, every directive and every expected pattern carries a line
    number between 1 and the line count, and the complexity score lies
    between 0 and 10; the file size is the size of the file. *)
Theorem record_lines_within (repr_str : string -> string) (rt : SetOrder)
        (st : FileState) (tu : Clang.ParseResult) (now : string)
        (file_path : Path.t) (r : TestPattern.t) :
  process_test_file repr_str rt st tu now file_path = Some r ->
  lines_within_record st r.
Proof.
  intros H. destruct st as [| |content size]; try discriminate.
  destruct content as [|c text]; [discriminate|].
  injection H as <-. unfold lines_within_record.
  cbn [TestPattern.file_size TestPattern.line_count
       TestPattern.openmp_directives TestPattern.expected_error_patterns
       TestPattern.complexity_score].
  unfold _extract_file_info. cbn [FileInfo.size FileInfo.line_count].
  split; [|split; [|split; [|split]]].
  - exists (String c text). repeat split. discriminate.
  - apply splitlines_nonempty.
  - rewrite extract_as_flat_map.
    destruct (directives_of_lines_spec (splitlines (String c text)) 1)
      as (_ & Hr & _).
    eapply Forall_impl; [|exact Hr]. intros d. cbv beta. lia.
  - apply Forall_forall. intros p Hp.
    apply in_flat_map in Hp as ([i line] & Hil & Hp).
    change (In p (patterns_on_line (_extract_expected_errors (String c text))
                                   (i, line))) in Hp.
    apply enumerate_In in Hil as [Hr Hn].
    apply patterns_on_line_In in Hp as (e & He & Hs & ->).
    cbn [ExpectedErrorPattern.line_number]. lia.
  - apply complexity_score_range.
Qed.

Lemma record_lines_within_witness :
  exists r,
    process_test_file quoted insertion_order sample_state sample_unit
      "2024-01-01T00:00:00" sample_path = Some r
    /\ lines_within_record sample_state r.
Proof.
  eexists. split.
  - vm_compute. reflexivity.
  - apply (record_lines_within quoted insertion_order sample_state
             sample_unit "2024-01-01T00:00:00" sample_path).
    vm_compute. reflexivity.
Defined.

(* ================================================================== *)
(** * Words of a directive *)
(* ================================================================== *)

(** [split] returns words. *)
Lemma split_words (s : string) : Forall is_word (split s).
Proof.
  induction s as [|c s IH]; [constructor|].
  cbn [split]. destruct (isspace c) eqn:Hc; [exact IH|].
  assert (is_word (String c "")) as Hone.
  { split; [discriminate|]. unfold no_whitespace. simpl. now rewrite Hc. }
  destruct s as [|c' s']; [now constructor|].
  destruct (isspace c') eqn:Hc'; [now constructor|].
  destruct (split (String c' s')) as [|w ws]; [now constructor|].
  inversion IH as [|? ? [Hw Hn] Hws]; subst.
  constructor; [|assumption].
  split; [discriminate|]. unfold no_whitespace in *. simpl.
  now rewrite Hc, Hn.
Qed.

Lemma words_split_into (parts : list string) (name : string)
      (clauses : list string) :
  Forall is_word parts ->
  (parts = [] /\ name = "" /\ clauses = []
   \/ parts = name :: clauses) ->
  (name = "" \/ is_word name) /\ Forall is_word clauses
  /\ (name = "" -> clauses = []).
Proof.
  intros Hw [(-> & -> & ->) | ->].
  - repeat split; auto.
  - inversion Hw as [|? ? Hn Hc]; subst.
    repeat split; auto. intros ->. destruct Hn as [Hn _]. congruence.
Qed.

Lemma directive_of_line_words (n : Z) (line : string) (d : OpenMPDirective.t) :
  directive_of_line n line = Some d -> split_into_words d.
Proof.
  unfold directive_of_line.
  destruct (re_match false pragma_re line) as [m|]; [|discriminate].
  intros [= <-]. unfold split_into_words.
  cbn [OpenMPDirective.name OpenMPDirective.clauses].
  apply (words_split_into (split (strip (group_1 m)))); [apply split_words|].
  destruct (split (strip (group_1 m))) as [|w ws]; [left; auto|right].
  destruct ws as [|w' ws']; [reflexivity|].
  assert ((1 <? len (w :: w' :: ws')) = true) as ->
      by (apply Z.ltb_lt; unfold len; simpl length; lia).
  reflexivity.
Qed.

Lemma parse_openmp_directive_words (pragma_text : string)
      (location : Clang.SourceLocation) (d : OpenMPDirective.t) :
  ASTExtractor._parse_openmp_directive pragma_text location = Some d ->
  split_into_words d.
Proof.
  unfold ASTExtractor._parse_openmp_directive.
  pose proof (split_words pragma_text) as Hw.
  destruct (_ || _ || _)%bool eqn:E; [discriminate|].
  intros [= <-]. unfold split_into_words.
  cbn [OpenMPDirective.name OpenMPDirective.clauses].
  destruct (split pragma_text) as [|p0 [|p1 [|p2 more]]];
    try (unfold len in E; simpl in E; discriminate).
  assert (Forall is_word more) as Hmore.
  { inversion Hw as [|? ? _ H1]; subst. inversion H1 as [|? ? _ H2]; subst.
    inversion H2; subst. assumption. }
  apply (words_split_into more); [assumption|].
  destruct more as [|name clauses]; [left; auto|right].
  assert ((3 <? len (p0 :: p1 :: p2 :: name :: clauses)) = true) as ->
      by (apply Z.ltb_lt; unfold len; simpl length; lia).
  destruct clauses as [|c cs]; [reflexivity|].
  assert ((4 <? len (p0 :: p1 :: p2 :: name :: c :: cs)) = true) as ->
      by (apply Z.ltb_lt; unfold len; simpl length; lia).
  reflexivity.
Qed.

(** X10.  The name and the clauses of a directive, on the text path and on
    the token path, are words: not empty (the name may be) and free of
    whitespace; a directive without name has no clause. *)
Theorem directive_tokens_are_words :
  (forall content : string,
      Forall split_into_words (_extract_openmp_directives content))
  /\ (forall tokens : list Clang.Token,
         Forall split_into_words (ASTExtractor.pragmas_of_tokens tokens)).
Proof.
  split.
  - intros content. rewrite extract_as_flat_map.
    destruct (directives_of_lines_spec (splitlines content) 1) as (_ & _ & Hf).
    eapply Forall_impl; [|exact Hf].
    intros d (line & _ & Hd). eapply directive_of_line_words; eassumption.
  - intros tokens. induction tokens as [|token later IH]; [constructor|].
    unfold ASTExtractor.pragmas_of_tokens;
      fold ASTExtractor.pragmas_of_tokens.
    apply Forall_app. split; [|exact IH].
    destruct later as [|t1 [|t2 more]]; try constructor.
    destruct (_ && _ && _)%bool; [|constructor].
    destruct (ASTExtractor._parse_openmp_directive _ _) as [d|] eqn:P;
      [|constructor].
    constructor; [|constructor].
    eapply parse_openmp_directive_words; eassumption.
Qed.

(* ================================================================== *)
(** * What the matcher rejects *)
(* ================================================================== *)

Lemma rep_match_complete (cl : cclass) (greedy : bool) (s : string)
      (k : string -> option mstate) :
  forall (min : nat) (pre rest : string),
    rep_match cl greedy min s k = None ->
    s = (pre ++ rest)%string ->
    all_chars (cmatch cl) pre = true ->
    (min <= String.length pre)%nat ->
    k rest = None.
Proof.
  induction s as [|a s IH]; intros min pre rest H E Hall Hmin.
  - destruct pre; [|discriminate]. simpl in E. subst rest.
    simpl in Hmin. destruct min; [|lia]. exact H.
  - simpl in H. destruct pre as [|b pre].
    + simpl in E. subst rest. simpl in Hmin. destruct min; [|lia].
      destruct (cmatch cl a); [|exact H].
      destruct greedy.
      * destruct (rep_match cl true (Nat.pred 0) s k); [discriminate|exact H].
      * destruct (k (String a s)); [discriminate|reflexivity].
    + simpl in E. injection E as <- ->. simpl in Hall.
      apply andb_true_iff in Hall as [Ha Hall]. rewrite Ha in H.
      simpl in Hmin.
      assert (rep_match cl greedy (Nat.pred min) (pre ++ rest) k = None) as Hrec.
      { destruct greedy.
        - destruct (rep_match cl true (Nat.pred min) (pre ++ rest) k);
            [discriminate|reflexivity].
        - destruct (match min with
                    | O => k (String a (pre ++ rest)) | S _ => None end);
            [discriminate|exact H]. }
      apply (IH (Nat.pred min) pre rest Hrec eq_refl Hall). lia.
Qed.

(** A match does not depend on the text of the group before it. *)
Lemma Matches_any_capture (icase : bool) (r : regex) (s s' : string)
      (g g' : option string) :
  Matches icase r s s' g g' ->
  forall h, exists h', Matches icase r s s' h h'.
Proof.
  induction 1 as [p s s' g L|cl min greedy pre rest g Hall Hmin
                  |r1 r2 s s1 s2 g g1 g2 M1 IH1 M2 IH2
                  |r1 r2 s s' g g' M IH|r1 r2 s s' g g' M IH
                  |r s s' g g' M IH|r s s' g g' M IH]; intros h.
  - exists h. now constructor.
  - exists h. now constructor.
  - destruct (IH1 h) as [h1 N1]. destruct (IH2 h1) as [h2 N2].
    exists h2. econstructor; eassumption.
  - destruct (IH h) as [h' N]. exists h'. now apply M_AltL.
  - destruct (IH h) as [h' N]. exists h'. now apply M_AltR.
  - destruct (IH h) as [h' N]. eexists. econstructor. exact N.
  - destruct (IH h) as [h' N]. exists h'. econstructor. exact N.
Qed.

(** When the backtracking matcher fails, every match of the pattern is
    refused by the continuation. *)
Lemma run_complete (icase : bool) (r : regex) :
  forall (s : string) (g : option string)
         (k : string -> option string -> option mstate),
    run icase r s g k = None ->
    forall s' g', Matches icase r s s' g g' -> exists g'', k s' g'' = None.
Proof.
  induction r as [p|cl min greedy|r1 IH1 r2 IH2|r1 IH1 r2 IH2|r IH|r IH];
    intros s g k H s' g' M.
  - apply Matches_Lit_inv in M as [L _]. rewrite run_Lit, L in H. eauto.
  - apply Matches_Rep_inv in M as (pre & -> & Hall & Hmin & _).
    rewrite run_Rep in H. exists g.
    exact (rep_match_complete cl greedy _ (fun s' => k s' g) min pre s'
             H eq_refl Hall Hmin).
  - apply Matches_Cat_inv in M as (s1 & g1 & M1 & M2).
    rewrite run_Cat in H.
    destruct (IH1 _ _ _ H _ _ M1) as [h1 H1].
    destruct (Matches_any_capture _ _ _ _ _ _ M2 h1) as [h2 N2].
    exact (IH2 _ _ _ H1 _ _ N2).
  - rewrite run_Alt in H.
    destruct (run icase r1 s g k) eqn:E1; [discriminate|].
    apply Matches_Alt_inv in M as [M|M]; eauto.
  - apply Matches_Grp_inv in M as (_ & g0 & M).
    rewrite run_Grp in H.
    destruct (IH _ _ _ H _ _ M) as [h Hh]. eauto.
  - apply Matches_Ahead_inv in M as (-> & s1 & M).
    rewrite run_Ahead in H.
    destruct (run icase r s g (fun s' g' => Some (s', g'))) as [[t h]|] eqn:E.
    + eauto.
    + destruct (IH _ _ _ E _ _ M) as [h Hh]. discriminate.
Qed.

(** [re.match] fails only when the pattern has no match at the start of
    the text. *)
Lemma re_match_complete (icase : bool) (r : regex) (s : string) :
  re_match icase r s = None ->
  forall s' g', ~ Matches icase r s s' None g'.
Proof.
  unfold re_match. intros H s' g' M.
  destruct (run icase r s None (fun s' g => Some (s', g))) as [[t h]|] eqn:E;
    [discriminate|].
  destruct (run_complete _ _ _ _ _ E _ _ M) as [h Hh]. discriminate.
Qed.

Lemma re_match_iff (icase : bool) (r : regex) (s : string) :
  (exists m, re_match icase r s = Some m)
  <-> exists s' g', Matches icase r s s' None g'.
Proof.
  split.
  - intros [m H]. apply re_match_sound in H as [M _]. eauto.
  - intros (s' & g' & M). destruct (re_match icase r s) as [m|] eqn:E.
    + eauto.
    + exfalso. exact (re_match_complete _ _ _ E _ _ M).
Qed.

Lemma re_search_complete (icase : bool) (r : regex) (s : string) :
  re_search icase r s = None ->
  forall before suffix s' g',
    s = (before ++ suffix)%string -> ~ Matches icase r suffix s' None g'.
Proof.
  induction s as [|c s IH]; simpl; intros H before suffix s' g' E M.
  - destruct (re_match icase r "") eqn:R; [discriminate|].
    destruct before; [|discriminate]. simpl in E. subst suffix.
    exact (re_match_complete _ _ _ R _ _ M).
  - destruct (re_match icase r (String c s)) eqn:R; [discriminate|].
    destruct before as [|b before].
    + simpl in E. subst suffix. exact (re_match_complete _ _ _ R _ _ M).
    + simpl in E. injection E as _ ->. exact (IH H before suffix s' g' eq_refl M).
Qed.

Lemma re_search_iff (icase : bool) (r : regex) (s : string) :
  (exists m, re_search icase r s = Some m)
  <-> exists before suffix s' g',
        s = (before ++ suffix)%string /\ Matches icase r suffix s' None g'.
Proof.
  split.
  - intros [m H]. apply re_search_sound in H as (before & E & M).
    exists before, (group0 m ++ rest m)%string. eauto.
  - intros (before & suffix & s' & g' & E & M).
    destruct (re_search icase r s) as [m|] eqn:R; [eauto|].
    exfalso. exact (re_search_complete _ _ _ R _ _ _ _ E M).
Qed.

(* ================================================================== *)
(** * Lines and fragments the patterns recognise *)
(* ================================================================== *)

Lemma lit_match_app (p x : string) : lit_match false p (p ++ x) = Some x.
Proof.
  induction p as [|a p IH]; simpl; [reflexivity|].
  unfold char_eq. now rewrite Ascii.eqb_refl.
Qed.

Lemma Matches_Lit_app (p x : string) (g : option string) :
  Matches false (Lit p) (p ++ x) x g g.
Proof. constructor. apply lit_match_app. Qed.

Lemma string_app_cancel_r (a b r : string) :
  (a ++ r)%string = (b ++ r)%string -> a = b.
Proof.
  revert b; induction a as [|x a IH]; intros b H.
  - destruct b as [|y b]; [reflexivity|]. exfalso.
    apply (f_equal String.length) in H. simpl in H.
    rewrite string_length_app in H. lia.
  - destruct b as [|y b].
    + exfalso. apply (f_equal String.length) in H. simpl in H.
      rewrite string_length_app in H. lia.
    + simpl in H. injection H as -> H. f_equal. auto.
Qed.

Lemma nonempty_length (s : string) : s <> "" -> (1 <= String.length s)%nat.
Proof. destruct s; simpl; [congruence|lia]. Qed.

(** The pragma pattern matches exactly the lines of the shape
    [pragma_line]. *)
Lemma pragma_re_matches (line : string) :
  (exists s' g', Matches false pragma_re line s' None g') <-> pragma_line line.
Proof.
  unfold pragma_re, seq, star, plus. cbn [fold_right]. split.
  - intros (s' & g' & M).
    apply Matches_Cat_inv in M as (s1 & g1 & M0 & M).
    apply Matches_Rep_inv in M0 as (ws0 & -> & Hws0 & _ & _).
    apply Matches_Cat_inv in M as (s2 & g2 & ML & M).
    apply Matches_Lit_inv in ML as [L _]. apply lit_match_inv in L. subst s1.
    apply Matches_Cat_inv in M as (s3 & g3 & M1 & M).
    apply Matches_Rep_inv in M1 as (ws1 & -> & Hws1 & Hn1 & _).
    apply Matches_Cat_inv in M as (s4 & g4 & ML & M).
    apply Matches_Lit_inv in ML as [L _]. apply lit_match_inv in L. subst s3.
    apply Matches_Cat_inv in M as (s5 & g5 & M2 & M).
    apply Matches_Rep_inv in M2 as (ws2 & -> & Hws2 & Hn2 & _).
    apply Matches_Cat_inv in M as (s6 & g6 & MG & _).
    apply Matches_Grp_inv in MG as (_ & g0 & MG).
    apply Matches_Rep_inv in MG as (pre & -> & Hpre & Hn & _).
    destruct pre as [|c pre]; [simpl in Hn; lia|].
    simpl in Hpre. apply andb_true_iff in Hpre as [Hc _].
    exists ws0, ws1, ws2, c, (pre ++ s6)%string.
    repeat split; try assumption.
    + now apply length_zero_empty.
    + now apply length_zero_empty.
    + now apply negb_true_iff in Hc.
  - intros (ws0 & ws1 & ws2 & c & tail & -> & H0 & H1 & N1 & H2 & N2 & Hc).
    do 2 eexists.
    eapply M_Cat.
    { apply (M_Rep false CSpace 0 true ws0); [assumption|lia]. }
    eapply M_Cat; [apply Matches_Lit_app|].
    eapply M_Cat.
    { apply (M_Rep false CSpace 1 true ws1);
        [assumption|now apply nonempty_length]. }
    eapply M_Cat; [apply Matches_Lit_app|].
    eapply M_Cat.
    { apply (M_Rep false CSpace 1 true ws2);
        [assumption|now apply nonempty_length]. }
    eapply M_Cat.
    { eapply M_Grp.
      apply (M_Rep false CAny 1 true (String c "") tail None).
      - simpl. now rewrite Hc.
      - simpl. lia. }
    apply (Matches_Lit_app "" tail).
Qed.

Lemma directive_of_line_some (n : Z) (line : string) :
  (exists d, directive_of_line n line = Some d) <-> pragma_line line.
Proof.
  rewrite <- pragma_re_matches, <- re_match_iff.
  unfold directive_of_line. destruct (re_match false pragma_re line) as [m|].
  - split; eauto.
  - split; intros [x H]; discriminate.
Qed.

Lemma directives_of_lines_In (lines : list string) (start : Z)
      (d : OpenMPDirective.t) :
  In d (directives_of_lines start lines)
  <-> exists i line,
        In (i, line) (enumerate start lines)
        /\ directive_of_line i line = Some d.
Proof.
  unfold directives_of_lines. rewrite in_flat_map. split.
  - intros ([i line] & Hil & Hd). unfold directive_list_of_line in Hd.
    simpl in Hd. destruct (directive_of_line i line) as [d'|] eqn:E;
      [|contradiction].
    destruct Hd as [<-|[]]. eauto.
  - intros (i & line & Hil & Hd). exists (i, line). split; [assumption|].
    unfold directive_list_of_line. simpl. rewrite Hd. now left.
Qed.

(** X11.  The text scan returns a directive for a line exactly when the line
    is whitespace if any, [#pragma], whitespace, [omp], whitespace and at
    least one more character; a pragma with nothing after [omp], or with a
    single blank after it, is passed over. *)
Theorem recognised_pragma_lines (content : string) (i : nat) (line : string) :
  nth_error (splitlines content) i = Some line ->
  (pragma_line line
   <-> exists d,
         In d (_extract_openmp_directives content)
         /\ OpenMPDirective.line_number d = Z.of_nat i + 1).
Proof.
  intros Hn. rewrite extract_as_flat_map.
  rewrite <- (directive_of_line_some (Z.of_nat i + 1) line).
  assert (In (Z.of_nat i + 1, line) (enumerate 1 (splitlines content))) as Hin.
  { apply enumerate_In. split.
    - assert (i < length (splitlines content))%nat
        by (apply nth_error_Some; congruence).
      unfold len. lia.
    - replace (Z.of_nat i + 1 - 1) with (Z.of_nat i) by lia.
      now rewrite Nat2Z.id. }
  split.
  - intros [d Hd]. exists d. split.
    + apply directives_of_lines_In. eauto.
    + eapply directive_of_line_number; eassumption.
  - intros (d & Hd & Hnum).
    apply directives_of_lines_In in Hd as (j & l & Hjl & Hd).
    pose proof (directive_of_line_number _ _ _ Hd) as Hj.
    apply enumerate_In in Hjl as [_ Hl].
    assert (j = Z.of_nat i + 1) as -> by congruence.
    replace (Z.of_nat i + 1 - 1) with (Z.of_nat i) in Hl by lia.
    rewrite Nat2Z.id in Hl. assert (l = line) as -> by congruence.
    eauto.
Qed.

Lemma recognised_pragma_lines_witness :
  nth_error (splitlines sample_content) 1
  = Some "#pragma omp parallel private(x)"
  /\ (pragma_line "#pragma omp parallel private(x)"
      <-> exists d,
            In d (_extract_openmp_directives sample_content)
            /\ OpenMPDirective.line_number d = Z.of_nat 1 + 1).
Proof.
  split.
  - vm_compute. reflexivity.
  - apply (recognised_pragma_lines sample_content 1).
    vm_compute. reflexivity.
Defined.

(** X12.  The regex fragment of an expected error is a text in double
    braces, braces included, that occurs in it and holds no line feed; there
    is none exactly when the expected error has no such text. *)
Theorem regex_fragment_extracted (expected_error : string) :
  match _extract_regex_pattern expected_error with
  | Some g => brace_fragment_of expected_error g
  | None => ~ has_brace_fragment expected_error
  end.
Proof.
  unfold _extract_regex_pattern.
  destruct (re_search false regex_fragment_re expected_error) as [m|] eqn:E.
  - apply re_search_sound in E as (before & He & M).
    unfold regex_fragment_re, seq, star_lazy in M. cbn [fold_right] in M.
    apply Matches_Cat_inv in M as (s1 & g1 & ML & M).
    apply Matches_Lit_inv in ML as [L _]. apply lit_match_inv in L.
    apply Matches_Cat_inv in M as (s2 & g2 & MR & M).
    apply Matches_Rep_inv in MR as (mid & -> & Hmid & _ & _).
    apply Matches_Cat_inv in M as (s3 & g3 & ML & ME).
    apply Matches_Lit_inv in ML as [L2 _]. apply lit_match_inv in L2. subst s2.
    apply Matches_Lit_inv in ME as [L3 _]. apply lit_match_empty in L3.
    subst s3.
    assert (group0 m = ("{{" ++ mid ++ "}}")%string) as Hg.
    { apply (string_app_cancel_r _ _ (rest m)). rewrite L.
      now rewrite !string_app_assoc. }
    exists mid. split; [exact Hg|]. split; [exact Hmid|].
    rewrite He. apply Substring_middle.
  - intros (before & mid & after & He & Hmid).
    apply (re_search_complete _ _ _ E before
             ("{{" ++ mid ++ "}}" ++ after)%string after None He).
    unfold regex_fragment_re, seq, star_lazy. cbn [fold_right].
    eapply M_Cat; [apply Matches_Lit_app|].
    eapply M_Cat.
    { apply (M_Rep false CAny 0 false mid); [exact Hmid|lia]. }
    eapply M_Cat; [apply Matches_Lit_app|].
    apply (Matches_Lit_app "" after).
Qed.

Lemma Substring_suffix (k before s : string) :
  Substring k s -> Substring k (before ++ s).
Proof. apply Substring_app_r. Qed.

(** A match of a pattern that starts with [//], whitespace and [marker]
    holds the marker. *)
Lemma annotation_holds_marker (marker : string) (tail_re : list regex)
      (s s' : string) (g g' : option string) :
  Matches false (seq (Lit "//" :: star CSpace :: Lit marker :: tail_re))
          s s' g g' ->
  Substring marker s.
Proof.
  unfold seq, star. cbn [fold_right]. intros M.
  apply Matches_Cat_inv in M as (s1 & g1 & ML & M).
  apply Matches_Lit_inv in ML as [L _]. apply lit_match_inv in L. subst s.
  apply Matches_Cat_inv in M as (s2 & g2 & MR & M).
  apply Matches_Rep_inv in MR as (ws & -> & _ & _ & _).
  apply Matches_Cat_inv in M as (s3 & g3 & ML & _).
  apply Matches_Lit_inv in ML as [L _]. apply lit_match_inv in L. subst s2.
  apply Substring_app_r, Substring_app_r. now exists "", s3.
Qed.

Lemma findall_holds_marker (marker : string) (tail_re : list regex)
      (content : string) :
  findall false (seq (Lit "//" :: star CSpace :: Lit marker :: tail_re))
          content <> [] ->
  Substring marker content.
Proof.
  intros H.
  destruct (findall false _ content) as [|x l] eqn:E; [congruence|].
  assert (In x (findall false
                  (seq (Lit "//" :: star CSpace :: Lit marker :: tail_re))
                  content)) as Hx by (rewrite E; now left).
  apply findall_go_sound in Hx as (before & m & -> & M & _).
  apply Substring_app_r. eapply annotation_holds_marker. exact M.
Qed.

Lemma map_not_nil {A B : Type} (f : A -> B) (l : list A) :
  map f l <> [] -> l <> [].
Proof. destruct l; simpl; congruence. Qed.

(** X13.  A file from which an expected error or an expected warning is
    extracted is a negative test, whatever its name. *)
Theorem annotated_file_is_negative (file_path : Path.t) (content : string) :
  _extract_expected_errors content <> []
  \/ _extract_expected_warnings content <> [] ->
  _is_negative_test_case file_path content = true.
Proof.
  intros H. unfold _is_negative_test_case.
  destruct (existsb _ negative_indicators); [reflexivity|].
  assert ((str_in "expected-error" content
           || str_in "expected-warning" content)%bool = true) as ->;
    [|reflexivity].
  apply orb_true_iff. destruct H as [H|H].
  - left. apply str_in_spec. apply map_not_nil in H.
    exact (findall_holds_marker "expected-error" _ content H).
  - right. apply str_in_spec. apply map_not_nil in H.
    exact (findall_holds_marker "expected-warning" _ content H).
Qed.

Lemma annotated_file_is_negative_witness :
  (_extract_expected_errors sample_content <> []
   \/ _extract_expected_warnings sample_content <> [])
  /\ _is_negative_test_case (Path.mk "t/plain.c" "plain.c" ".c")
       sample_content = true.
Proof.
  assert (_extract_expected_errors sample_content <> []
          \/ _extract_expected_warnings sample_content <> []) as H
      by (left; vm_compute; discriminate).
  split; [exact H|].
  exact (annotated_file_is_negative (Path.mk "t/plain.c" "plain.c" ".c")
           sample_content H).
Defined.

(* ================================================================== *)
(** * OpenMP version *)
(* ================================================================== *)

Lemma digit_class_chars (s : string) :
  all_chars (cmatch CDigit) s = all_chars isdigit s.
Proof. apply all_chars_ext. reflexivity. Qed.

Lemma number_of_digits (pre : string) :
  all_chars (cmatch CDigit) pre = true -> (1 <= String.length pre)%nat ->
  is_number pre.
Proof.
  intros H L. split; [now apply length_zero_empty|].
  now rewrite <- digit_class_chars.
Qed.

Lemma lower_char_dot (c : ascii) : lower_char c = "."%char -> c = "."%char.
Proof.
  destruct c as [[] [] [] [] [] [] [] []]; vm_compute; congruence.
Qed.

Lemma lit_match_cons (icase : bool) (a b : ascii) (p s : string) :
  lit_match icase (String a p) (String b s)
  = if char_eq icase a b then lit_match icase p s else None.
Proof. reflexivity. Qed.

(** A greedy repetition whose continuation never fails reads all the
    class characters there are. *)
Lemma rep_match_greedy_inv (cl : cclass) (k : string -> option mstate) :
  (forall x, k x <> None) ->
  forall (s : string) (min : nat) (r : mstate),
    rep_match cl true min s k = Some r ->
    exists pre rest,
      s = (pre ++ rest)%string
      /\ all_chars (cmatch cl) pre = true
      /\ (min <= String.length pre)%nat
      /\ match rest with
         | EmptyString => true
         | String c _ => negb (cmatch cl c)
         end = true
      /\ k rest = Some r.
Proof.
  intros Hk. induction s as [|a s IH]; intros min r H; simpl in H.
  - destruct min; [|discriminate].
    exists "", "". repeat split; auto.
  - destruct (cmatch cl a) eqn:Ha.
    + destruct (rep_match cl true (Nat.pred min) s k) as [r'|] eqn:E.
      * injection H as <-.
        destruct (IH _ _ E) as (pre & rest & -> & Hall & Hmin & Hrest & Hr).
        exists (String a pre), rest. simpl. rewrite Ha, Hall.
        repeat split; auto. lia.
      * exfalso. destruct min; [|discriminate].
        apply (Hk s).
        exact (rep_match_complete cl true s k O "" s E eq_refl eq_refl
                 (Nat.le_refl 0)).
    + destruct min; [|discriminate].
      exists "", (String a s). simpl. rewrite Ha. repeat split; auto.
Qed.

(** [re.search] stops at the leftmost position with a match. *)
Lemma re_search_leftmost (icase : bool) (r : regex) (s : string)
      (m : match_obj) :
  re_search icase r s = Some m ->
  exists before,
    s = (before ++ group0 m ++ rest m)%string
    /\ re_match icase r (group0 m ++ rest m) = Some m
    /\ forall before' suffix,
         s = (before' ++ suffix)%string ->
         (String.length before' < String.length before)%nat ->
         re_match icase r suffix = None.
Proof.
  induction s as [|c s IH]; simpl.
  - destruct (re_match icase r "") as [m'|] eqn:E; [|discriminate].
    intros [= ->]. destruct (re_match_sound _ _ _ _ E) as [_ Es].
    exists "". rewrite <- Es. repeat split; auto.
    intros before' suffix _ Hl. simpl in Hl. lia.
  - destruct (re_match icase r (String c s)) as [m'|] eqn:E.
    + intros [= ->]. destruct (re_match_sound _ _ _ _ E) as [_ Es].
      exists "". rewrite <- Es. repeat split; auto.
      intros before' suffix _ Hl. simpl in Hl. lia.
    + intros H. destruct (IH H) as (before & -> & Hm & Hleft).
      exists (String c before). repeat split; auto.
      intros before' suffix Hs Hl. destruct before' as [|b before'].
      * simpl in Hs. now subst suffix.
      * simpl in Hs. injection Hs as _ Hs. simpl in Hl.
        apply (Hleft before' suffix Hs). lia.
Qed.

Lemma lower_nil (s : string) : lower s = "" -> s = "".
Proof. destruct s; [reflexivity|discriminate]. Qed.

(** Without case, a literal matches the texts that have its lower-cased
    form. *)
Lemma lit_match_lower (p kw x : string) :
  lower kw = lower p -> lit_match true p (kw ++ x) = Some x.
Proof.
  revert kw; induction p as [|a p IH]; intros kw H.
  - simpl in H. apply lower_nil in H. now subst kw.
  - destruct kw as [|b kw]; [discriminate|].
    simpl in H. injection H as Hb Hkw.
    change (String b kw ++ x)%string with (String b (kw ++ x)).
    rewrite lit_match_cons. unfold char_eq.
    rewrite Hb, Ascii.eqb_refl. now apply IH.
Qed.

Lemma lit_match_lower_inv (p s s' : string) :
  lit_match true p s = Some s' ->
  exists kw, s = (kw ++ s')%string /\ lower kw = lower p.
Proof.
  revert s; induction p as [|a p IH]; intros s H.
  - simpl in H. injection H as <-. now exists "".
  - destruct s as [|b s]; [discriminate|].
    rewrite lit_match_cons in H. unfold char_eq in H.
    destruct (Ascii.eqb (lower_char a) (lower_char b)) eqn:E; [|discriminate].
    apply Ascii.eqb_eq in E.
    destruct (IH _ H) as (kw & -> & Hkw).
    exists (String b kw). split; [reflexivity|]. simpl. now rewrite E, Hkw.
Qed.

Lemma lower_dot (kw : string) : lower kw = "." -> kw = ".".
Proof.
  destruct kw as [|c [|c' kw]]; try discriminate.
  simpl. intros [= H]. apply lower_char_dot in H. now subst c.
Qed.

Lemma no_digit_ahead_class (rest : string) :
  match rest with
  | EmptyString => true
  | String c _ => negb (cmatch CDigit c)
  end = no_digit_ahead rest.
Proof. reflexivity. Qed.

(* ------------------------------------------------------------------ *)

(** What a match of [version_flag_re] reads: the flag and all the digits
    after it. *)
Lemma version_flag_match (s : string) (m : match_obj) :
  re_match false version_flag_re s = Some m ->
  exists v,
    group1 m = Some v
    /\ is_number v
    /\ s = ("-fopenmp-version=" ++ v ++ rest m)%string
    /\ no_digit_ahead (rest m) = true.
Proof.
  unfold re_match.
  destruct (run false version_flag_re s None (fun s' g => Some (s', g)))
    as [[s' g]|] eqn:E; [|discriminate].
  intros [= <-]. cbn [group1 rest].
  unfold version_flag_re, seq, plus in E. cbn [fold_right] in E.
  rewrite run_Cat, run_Lit in E.
  destruct (lit_match false "-fopenmp-version=" s) as [s1|] eqn:L;
    [|discriminate].
  apply lit_match_inv in L. subst s.
  rewrite run_Cat, run_Grp, run_Rep in E.
  apply rep_match_greedy_inv in E
      as (pre & rest & -> & Hpre & Hmin & Hrest & Hk);
    [|intros x; rewrite run_Lit; discriminate].
  rewrite run_Lit in Hk. cbn [lit_match] in Hk.
  injection Hk as <- <-.
  exists pre. rewrite take_app_exact.
  split; [reflexivity|]. split; [now apply number_of_digits|].
  split; [reflexivity|exact Hrest].
Qed.

Lemma version_flag_matches (d : ascii) (after : string) :
  isdigit d = true ->
  Matches false version_flag_re ("-fopenmp-version=" ++ String d after) after
          None (Some (String d "")).
Proof.
  intros Hd. unfold version_flag_re, seq, plus. cbn [fold_right].
  eapply M_Cat; [apply Matches_Lit_app|].
  eapply M_Cat; [|apply (Matches_Lit_app "" after)].
  replace (Some (String d "")) with
    (Some (take (String.length (String d after) - String.length after)
                (String d after))).
  - eapply M_Grp. apply (M_Rep false CDigit 1 true (String d "") after None).
    + simpl. now rewrite Hd.
    + simpl. lia.
  - f_equal. apply (take_app_exact (String d "") after).
Qed.

Lemma no_flag_found (cmd : string) :
  re_search false version_flag_re cmd = None -> ~ names_version_flag cmd.
Proof.
  intros E (before & d & after & Hc & Hd).
  exact (re_search_complete _ _ _ E before _ after _ Hc
           (version_flag_matches d after Hd)).
Qed.

Lemma flag_found (cmd : string) (m : match_obj) :
  re_search false version_flag_re cmd = Some m ->
  flag_version_of cmd (group_1 m).
Proof.
  intros E. apply re_search_leftmost in E as (before & Hc & Hm & Hleft).
  apply version_flag_match in Hm as (v & Hg & Hv & Hs & Hrest).
  unfold group_1. rewrite Hg.
  exists before, (rest m). split; [now rewrite Hc, Hs|].
  split; [exact Hv|]. split; [exact Hrest|].
  intros before' d after' Hc' Hd.
  destruct (Nat.le_gt_cases (String.length before) (String.length before'))
    as [Hle|Hlt]; [exact Hle|exfalso].
  exact (re_match_complete _ _ _ (Hleft _ _ Hc' Hlt) _ _
           (version_flag_matches d after' Hd)).
Qed.

Lemma first_version_flag_found (run_commands : list string) (v : string) :
  first_version_flag run_commands = Some v ->
  version_from_commands run_commands v.
Proof.
  induction run_commands as [|cmd more IH]; simpl; [discriminate|].
  destruct (re_search false version_flag_re cmd) as [m|] eqn:E.
  - intros [= <-]. exists [], cmd, more.
    split; [reflexivity|]. split; [intros c []|]. now apply flag_found.
  - intros H. destruct (IH H) as (earlier & c & later & -> & Hnone & Hc).
    exists (cmd :: earlier), c, later. split; [reflexivity|].
    split; [|exact Hc].
    intros c' [<-|Hin]; [now apply no_flag_found|now apply Hnone].
Qed.

Lemma first_version_flag_none (run_commands : list string) :
  first_version_flag run_commands = None ->
  forall cmd, In cmd run_commands -> ~ names_version_flag cmd.
Proof.
  induction run_commands as [|c more IH]; simpl; [intros _ cmd []|].
  destruct (re_search false version_flag_re c) as [m|] eqn:E; [discriminate|].
  intros H cmd [<-|Hin]; [now apply no_flag_found|now apply IH].
Qed.

Lemma flag_version_number (cmd v : string) :
  flag_version_of cmd v -> is_number v.
Proof. intros (before & after & _ & Hv & _). exact Hv. Qed.

(* ------------------------------------------------------------------ *)

Lemma space_class_chars (s : string) :
  all_chars (cmatch CSpace) s = all_chars isspace s.
Proof. apply all_chars_ext. reflexivity. Qed.

(** What a match of [version_comment_re] reads: the word, whitespace, and
    a version with all the digits of its second number. *)
Lemma version_comment_match (s : string) (m : match_obj) :
  re_match true version_comment_re s = Some m ->
  version_comment_at s "" (group_1 m) (rest m)
  /\ no_digit_ahead (rest m) = true.
Proof.
  unfold re_match.
  destruct (run true version_comment_re s None (fun s' g => Some (s', g)))
    as [[s' g]|] eqn:E; [|discriminate].
  intros [= <-]. unfold group_1. cbn [group1 rest].
  unfold version_comment_re, seq, plus in E. cbn [fold_right] in E.
  rewrite run_Cat, run_Lit in E.
  destruct (lit_match true "OpenMP" s) as [s1|] eqn:L; [|discriminate].
  apply lit_match_lower_inv in L as (keyword & -> & Hkw).
  rewrite run_Cat, run_Rep in E.
  apply rep_match_inv in E as (blanks & s2 & -> & Hblanks & Hb & E).
  rewrite run_Cat, run_Grp, run_Cat, run_Rep in E.
  apply rep_match_inv in E as (major & s3 & -> & Hmajor & Hmj & E).
  rewrite run_Cat, run_Lit in E.
  destruct (lit_match true "." s3) as [s4|] eqn:LD; [|discriminate].
  apply lit_match_lower_inv in LD as (dot & -> & Hdot).
  apply lower_dot in Hdot. subst dot.
  rewrite run_Cat, run_Rep in E.
  apply rep_match_greedy_inv in E
      as (minor & after & -> & Hminor & Hmn & Hafter & Hk);
    [|intros x; rewrite !run_Lit; discriminate].
  rewrite !run_Lit in Hk. cbn [lit_match] in Hk.
  injection Hk as <- <-.
  change (major ++ String "." (minor ++ after))%string
    with (major ++ "." ++ minor ++ after)%string.
  replace (major ++ "." ++ minor ++ after)%string
    with ((major ++ "." ++ minor) ++ after)%string
    by (now rewrite !string_app_assoc).
  rewrite take_app_exact.
  split; [|exact Hafter].
  exists keyword, blanks, major, minor.
  split; [now rewrite !string_app_assoc|].
  split; [exact Hkw|].
  split; [now apply length_zero_empty|].
  split; [now rewrite <- space_class_chars|].
  split; [now apply number_of_digits|].
  split; [now apply number_of_digits|reflexivity].
Qed.

Lemma version_comment_matches (suffix v after : string) :
  version_comment_at suffix "" v after ->
  exists g, Matches true version_comment_re suffix after None g.
Proof.
  intros (keyword & blanks & major & minor & -> & Hkw & Hbn & Hb
          & [Hmjn Hmj] & [Hmnn Hmn] & _).
  unfold version_comment_re, seq, plus. cbn [fold_right].
  eexists. cbn [append].
  eapply M_Cat; [apply M_Lit; apply lit_match_lower; exact Hkw|].
  eapply M_Cat.
  { apply (M_Rep true CSpace 1 true blanks); [|now apply nonempty_length].
    now rewrite space_class_chars. }
  eapply M_Cat; [|apply M_Lit; reflexivity].
  eapply M_Grp.
  eapply M_Cat.
  { apply (M_Rep true CDigit 1 true major); [|now apply nonempty_length].
    now rewrite digit_class_chars. }
  eapply M_Cat; [apply M_Lit; apply (lit_match_lower "." "."); reflexivity|].
  eapply M_Cat; [|apply M_Lit; reflexivity].
  apply (M_Rep true CDigit 1 true minor); [|now apply nonempty_length].
  now rewrite digit_class_chars.
Qed.

Lemma version_comment_at_suffix (before suffix v after : string) :
  version_comment_at suffix "" v after ->
  version_comment_at (before ++ suffix) before v after.
Proof.
  intros (keyword & blanks & major & minor & -> & H).
  exists keyword, blanks, major, minor. split; [reflexivity|exact H].
Qed.

Lemma version_comment_at_here (content before v after : string) :
  version_comment_at content before v after ->
  exists suffix,
    content = (before ++ suffix)%string
    /\ version_comment_at suffix "" v after.
Proof.
  intros (keyword & blanks & major & minor & -> & H).
  eexists. split; [reflexivity|].
  exists keyword, blanks, major, minor. split; [reflexivity|exact H].
Qed.

Lemma comment_found (content : string) (m : match_obj) :
  re_search true version_comment_re content = Some m ->
  version_from_comment content (group_1 m).
Proof.
  intros E. apply re_search_leftmost in E as (before & Hc & Hm & Hleft).
  apply version_comment_match in Hm as [Hat Hrest].
  exists before, (rest m).
  split; [rewrite Hc; now apply version_comment_at_suffix|].
  split; [exact Hrest|].
  intros before' v' after' Hat'.
  destruct (Nat.le_gt_cases (String.length before) (String.length before'))
    as [Hle|Hlt]; [exact Hle|exfalso].
  apply version_comment_at_here in Hat' as (suffix & Hs & Hat').
  destruct (version_comment_matches _ _ _ Hat') as [g M].
  exact (re_match_complete _ _ _ (Hleft _ _ Hs Hlt) _ _ M).
Qed.

Lemma no_comment_found (content : string) :
  re_search true version_comment_re content = None ->
  ~ names_version_comment content.
Proof.
  intros E (before & v & after & Hat).
  apply version_comment_at_here in Hat as (suffix & Hs & Hat).
  destruct (version_comment_matches _ _ _ Hat) as [g M].
  exact (re_search_complete _ _ _ E before suffix after g Hs M).
Qed.

Lemma comment_version_text (content v : string) :
  version_from_comment content v -> version_text v.
Proof.
  intros (before & after & (kw & blanks & major & minor & _ & _ & _ & _
                            & Hmj & Hmn & ->) & _).
  right. now exists major, minor.
Qed.

(** X14.  The OpenMP version is taken from the first RUN command that holds
    [-fopenmp-version=] followed by a digit, whatever the body says: it is
    the number after the leftmost such flag of this command, with all its
    digits.  When no RUN command holds such a flag, it is taken from the
    leftmost place of the body that has the word OpenMP in any case,
    whitespace, and two numbers with a dot between them: it is these
    numbers with the dot, the second with all its digits.  There is no
    version exactly when neither the RUN commands nor the body name
    one. *)
Theorem openmp_version_shape (content : string) (run_commands : list string) :
  match _extract_openmp_version content run_commands with
  | Some v =>
      version_text v
      /\ (version_from_commands run_commands v
          \/ (forall cmd, In cmd run_commands -> ~ names_version_flag cmd)
             /\ version_from_comment content v)
  | None =>
      (forall cmd, In cmd run_commands -> ~ names_version_flag cmd)
      /\ ~ names_version_comment content
  end.
Proof.
  unfold _extract_openmp_version.
  destruct (first_version_flag run_commands) as [v|] eqn:F.
  - pose proof (first_version_flag_found _ _ F) as Hv.
    split; [|now left].
    destruct Hv as (_ & cmd & _ & _ & _ & Hc).
    left. exact (flag_version_number _ _ Hc).
  - pose proof (first_version_flag_none _ F) as Hnone.
    destruct (re_search true version_comment_re content) as [m|] eqn:E.
    + pose proof (comment_found _ _ E) as Hv.
      split; [exact (comment_version_text _ _ Hv)|]. right. now split.
    + split; [exact Hnone|now apply no_comment_found].
Qed.

(* ================================================================== *)
(** * Monotony of the complexity score *)
(* ================================================================== *)

Lemma len_cons {A : Type} (x : A) (l : list A) : len (x :: l) = len l + 1.
Proof. unfold len. simpl length. lia. Qed.

(** The sum the score is the minimum of 10 and. *)
Lemma complexity_score_sum (directives : list OpenMPDirective.t)
      (check_patterns expected_errors : list string)
      (ast_patterns : option ASTExtractor.Patterns)
      (error_patterns : ErrorPatterns.t) :
  _calculate_complexity_score directives check_patterns expected_errors
    ast_patterns error_patterns
  = Z.min (len directives * 2
           + len (concat (map OpenMPDirective.clauses directives))
           + len check_patterns
           + len expected_errors * 2
           + len (get_function_declarations ast_patterns) / 2
           + len (ErrorPatterns.parse_errors error_patterns)
           + len (ErrorPatterns.error_types error_patterns)) 10.
Proof.
  unfold _calculate_complexity_score. rewrite sum_clauses_concat.
  reflexivity.
Qed.

Lemma pyset_add_len (x : string) (s : list string) :
  len s <= len (PySet.add x s).
Proof.
  unfold PySet.add. destruct (PySet.mem x s); [lia|].
  rewrite len_app. pose proof (len_nonneg [x]). lia.
Qed.

(** X15.  The complexity score never goes down when an input grows: one more
    directive, check pattern, expected error, function declaration, or parse
    error. *)
Theorem complexity_score_monotone
        (directives : list OpenMPDirective.t)
        (check_patterns expected_errors : list string)
        (patterns : ASTExtractor.Patterns)
        (parse_errors : list ParseError.t)
        (expected_patterns : list ExpectedErrorPattern.t)
        (triggers error_types : list string)
        (d : OpenMPDirective.t) (c e : string)
        (f : ASTExtractor.FuncInfo.t) (pe : ParseError.t) :
  let error_patterns :=
    ErrorPatterns.mk parse_errors expected_patterns triggers error_types in
  let score :=
    _calculate_complexity_score directives check_patterns expected_errors
      (Some patterns) error_patterns in
  score <= _calculate_complexity_score (d :: directives) check_patterns
             expected_errors (Some patterns) error_patterns
  /\ score <= _calculate_complexity_score directives (c :: check_patterns)
                expected_errors (Some patterns) error_patterns
  /\ score <= _calculate_complexity_score directives check_patterns
                (e :: expected_errors) (Some patterns) error_patterns
  /\ score <= _calculate_complexity_score directives check_patterns
                expected_errors
                (Some (ASTExtractor.append_function_declaration f patterns))
                error_patterns
  /\ score <= _calculate_complexity_score directives check_patterns
                expected_errors (Some patterns)
                (ErrorPatterns.mk (parse_errors ++ [pe]) expected_patterns
                   triggers
                   (PySet.add (ParseError.error_type pe) error_types))
  /\ _calculate_complexity_score directives check_patterns expected_errors
       None error_patterns <= score.
Proof.
  intros error_patterns score. subst score error_patterns.
  rewrite !complexity_score_sum.
  cbn [ErrorPatterns.parse_errors ErrorPatterns.error_types
       get_function_declarations ASTExtractor.function_declarations
       ASTExtractor.append_function_declaration map concat].
  rewrite !len_cons, !len_app.
  pose proof (len_nonneg (OpenMPDirective.clauses d)).
  pose proof (len_nonneg [f]). pose proof (len_nonneg [pe]).
  pose proof (len_nonneg (ASTExtractor.function_declarations patterns)).
  pose proof (pyset_add_len (ParseError.error_type pe) error_types).
  assert (len (ASTExtractor.function_declarations patterns) / 2
          <= (len (ASTExtractor.function_declarations patterns) + len [f]) / 2)
    by (apply Z.div_le_mono; lia).
  assert (len (@nil ASTExtractor.FuncInfo.t) / 2
          <= len (ASTExtractor.function_declarations patterns) / 2)
    by (apply Z.div_le_mono; [lia|unfold len; simpl; lia]).
  repeat split; lia.
Qed.

(* ================================================================== *)
(** * Batches *)
(* ================================================================== *)

Lemma process_none_iff (repr_str : string -> string) (rt : SetOrder)
      (st : FileState) (tu : Clang.ParseResult) (now : string)
      (file_path : Path.t) :
  process_test_file repr_str rt st tu now file_path = None
  <-> yields_no_record st.
Proof.
  unfold yields_no_record. destruct st as [| |content size].
  - split; auto.
  - split; auto.
  - destruct content as [|c text].
    + split; [|reflexivity]. intros _. right; right. now exists size.
    + split; [discriminate|]. intros [H|[H|[sz H]]]; discriminate.
Qed.

Section BatchFacts.
Import OpenMPPatternAnalyzer.
Context {Database : Type}
        (store_pattern : Database -> TestPattern.t -> Database * bool)
        (repr_str : string -> string) (rt : SetOrder)
        (file_state : Path.t -> FileState)
        (clang_parse : Path.t -> Clang.ParseResult)
        (now : Z -> string).

Lemma analyze_one_counts (t : Tally Database) (item : Z * Path.t) :
  successful_count _ (analyze_one Database store_pattern repr_str rt file_state clang_parse now t item) + failed_count _ (analyze_one Database store_pattern repr_str rt file_state clang_parse now t item)
  = successful_count _ t + failed_count _ t + 1
  /\ successful_count _ t <= successful_count _ (analyze_one Database store_pattern repr_str rt file_state clang_parse now t item)
  /\ failed_count _ t <= failed_count _ (analyze_one Database store_pattern repr_str rt file_state clang_parse now t item).
Proof.
  destruct item as [i test_file]. unfold analyze_one.
  destruct (process_test_file _ _ _ _ _ _) as [pattern|]; [|simpl; lia].
  destruct (store_pattern _ _) as [db []]; simpl; lia.
Qed.

Lemma analyze_fold_counts (items : list (Z * Path.t)) (t : Tally Database) :
  let t' := fold_left (analyze_one Database store_pattern repr_str rt file_state clang_parse now) items t in
  successful_count _ t' + failed_count _ t'
  = successful_count _ t + failed_count _ t + len items
  /\ successful_count _ t <= successful_count _ t'
  /\ failed_count _ t <= failed_count _ t'.
Proof.
  revert t; induction items as [|item items IH]; intros t; simpl.
  - unfold len; simpl; lia.
  - destruct (IH (analyze_one Database store_pattern repr_str rt file_state clang_parse now t item)) as (Hs & H1 & H2).
    destruct (analyze_one_counts t item) as (Hs' & H1' & H2').
    rewrite len_cons. lia.
Qed.

Lemma enumerate_length {A : Type} (l : list A) (start : Z) :
  len (enumerate start l) = len l.
Proof.
  unfold len. f_equal. revert start; induction l as [|x l IH]; intros start;
    simpl; [reflexivity|]. now rewrite IH.
Qed.

(** X16.  Every file of a batch is counted once, as a success or as a
    failure, and the batch reports success exactly when one record at least
    was stored; a batch without files reports failure. *)
Theorem batch_counts (test_files : list Path.t) (db : Database) :
  let t := analyze_loop Database store_pattern repr_str rt file_state
             clang_parse now test_files db in
  successful_count _ t + failed_count _ t = len test_files
  /\ 0 <= successful_count _ t <= len test_files
  /\ 0 <= failed_count _ t
  /\ (snd (analyze_all_tests Database store_pattern repr_str rt file_state
             clang_parse now test_files db) = true
      <-> 0 < successful_count _ t).
Proof.
  intros t. subst t. unfold analyze_loop.
  destruct (analyze_fold_counts (enumerate 1 test_files) (mk_tally _ db 0 0))
    as (Hs & H1 & H2).
  cbn [successful_count failed_count] in Hs, H1, H2.
  rewrite enumerate_length in Hs.
  split; [lia|]. split; [lia|]. split; [lia|].
  unfold analyze_all_tests, analyze_loop.
  destruct test_files as [|f fs].
  - simpl. split; [discriminate|lia].
  - cbn [snd]. apply Z.ltb_lt.
Qed.

Lemma analyze_fold_refused (items : list (Z * Path.t)) (t : Tally Database) :
  Forall (fun item => yields_no_record (file_state (snd item))) items ->
  fold_left (analyze_one Database store_pattern repr_str rt file_state clang_parse now) items t
  = mk_tally _ (database _ t) (successful_count _ t)
      (failed_count _ t + len items).
Proof.
  revert t; induction items as [|[i f] items IH]; intros t H; simpl.
  - destruct t. unfold len. simpl. f_equal. lia.
  - inversion H as [|? ? Hf Hrest]; subst. simpl in Hf.
    apply (process_none_iff repr_str rt _ (clang_parse f) (now i) f) in Hf.
    rewrite Hf, (IH _ Hrest), len_cons.
    cbn [database successful_count failed_count]. f_equal. lia.
Qed.

Lemma enumerate_snd {A : Type} (P : A -> Prop) (l : list A) (start : Z) :
  Forall P l -> Forall (fun item => P (snd item)) (enumerate start l).
Proof.
  intros H. revert start; induction H as [|x l Hx Hl IH]; intros start;
    simpl; constructor; auto.
Qed.

(** X17.  A batch whose files are all missing, unreadable or empty never
    calls the persistence collaborator: the database is left as it was,
    every file counts as a failure, and the batch reports failure. *)
Theorem batch_without_records (test_files : list Path.t) (db : Database) :
  Forall (fun f => yields_no_record (file_state f)) test_files ->
  analyze_all_tests Database store_pattern repr_str rt file_state
    clang_parse now test_files db = (db, false)
  /\ analyze_loop Database store_pattern repr_str rt file_state
       clang_parse now test_files db
     = mk_tally _ db 0 (len test_files).
Proof.
  intros H.
  assert (analyze_loop Database store_pattern repr_str rt file_state
            clang_parse now test_files db
          = mk_tally _ db 0 (len test_files)) as Hloop.
  { unfold analyze_loop.
    rewrite (analyze_fold_refused _ _ (enumerate_snd _ _ 1 H)).
    cbn. now rewrite enumerate_length. }
  split; [|exact Hloop].
  unfold analyze_all_tests. destruct test_files as [|f fs]; [reflexivity|].
  rewrite Hloop. reflexivity.
Qed.

End BatchFacts.

Lemma batch_without_records_witness :
  Forall (fun f => yields_no_record (sample_files f))
         [missing_path; missing_path]
  /\ OpenMPPatternAnalyzer.analyze_all_tests (list string) sample_store
       quoted insertion_order sample_files (fun _ => sample_unit)
       (fun _ => "2024-01-01T00:00:00") [missing_path; missing_path] []
     = ([], false).
Proof.
  assert (Forall (fun f => yields_no_record (sample_files f))
                 [missing_path; missing_path]) as H
      by (repeat constructor).
  split; [exact H|].
  exact (proj1 (batch_without_records sample_store quoted insertion_order
                  sample_files (fun _ => sample_unit)
                  (fun _ => "2024-01-01T00:00:00")
                  [missing_path; missing_path] [] H)).
Defined.

(* ================================================================== *)
(** * The file finder *)
(* ================================================================== *)

(** X18.  A file the finder takes for an OpenMP test is never refused by
    [process_test_file]: its text holds an indicator and so is not empty. *)
Theorem validated_file_gets_record (repr_str : string -> string)
        (rt : SetOrder) (st : FileState) (tu : Clang.ParseResult)
        (now : string) (file_path : Path.t) :
  OpenMPFileFinder._is_openmp_test_file st = true ->
  exists r, process_test_file repr_str rt st tu now file_path = Some r.
Proof.
  intros H. destruct st as [| |content size]; try discriminate.
  destruct content as [|c text].
  - vm_compute in H. discriminate.
  - eexists. reflexivity.
Qed.

Lemma validated_file_gets_record_witness :
  OpenMPFileFinder._is_openmp_test_file sample_state = true
  /\ exists r,
       process_test_file quoted insertion_order sample_state sample_unit
         "2024-01-01T00:00:00" sample_path = Some r.
Proof.
  assert (OpenMPFileFinder._is_openmp_test_file sample_state = true) as H
      by (vm_compute; reflexivity).
  split; [exact H|].
  exact (validated_file_gets_record quoted insertion_order sample_state
           sample_unit "2024-01-01T00:00:00" sample_path H).
Defined.

Lemma Substring_trans (a b c : string) :
  Substring a b -> Substring b c -> Substring a c.
Proof.
  intros (p1 & q1 & ->) (p2 & q2 & ->).
  exists (p2 ++ p1)%string, (q1 ++ q2)%string.
  now rewrite !string_app_assoc.
Qed.

Lemma str_in_weaken (k k' s : string) :
  Substring k k' -> str_in k' s = true -> str_in k s = true.
Proof.
  intros Hk H. apply str_in_spec. apply str_in_spec in H.
  exact (Substring_trans _ _ _ Hk H).
Qed.

(** X19.  The finder's two tests reduce to fewer keywords than they list: a
    file name is a candidate exactly when its lower-cased form holds
    [openmp], [omp] or [parallel], and a readable file is validated exactly
    when its lower-cased text holds [#pragma omp], [openmp], [__kmpc_] or
    [omp_]; a file that cannot be read is never validated. *)
Theorem finder_rules (filename content : string) (size : Z) :
  (OpenMPFileFinder._matches_openmp_pattern filename = true
   <-> Substring "openmp" (lower filename)
       \/ Substring "omp" (lower filename)
       \/ Substring "parallel" (lower filename))
  /\ (OpenMPFileFinder._is_openmp_test_file (Readable content size) = true
      <-> Substring "#pragma omp" (lower content)
          \/ Substring "openmp" (lower content)
          \/ Substring "__kmpc_" (lower content)
          \/ Substring "omp_" (lower content))
  /\ OpenMPFileFinder._is_openmp_test_file Missing = false
  /\ OpenMPFileFinder._is_openmp_test_file Unreadable = false.
Proof.
  assert (Substring "openmp" "fopenmp") as O2 by now exists "f", "".
  assert (Substring "omp" "pragma_omp") as O3 by now exists "pragma_", "".
  assert (Substring "openmp" "-fopenmp") as O4 by now exists "-f", "".
  split; [|split; [|split; reflexivity]].
  - unfold OpenMPFileFinder._matches_openmp_pattern,
      OpenMPFileFinder.openmp_keywords.
    cbn [existsb]. rewrite orb_false_r.
    rewrite <- !str_in_spec. split.
    + intros H.
      repeat (apply orb_true_iff in H; destruct H as [H|H]);
        eauto using str_in_weaken.
    + intros [H|[H|H]]; rewrite H; now rewrite ?orb_true_r.
  - unfold OpenMPFileFinder._is_openmp_test_file,
      OpenMPFileFinder.openmp_indicators.
    cbn [existsb]. rewrite orb_false_r.
    rewrite <- !str_in_spec. split.
    + intros H.
      repeat (apply orb_true_iff in H; destruct H as [H|H]);
        eauto using str_in_weaken.
    + intros [H|[H|[H|H]]]; rewrite H; now rewrite ?orb_true_r.
Qed.

(* ================================================================== *)
(** * Annotations *)
(* ================================================================== *)

Lemma lstrip_suffix (s : string) : Suffix (lstrip s) s.
Proof.
  induction s as [|c s IH]; simpl.
  - now exists "".
  - destruct (isspace c).
    + destruct IH as [pre E]. exists (String c pre). simpl. now f_equal.
    + now exists "".
Qed.

Lemma rstrip_prefix (s : string) : exists post, s = (rstrip s ++ post)%string.
Proof.
  induction s as [|c s IH]; simpl.
  - now exists "".
  - destruct IH as [post E].
    destruct (isspace c && is_empty (rstrip s))%bool.
    + now exists (String c s).
    + exists post. simpl. now f_equal.
Qed.

Lemma Substring_strip (s : string) : Substring (strip s) s.
Proof.
  unfold strip. destruct (lstrip_suffix s) as [pre E].
  destruct (rstrip_prefix (lstrip s)) as [post E'].
  exists pre, post. now rewrite <- E', <- E.
Qed.

Lemma all_chars_lstrip (p : ascii -> bool) (s : string) :
  all_chars p s = true -> all_chars p (lstrip s) = true.
Proof.
  induction s as [|c s IH]; simpl; [auto|]. intros H.
  apply andb_true_iff in H as [Hc Hs].
  destruct (isspace c); [auto|]. simpl. now rewrite Hc, Hs.
Qed.

Lemma all_chars_rstrip (p : ascii -> bool) (s : string) :
  all_chars p s = true -> all_chars p (rstrip s) = true.
Proof.
  induction s as [|c s IH]; simpl; [auto|]. intros H.
  apply andb_true_iff in H as [Hc Hs].
  destruct (isspace c && is_empty (rstrip s))%bool; [reflexivity|].
  simpl. now rewrite Hc, IH.
Qed.

Lemma first_char_lstrip (s : string) : not_space (first_char (lstrip s)) = true.
Proof.
  induction s as [|c s IH]; simpl; [reflexivity|].
  destruct (isspace c) eqn:E; [exact IH|]. simpl. now rewrite E.
Qed.

Lemma first_char_rstrip (s : string) :
  not_space (first_char s) = true -> not_space (first_char (rstrip s)) = true.
Proof.
  destruct s as [|c s]; simpl; [auto|]. intros H.
  destruct (isspace c && is_empty (rstrip s))%bool; [reflexivity|exact H].
Qed.

Lemma last_char_rstrip (s : string) : not_space (last_char (rstrip s)) = true.
Proof.
  induction s as [|c s IH]; simpl; [reflexivity|].
  destruct (rstrip s) as [|d r] eqn:E.
  - simpl. rewrite andb_true_r. destruct (isspace c) eqn:Ec; simpl;
      [reflexivity|now rewrite Ec].
  - rewrite andb_false_r. exact IH.
Qed.

Lemma trimmed_strip (s : string) : trimmed (strip s) = true.
Proof.
  unfold trimmed, strip.
  now rewrite (first_char_rstrip _ (first_char_lstrip s)), last_char_rstrip.
Qed.

(** The last item of a sequence matches on what the items before it have
    left. *)
Lemma Matches_seq_last (icase : bool) (rs : list regex) (r : regex) :
  forall (s s' : string) (g g' : option string),
    Matches icase (seq (rs ++ [r])) s s' g g' ->
    exists s1 g1, Suffix s1 s /\ Matches icase r s1 s' g1 g'.
Proof.
  induction rs as [|r0 rs IH]; intros s s' g g' M.
  - unfold seq in M. cbn [app fold_right] in M.
    apply Matches_Cat_inv in M as (s1 & g1 & M & ML).
    apply Matches_Lit_inv in ML as [L ->]. apply lit_match_empty in L.
    subst s1. exists s, g. split; [now exists ""|exact M].
  - change (seq ((r0 :: rs) ++ [r])) with (Cat r0 (seq (rs ++ [r]))) in M.
    apply Matches_Cat_inv in M as (s1 & g1 & M0 & M).
    destruct (IH _ _ _ _ M) as (s2 & g2 & Hs & M2).
    exists s2, g2. split; [|exact M2].
    exact (Suffix_trans _ _ _ Hs (Matches_suffix _ _ _ _ _ _ M0)).
Qed.

(** What [findall] reports for a pattern that ends with the group [(.+)]
    is the text of the group: a piece of the text without line feed. *)
Lemma findall_last_group (rs : list regex) (content x : string) :
  has_group (seq (rs ++ [Grp (plus CAny)])) = true ->
  In x (findall false (seq (rs ++ [Grp (plus CAny)])) content) ->
  Substring x content /\ no_line_feed x = true.
Proof.
  intros Hg Hx.
  apply findall_go_sound in Hx as (before & m & -> & M & ->).
  unfold findall_item. rewrite Hg.
  apply Matches_seq_last in M as (s1 & g1 & [pre Hs] & M).
  apply Matches_Grp_inv in M as (Hg1 & g0 & M).
  apply Matches_Rep_inv in M as (mid & -> & Hmid & _ & _).
  rewrite Hg1, take_app_exact.
  split; [|exact Hmid].
  apply Substring_app_r. rewrite Hs. apply Substring_app_r.
  now exists "", (rest m).
Qed.

Lemma stripped_fragment (content x : string) :
  Substring x content /\ no_line_feed x = true ->
  line_fragment content (strip x).
Proof.
  intros [Hs Hn]. split; [|split].
  - destruct Hs as (pre & post & ->).
    destruct (Substring_strip x) as (l & r & E).
    exists (pre ++ l)%string, (r ++ post)%string.
    rewrite E at 1. now rewrite !string_app_assoc.
  - unfold strip, no_line_feed in *.
    now apply all_chars_rstrip, all_chars_lstrip.
  - apply trimmed_strip.
Qed.

(** X20.  The RUN commands, the check patterns, the expected errors and the
    expected warnings are each a piece of one line of the body, without the
    whitespace around it. *)
Theorem annotations_are_line_fragments (content : string) :
  Forall (line_fragment content) (_extract_run_commands content)
  /\ Forall (line_fragment content) (_extract_check_patterns content)
  /\ Forall (line_fragment content) (_extract_expected_errors content)
  /\ Forall (line_fragment content) (_extract_expected_warnings content).
Proof.
  unfold _extract_run_commands, _extract_check_patterns,
    _extract_expected_errors, _extract_expected_warnings.
  repeat split; apply Forall_forall; intros x Hx;
    apply in_map_iff in Hx as (y & <- & Hy); apply stripped_fragment.
  - exact (findall_last_group
             [Lit "//"; star CSpace; Lit "RUN:"; star CSpace]
             content y eq_refl Hy).
  - exact (findall_last_group
             [Lit "//"; star CSpace; Lit "CHECK"; star (CNot ":"%char);
              Lit ":"; star CSpace]
             content y eq_refl Hy).
  - exact (findall_last_group
             [Lit "//"; star CSpace; Lit "expected-error";
              star (CNot ":"%char); Lit ":"; star CSpace]
             content y eq_refl Hy).
  - exact (findall_last_group
             [Lit "//"; star CSpace; Lit "expected-warning";
              star (CNot ":"%char); Lit ":"; star CSpace]
             content y eq_refl Hy).
Qed.

(* ================================================================== *)
(** * Trigger mechanisms *)
(* ================================================================== *)

Lemma Substring_refl_prefix (a b : string) : Substring a (a ++ b).
Proof. now exists "", b. Qed.

(** The text a match leaves in group 1 is the text it found there or a
    piece of the text matched against. *)
Lemma Matches_capture (icase : bool) (r : regex) (s s' : string)
      (g g' : option string) :
  Matches icase r s s' g g' ->
  g' = g \/ exists x, g' = Some x /\ Substring x s.
Proof.
  induction 1 as [p s s' g L|cl min greedy pre rest g Hp Hm
                  |r1 r2 s s1 s2 g g1 g2 M1 IH1 M2 IH2
                  |r1 r2 s s' g g' M IH|r1 r2 s s' g g' M IH
                  |r s s' g g' M IH|r s s' g g' M IH];
    try (now left); try exact IH.
  - destruct IH2 as [->|(x & -> & Hx)]; [exact IH1|].
    right. exists x. split; [reflexivity|].
    destruct (Matches_suffix _ _ _ _ _ _ M1) as [pre ->].
    now apply Substring_app_r.
  - right. eexists. split; [reflexivity|].
    destruct (Matches_suffix _ _ _ _ _ _ M) as [pre ->].
    rewrite take_app_exact. apply Substring_refl_prefix.
Qed.

(** Every item of [re.findall] is a piece of the text. *)
Lemma findall_items_substrings (icase : bool) (r : regex) (s x : string) :
  In x (findall icase r s) -> Substring x s.
Proof.
  intros Hx. apply findall_go_sound in Hx as (before & m & -> & M & ->).
  apply Substring_app_r. unfold findall_item.
  destruct (has_group r); [|apply Substring_refl_prefix].
  destruct (Matches_capture _ _ _ _ _ _ M) as [->|(x & -> & Hx)];
    [now exists "", (group0 m ++ rest m)%string|exact Hx].
Qed.

Lemma lower_char_nl (c : ascii) : lower_char c = chr 10 -> c = chr 10.
Proof.
  destruct c as [[] [] [] [] [] [] [] []]; vm_compute; congruence.
Qed.

(** A directive trigger stands before a line feed. *)
Lemma directive_trigger_before_line_feed (content x : string) :
  In x (findall true trigger_directive_re content) ->
  Substring (x ++ nl) content.
Proof.
  intros Hx. apply findall_go_sound in Hx as (before & m & -> & M & ->).
  change (findall_item trigger_directive_re m) with (group0 m).
  change trigger_directive_re
    with (seq ([Lit "#pragma"; plus CSpace; Lit "omp"; plus CSpace;
                plus CWord; star_lazy CAny] ++ [Ahead (Lit nl)])) in M.
  apply Matches_seq_last in M as (s1 & g1 & _ & M).
  apply Matches_Ahead_inv in M as (E & s2 & M).
  apply Matches_Lit_inv in M as [L _].
  unfold nl in L. rewrite E.
  destruct s1 as [|c after]; [cbn [lit_match] in L; discriminate|].
  rewrite lit_match_cons in L.
  unfold char_eq in L.
  destruct (Ascii.eqb (lower_char (chr 10)) (lower_char c)) eqn:Ec;
    [|discriminate].
  apply Ascii.eqb_eq in Ec. symmetry in Ec. apply lower_char_nl in Ec.
  subst c. apply Substring_app_r.
  exists "", after. unfold nl. simpl. now rewrite string_app_assoc.
Qed.

(** X21.  Every trigger mechanism is one of the five trigger types, a colon,
    a blank and a piece of the body; a directive is a trigger only when a
    line feed follows it, so the pragma of a last line that no line feed
    ends is none. *)
Theorem error_triggers_shape (content t : string) :
  In t (_extract_error_triggers content) ->
  exists trigger_type found,
    t = (trigger_type ++ ": " ++ found)%string
    /\ In trigger_type (map snd trigger_patterns)
    /\ Substring found content
    /\ (trigger_type = "openmp_directive" ->
        Substring (found ++ nl) content).
Proof.
  unfold _extract_error_triggers. intros H.
  apply in_flat_map in H as ([pattern trigger_type] & Hp & H).
  apply in_map_iff in H as (found & <- & Hf).
  exists trigger_type, found. split; [reflexivity|].
  split; [exact (in_map snd _ _ Hp)|].
  split; [exact (findall_items_substrings _ _ _ _ Hf)|].
  intros ->. apply directive_trigger_before_line_feed.
  unfold trigger_patterns in Hp. cbn [In] in Hp.
  destruct Hp as [Hp|[Hp|[Hp|[Hp|[Hp|[]]]]]];
    pose proof (f_equal snd Hp) as Ht; cbn [snd] in Ht;
    try discriminate Ht.
  pose proof (f_equal fst Hp) as Hr; cbn [fst] in Hr.
  rewrite Hr. exact Hf.
Qed.

Lemma error_triggers_shape_witness :
  In "openmp_directive: #pragma omp parallel"
     (_extract_error_triggers ("#pragma omp parallel" ++ nl))
  /\ exists trigger_type found,
       "openmp_directive: #pragma omp parallel"
       = (trigger_type ++ ": " ++ found)%string
       /\ In trigger_type (map snd trigger_patterns)
       /\ Substring found ("#pragma omp parallel" ++ nl)
       /\ (trigger_type = "openmp_directive" ->
           Substring (found ++ nl) ("#pragma omp parallel" ++ nl)).
Proof.
  assert (In "openmp_directive: #pragma omp parallel"
             (_extract_error_triggers ("#pragma omp parallel" ++ nl))) as H
      by (vm_compute; left; reflexivity).
  split; [exact H|].
  exact (error_triggers_shape ("#pragma omp parallel" ++ nl)
           "openmp_directive: #pragma omp parallel" H).
Defined.
